(** * lvsc: screenshots of a libvirt domain encoded into an IVF/VP9 stream

    A shallow embedding of [src/main_lvsc.cpp] and the properties of its
    capture-to-container pipeline: the little-endian store routines, the
    IVF stream header and frame records, the RGB to I420 conversion, the
    keyframe cadence of [encode_frame], the flush protocol, the argument
    processing, the screenshot call and the capture loop of [main].

    Conventions.  A C integer is a [Z]; conversions to a narrower or to a
    signed type are written out ([to_int], [to_uint32], [to_uint8]), and an
    [int] that is incremented wraps around ([to_int]); the theorems on the
    two frame counters carry the bound below which nothing wraps.  A byte
    is a [Z] in [0, 256).  Memory regions (arrays, the file) are [list Z]
    updated by index.  [exit] through [fatal] is the [Fatal] outcome.  The
    signal handler and the libvirt set-up of [main] (lines 339-383 and
    411-413) are not part of the embedding: what the library delivers and
    when the signal comes are inputs of the model. *)

From Stdlib Require Import ZArith Lia String Ascii.
From stdpp Require Import base tactics option list numbers.

Local Open Scope Z_scope.

(** ** Integer conversions *)

Module CInt.

Definition to_uint8 (x : Z) : Z := x mod 256.
Definition to_uint32 (x : Z) : Z := x mod 2 ^ 32.
(** Conversion to [int]: two's complement wrap-around. *)
Definition to_int (x : Z) : Z := (x + 2 ^ 31) mod 2 ^ 32 - 2 ^ 31.
Definition INT_MAX : Z := 2 ^ 31 - 1.

Definition char_code (c : ascii) : Z := Z.of_nat (nat_of_ascii c).

End CInt.
Import CInt.

(** ** Maths and endian routines (lines 23-45) *)

(** [uint8_t clamp(ssize_t x) { return max(min(x, 255), 0); }] *)
Definition clamp (x : Z) : Z := to_uint8 (Z.max (Z.min x 255) 0).

(** [mem[0] = (uint8_t)((val >> 0) & 0xff); mem[1] = (uint8_t)((val >> 8) & 0xff);]
    where [mem] points [off] bytes into the array [vmem]. *)
Definition mem_put_le16 (vmem : list Z) (off : nat) (val : Z) : list Z :=
  let mem := <[off := to_uint8 (Z.land (Z.shiftr val 0) 255)]> vmem in
  <[(off + 1)%nat := to_uint8 (Z.land (Z.shiftr val 8) 255)]> mem.

Definition mem_put_le32 (vmem : list Z) (off : nat) (val : Z) : list Z :=
  let mem := <[off := to_uint8 (Z.land (Z.shiftr val 0) 255)]> vmem in
  let mem := <[(off + 1)%nat := to_uint8 (Z.land (Z.shiftr val 8) 255)]> mem in
  let mem := <[(off + 2)%nat := to_uint8 (Z.land (Z.shiftr val 16) 255)]> mem in
  <[(off + 3)%nat := to_uint8 (Z.land (Z.shiftr val 24) 255)]> mem.

(** ** Constants (lines 47-57) *)

Definition SIZE : Z := 1024 * 768 * 3 * 10.
Definition VP9_FOURCC : Z := 0x30395056.
Definition FPS_NUMERATOR : Z := 1.
Definition FPS_DENOMINATOR : Z := 5.
Definition KEYFRAME_INTERVAL : Z := 10.

(** From [vpx/vpx_encoder.h]: [#define VPX_EFLAG_FORCE_KF (1 << 0)],
    [#define VPX_DL_GOOD_QUALITY 1000000]. *)
Definition VPX_EFLAG_FORCE_KF : Z := 1.
Definition VPX_DL_GOOD_QUALITY : Z := 1000000.

(** ** Reference encoding: a value as [k] bytes, least significant first

    This is the layout the container format prescribes; the store routines
    above are compared with it. *)

Fixpoint le_bytes (k : nat) (v : Z) : list Z :=
  match k with
  | O => []
  | S k' => v mod 256 :: le_bytes k' (v / 256)
  end.

Fixpoint le_value (bs : list Z) : Z :=
  match bs with
  | [] => 0
  | b :: bs' => b + 256 * le_value bs'
  end.

(** The bytes of a region from [off], [n] of them. *)
Definition sub_bytes (off n : nat) (m : list Z) : list Z := take n (drop off m).

(** ** The output stream: a model of the stdio [FILE] the writer owns

    [f_data] is the content of the file, [f_pos] the file position and
    [f_limit] the largest size the device lets the file reach ([None]: no
    limit).  A write that would pass the limit is cut short, which is what
    [fwrite] reports through its return value.

    The stream has no buffer of its own here: [f_data] is what the file
    holds once the C library has flushed the stream, as [rewind], [fseek],
    [fflush] and [fclose] do, and not what is on the disk between two of
    these calls.  On a device that runs full the library may report the
    short write at a later call than [fwrite] does here; the theorems on
    the content of the file assume room on the device, or none is needed,
    and those on failures only say that there is none without a limit. *)

Record FILE : Type := mkFILE {
  f_data : list Z;
  f_pos : nat;
  f_limit : option nat
}.

(** [fopen(filename, "w")] where it succeeds: an empty file, positioned
    at its start.  The constructor does not check the pointer it gets;
    [new_writer_on] has the case of the null pointer. *)
Definition fopen (limit : option nat) : FILE :=
  {| f_data := []; f_pos := 0; f_limit := limit |}.

Definition ftell (stream : FILE) : Z := Z.of_nat (f_pos stream).

Definition rewind (stream : FILE) : FILE :=
  {| f_data := f_data stream; f_pos := 0; f_limit := f_limit stream |}.

(** [fseek(stream, offset, SEEK_SET)] *)
Definition fseek (stream : FILE) (offset : Z) : FILE :=
  {| f_data := f_data stream; f_pos := Z.to_nat offset;
     f_limit := f_limit stream |}.

(** Bytes the device accepts from a request of [n] at the current position. *)
Definition room (stream : FILE) (n : nat) : nat :=
  match f_limit stream with
  | None => n
  | Some l => Nat.min n (l - f_pos stream)
  end.

(** Overwrite [data] from [pos] with [src]; a gap past the end reads as 0. *)
Definition store_at (pos : nat) (src data : list Z) : list Z :=
  take pos data ++ replicate (pos - length data) 0 ++ src
    ++ drop (pos + length src) data.

(** [fwrite(ptr, 1, nmemb, stream)]: the number of bytes written and the
    stream afterwards. *)
Definition fwrite (ptr : list Z) (nmemb : nat) (stream : FILE) : nat * FILE :=
  match take (room stream nmemb) ptr with
  | [] => (0%nat, stream)
  | src =>
      (length src,
       {| f_data := store_at (f_pos stream) src (f_data stream);
          f_pos := f_pos stream + length src;
          f_limit := f_limit stream |})
  end.

(** A request of [n] bytes at the current position fits the device. *)
Definition fits (stream : FILE) (n : nat) : Prop :=
  match f_limit stream with
  | None => True
  | Some l => (f_pos stream + n <= l)%nat
  end.

(** ** Outcomes of a run

    [Fatal] is [fatal(...)]: the diagnostic is printed and the process exits
    with [EXIT_FAILURE].  [Trap] is an access the C++ program may not make
    (through a null pointer, at an index outside its array): the behaviour
    of the program is undefined from there on.  The run of the model ends
    at the first such access and names it; whether the process is killed
    there or goes on with what the access happens to give is not part of
    the model.  [OutOfFuel] is a loop of the model that was given too few
    steps. *)

Inductive outcome (A : Type) : Type :=
  | Done (a : A)
  | Fatal (diagnostic : string)
  | Trap (what : string)
  | OutOfFuel.

Arguments Done {A} a.
Arguments Fatal {A} diagnostic.
Arguments Trap {A} what.
Arguments OutOfFuel {A}.

Definition obind {A B : Type} (c : outcome A) (k : A -> outcome B) : outcome B :=
  match c with
  | Done a => k a
  | Fatal d => Fatal d
  | Trap t => Trap t
  | OutOfFuel => OutOfFuel
  end.

Notation "x <-- c ;; k" := (obind c (fun x => k))
  (at level 100, c at next level, right associativity).

(** [for (... : l) body]: the body run on each element in turn. *)
Fixpoint for_each {E S : Type} (l : list E) (body : E -> S -> outcome S) (s : S)
  : outcome S :=
  match l with
  | [] => Done s
  | e :: l' => s' <-- body e s ;; for_each l' body s'
  end.

(** The values [0, step, 2*step, ...] below [stop]: the values a loop
    [for (int i = 0; i < stop; i += step)] gives its variable. *)
Definition c_range (stop step : Z) : list Z :=
  (fun k : nat => Z.of_nat k * step) <$> seq 0 (Z.to_nat ((stop + step - 1) / step)).

(** ** Pointers into byte arrays

    An array is given by the bytes written to it so far ([block]) and its
    size; the bytes past [block] are those of zero-initialised storage.  A
    pointer is an array with an offset. *)

Record pointer : Type := mkPointer {
  block : list Z;
  block_size : Z;
  offset : Z
}.

(** [p + n] *)
Definition ptr_add (p : pointer) (n : Z) : pointer :=
  {| block := block p; block_size := block_size p; offset := offset p + n |}.

(** [p[i]]; the code does not compare [i] with the size of the array, and
    a read outside it is undefined. *)
Definition load (p : pointer) (i : Z) : outcome Z :=
  let idx := offset p + i in
  if (0 <=? idx) && (idx <? block_size p)
  then Done (default 0 (block p !! Z.to_nat idx))
  else Trap "read outside the buffer".

(** [dest[dst_pos] = v] *)
Definition store (dest : list Z) (dst_pos : nat) (v : Z) : outcome (list Z) :=
  if decide (dst_pos < length dest)%nat
  then Done (<[dst_pos := v]> dest)
  else Trap "write outside the plane".

(** ** The encoder library (libvpx), at the interface the writer uses *)

Record vpx_image_t : Type := mkImage {
  planes : list (list Z)
}.

(** [vpx_img_alloc(&img, VPX_IMG_FMT_I420, width, height, 1)]: a luma
    plane of [width * height] bytes and two chroma planes of half the
    width and half the height, rounded up. *)
Definition vpx_img_alloc (width height : Z) : vpx_image_t :=
  let cw := (width + 1) / 2 in
  let ch := (height + 1) / 2 in
  {| planes := [ replicate (Z.to_nat (width * height)) 0;
                 replicate (Z.to_nat (cw * ch)) 0;
                 replicate (Z.to_nat (cw * ch)) 0 ] |}.

Inductive vpx_codec_cx_pkt_kind : Type :=
  | VPX_CODEC_CX_FRAME_PKT
  | VPX_CODEC_STATS_PKT
  | VPX_CODEC_FPMB_STATS_PKT
  | VPX_CODEC_PSNR_PKT
  | VPX_CODEC_CUSTOM_PKT.

#[global] Instance pkt_kind_eq_dec : EqDecision vpx_codec_cx_pkt_kind.
Proof. solve_decision. Defined.

(** A packet: [frame_buf] is [pkt->data.frame.buf], whose length is
    [pkt->data.frame.sz]; [frame_pts] is [pkt->data.frame.pts]. *)
Record vpx_codec_cx_pkt_t : Type := mkPkt {
  kind : vpx_codec_cx_pkt_kind;
  frame_buf : list Z;
  frame_pts : Z
}.

Record vpx_codec_enc_cfg_t : Type := mkCfg {
  g_w : Z;
  g_h : Z;
  g_timebase_num : Z;
  g_timebase_den : Z;
  g_error_resilient : Z
}.

Definition VPX_CODEC_OK : Z := 0.

(** The calls of the library, over the type of its encoder state.  An
    error code is a [Z], [VPX_CODEC_OK] being 0.  [vpx_codec_get_cx_data]
    gives the packets the iteration over the last [vpx_codec_encode]
    yields, in order. *)
Class VpxCodec (codec_t : Type) : Type := {
  vpx_codec_enc_config_default : Z;
  vpx_codec_enc_init : vpx_codec_enc_cfg_t -> Z * codec_t;
  vpx_codec_control_lossless : codec_t -> Z -> Z * codec_t;
  vpx_codec_encode_step :
    codec_t -> option vpx_image_t -> Z -> Z -> Z -> Z -> Z * codec_t;
  vpx_codec_get_cx_data_all : codec_t -> list vpx_codec_cx_pkt_t
}.

(** One call of [vpx_codec_encode] as the library sees it. *)
Record submission : Type := mkSubmission {
  sub_img : option vpx_image_t;
  sub_pts : Z;
  sub_duration : Z;
  sub_flags : Z;
  sub_deadline : Z
}.

(** The codec context: the encoder state and the calls of
    [vpx_codec_encode] made on it, oldest first. *)
Record vpx_codec_ctx_t (codec_t : Type) : Type := mkCtx {
  priv : codec_t;
  submitted : list submission
}.
Arguments mkCtx {codec_t} priv submitted.
Arguments priv {codec_t} _.
Arguments submitted {codec_t} _.

Definition vpx_codec_encode `{VpxCodec codec_t} (ctx : vpx_codec_ctx_t codec_t)
    (img : option vpx_image_t) (pts duration flags deadline : Z)
  : Z * vpx_codec_ctx_t codec_t :=
  let '(res, c) := vpx_codec_encode_step (priv ctx) img pts duration flags deadline in
  (res, {| priv := c;
           submitted := submitted ctx ++ [mkSubmission img pts duration flags deadline] |}).

Definition vpx_codec_get_cx_data `{VpxCodec codec_t} (ctx : vpx_codec_ctx_t codec_t)
  : list vpx_codec_cx_pkt_t :=
  vpx_codec_get_cx_data_all (priv ctx).

(** ** The writer (lines 103-296) *)

Section Writer.

Context {codec_t : Type} `{!VpxCodec codec_t}.

Record IVFVPX9Writer : Type := mkWriter {
  outfile : FILE;
  width : Z;
  height : Z;
  frames_written : Z;
  frames_encoded : Z;
  codec : vpx_codec_ctx_t codec_t;
  img : vpx_image_t
}.

Definition set_outfile (f : FILE) (w : IVFVPX9Writer) : IVFVPX9Writer :=
  mkWriter f (width w) (height w) (frames_written w) (frames_encoded w)
           (codec w) (img w).
Definition set_frames_written (n : Z) (w : IVFVPX9Writer) : IVFVPX9Writer :=
  mkWriter (outfile w) (width w) (height w) n (frames_encoded w)
           (codec w) (img w).
Definition set_frames_encoded (n : Z) (w : IVFVPX9Writer) : IVFVPX9Writer :=
  mkWriter (outfile w) (width w) (height w) (frames_written w) n
           (codec w) (img w).
Definition set_codec (c : vpx_codec_ctx_t codec_t) (w : IVFVPX9Writer)
  : IVFVPX9Writer :=
  mkWriter (outfile w) (width w) (height w) (frames_written w)
           (frames_encoded w) c (img w).
Definition set_img (i : vpx_image_t) (w : IVFVPX9Writer) : IVFVPX9Writer :=
  mkWriter (outfile w) (width w) (height w) (frames_written w)
           (frames_encoded w) (codec w) i.

(** The array [char header[32]] as [write_file_header] fills it (lines
    117-130), from the content [header] the array has on entry. *)
Definition file_header (header : list Z) (width height frames_written : Z)
  : list Z :=
  let header := <[0%nat := char_code "D"]> header in
  let header := <[1%nat := char_code "K"]> header in
  let header := <[2%nat := char_code "I"]> header in
  let header := <[3%nat := char_code "F"]> header in
  let header := mem_put_le16 header 4 0 in
  let header := mem_put_le16 header 6 32 in
  let header := mem_put_le32 header 8 VP9_FOURCC in
  let header := mem_put_le16 header 12 width in
  let header := mem_put_le16 header 14 height in
  let header := mem_put_le32 header 16 FPS_DENOMINATOR in
  let header := mem_put_le32 header 20 FPS_NUMERATOR in
  let header := mem_put_le32 header 24 frames_written in
  mem_put_le32 header 28 0.

(** A local array of [n] bytes before anything is stored in it.  Its
    content is indeterminate in C++; the functions below store every byte
    before the array is read ([file_header_any], [frame_header_any]). *)
Definition local_array (n : nat) : list Z := replicate n 0.

Definition write_file_header (w : IVFVPX9Writer) : IVFVPX9Writer :=
  let header :=
    file_header (local_array 32) (width w) (height w) (frames_written w) in
  let position := ftell (outfile w) in
  let f := rewind (outfile w) in
  let f := snd (fwrite header 32 f) in
  let f := if 32 <=? position then fseek f position else f in
  set_outfile f w.

(** The array [char header[12]] of [write_ivf_frame_header] (lines
    142-146); [frame_size] is the [uint32_t] parameter. *)
Definition frame_header (header : list Z) (pts frame_size : Z) : list Z :=
  let header := mem_put_le32 header 0 (to_int frame_size) in
  let header := mem_put_le32 header 4 (to_int (Z.land pts 0xFFFFFFFF)) in
  mem_put_le32 header 8 (to_int (Z.shiftr pts 32)).

Definition write_ivf_frame_header (outfile : FILE) (pts frame_size : Z) : FILE :=
  let header := frame_header (local_array 12) pts frame_size in
  snd (fwrite header 12 outfile).

(** [buffer] holds the [size] bytes of the payload. *)
Definition vpx_video_writer_write_frame (w : IVFVPX9Writer) (buffer : list Z)
    (pts : Z) : Z * IVFVPX9Writer :=
  let size := length buffer in
  let f := write_ivf_frame_header (outfile w) pts (to_uint32 (Z.of_nat size)) in
  let '(n, f) := fwrite buffer size f in
  if decide (n ≠ size) then (0, set_outfile f w)
  else
    let w := set_outfile f w in
    (1, set_frames_written (to_int (frames_written w + 1)) w).

(** The body of the loop over the packets (lines 176-188): the state is
    [got_pkts] and the writer. *)
Definition take_packet (pkt : vpx_codec_cx_pkt_t) (s : Z * IVFVPX9Writer)
  : outcome (Z * IVFVPX9Writer) :=
  let '(_, w) := s in
  let got_pkts := 1 in
  if decide (kind pkt = VPX_CODEC_CX_FRAME_PKT) then
    let '(ok, w) := vpx_video_writer_write_frame w (frame_buf pkt) (frame_pts pkt) in
    if ok =? 0 then Fatal "Failed to write compressed frame."
    else Done (got_pkts, w)
  else Done (got_pkts, w).

Definition encode_frame (w : IVFVPX9Writer) (flush : bool)
  : outcome (Z * IVFVPX9Writer) :=
  let frame_index := if negb flush then frames_encoded w else -1 in
  let flags :=
    if Z.rem frame_index KEYFRAME_INTERVAL =? 0 then VPX_EFLAG_FORCE_KF else 0 in
  let img := if negb flush then Some (img w) else None in
  let w :=
    if negb flush then set_frames_encoded (to_int (frames_encoded w + 1)) w
    else w in
  let got_pkts := 0 in
  let '(res, ctx) :=
    vpx_codec_encode (codec w) img frame_index 1 flags VPX_DL_GOOD_QUALITY in
  let w := set_codec ctx w in
  if decide (res ≠ VPX_CODEC_OK) then Fatal "Failed to encode frame."
  else for_each (vpx_codec_get_cx_data ctx) take_packet (got_pkts, w).

(** [while (encode_frame(true)) { }] *)
Fixpoint flush_encoder (fuel : nat) (w : IVFVPX9Writer) : outcome IVFVPX9Writer :=
  match fuel with
  | O => OutOfFuel
  | S fuel' =>
      r <-- encode_frame w true ;;
      if fst r =? 0 then Done (snd r) else flush_encoder fuel' (snd r)
  end.

(** [fflush(outfile)] changes nothing here: the model has no buffer
    between [fwrite] and the file. *)
Definition flush (fuel : nat) (w : IVFVPX9Writer) : outcome IVFVPX9Writer :=
  let w := write_file_header w in
  flush_encoder fuel w.

(** The destructor; the result is the file as [fclose] leaves it. *)
Definition destroy (fuel : nat) (w : IVFVPX9Writer) : outcome FILE :=
  w <-- flush fuel w ;;
  Done (outfile w).

(** The constructor; [limit] is what the device of [filename] allows. *)
Definition new_writer (limit : option nat) (width height : Z)
  : outcome IVFVPX9Writer :=
  let outfile := fopen limit in
  let error := vpx_codec_enc_config_default in
  if decide (error ≠ 0) then Fatal "Failed to get default codec config."
  else
    let cfg := {| g_w := to_uint32 width; g_h := to_uint32 height;
                  g_timebase_num := FPS_NUMERATOR;
                  g_timebase_den := FPS_DENOMINATOR;
                  g_error_resilient := 0 |} in
    let '(res, c) := vpx_codec_enc_init cfg in
    if decide (res ≠ 0) then Fatal "Failed to initialize encoder with VP9 codec."
    else
      let '(res, c) := vpx_codec_control_lossless c 1 in
      if decide (res ≠ 0) then Fatal "Failed to use lossless mode on VP9 codec."
      else
        let w := mkWriter outfile width height 0 0 (mkCtx c []) (mkImage []) in
        let w := write_file_header w in
        Done (set_img (vpx_img_alloc width height) w).

End Writer.

Arguments IVFVPX9Writer codec_t : clear implicits.

(** ** The colour space conversion (lines 193-246) *)

Section Convert.

Context {codec_t : Type}.

(** The three loop bodies.  The state is [dst_pos] and the plane [dest]
    points to; [r], [g], [b] are [ssize_t], and [/] on them is the
    truncating division, [Z.quot]. *)
Definition luma_sample (width : Z) (buffer : pointer) (y x : Z)
    (s : nat * list Z) : outcome (nat * list Z) :=
  let '(dst_pos, dest) := s in
  let o := to_int ((y * width + x) * 3) in
  r <-- load buffer o ;;
  g <-- load buffer (o + 1) ;;
  b <-- load buffer (o + 2) ;;
  let y := Z.quot (66 * r + 129 * g + 25 * b + 128) 256 + 16 in
  dest <-- store dest dst_pos (clamp y) ;;
  Done (S dst_pos, dest).

Definition chroma_u_sample (width : Z) (buffer : pointer) (y x : Z)
    (s : nat * list Z) : outcome (nat * list Z) :=
  let '(dst_pos, dest) := s in
  let o := to_int ((y * width + x) * 3) in
  r <-- load buffer o ;;
  g <-- load buffer (o + 1) ;;
  b <-- load buffer (o + 2) ;;
  let u := Z.quot (-38 * r - 74 * g + 112 * b + 128) 256 + 128 in
  dest <-- store dest dst_pos (clamp u) ;;
  Done (S dst_pos, dest).

Definition chroma_v_sample (width : Z) (buffer : pointer) (y x : Z)
    (s : nat * list Z) : outcome (nat * list Z) :=
  let '(dst_pos, dest) := s in
  let o := to_int ((y * width + x) * 3) in
  r <-- load buffer o ;;
  g <-- load buffer (o + 1) ;;
  b <-- load buffer (o + 2) ;;
  let v := Z.quot (112 * r - 94 * g - 18 * b + 128) 256 + 128 in
  dest <-- store dest dst_pos (clamp v) ;;
  Done (S dst_pos, dest).

(** [img.planes[k] = dest]: the plane [dest] points into, as the loop
    leaves it. *)
Definition set_plane (k : nat) (dest : list Z) (w : IVFVPX9Writer codec_t)
  : IVFVPX9Writer codec_t :=
  set_img (mkImage (<[k := dest]> (planes (img w)))) w.

Definition update_image (w : IVFVPX9Writer codec_t) (buffer : pointer)
  : outcome (IVFVPX9Writer codec_t) :=
  let dst_pos := 0%nat in
  let dest := planes (img w) !!! 0%nat in
  s <-- for_each (c_range (height w) 1)
          (fun y => for_each (c_range (width w) 1)
                      (fun x => luma_sample (width w) buffer y x))
          (dst_pos, dest) ;;
  let w := set_plane 0 (snd s) w in

  let dst_pos := 0%nat in
  let dest := planes (img w) !!! 1%nat in
  s <-- for_each (c_range (height w) 2)
          (fun y => for_each (c_range (width w) 2)
                      (fun x => chroma_u_sample (width w) buffer y x))
          (dst_pos, dest) ;;
  let w := set_plane 1 (snd s) w in

  let dst_pos := 0%nat in
  let dest := planes (img w) !!! 2%nat in
  s <-- for_each (c_range (height w) 2)
          (fun y => for_each (c_range (width w) 2)
                      (fun x => chroma_v_sample (width w) buffer y x))
          (dst_pos, dest) ;;
  Done (set_plane 2 (snd s) w).

End Convert.

(** ** Reading the header of a screenshot (line 422)

    [sscanf(buffer, "P6 %d %d %d%n", &pwidth, &pheight, &pdepth, &chars)]
    on the bytes of the buffer.  The string ends at the first NUL byte; the
    bytes past the written part of the buffer are NUL.  A variable the scan
    does not reach keeps the value it had. *)

Record scan_vars : Type := mkVars {
  pwidth : Z;
  pheight : Z;
  pdepth : Z;
  chars : Z
}.

Definition isspace (c : Z) : bool := (c =? 32) || ((9 <=? c) && (c <=? 13)).
Definition isdigit (c : Z) : bool := (48 <=? c) && (c <=? 57).

(** A white-space directive, and the white space [%d] skips first. *)
Fixpoint skip_space (s : list Z) : list Z :=
  match s with
  | c :: s' => if isspace c then skip_space s' else s
  | [] => []
  end.

Fixpoint scan_digits (s : list Z) (acc : Z) : Z * list Z :=
  match s with
  | c :: s' => if isdigit c then scan_digits s' (acc * 10 + (c - 48)) else (acc, s)
  | [] => (acc, [])
  end.

Inductive conversion : Type :=
  | Converted (v : Z) (rest : list Z)
  | MatchFailure
  | InputFailure.

Definition at_end (s : list Z) : bool :=
  match s with
  | [] => true
  | c :: _ => c =? 0
  end.

(** An ordinary character of the format. *)
Definition literal (ch : ascii) (s : list Z) : conversion :=
  match s with
  | c :: rest =>
      if c =? 0 then InputFailure
      else if c =? char_code ch then Converted 0 rest else MatchFailure
  | [] => InputFailure
  end.

(** [strtol] on a sign and the number its digits denote: a number
    outside the range of [long], 64 bits on the platform, gives [LONG_MAX]
    or [LONG_MIN]. *)
Definition LONG_MAX : Z := 2 ^ 63 - 1.
Definition LONG_MIN : Z := - 2 ^ 63.

Definition strtol (neg : bool) (magnitude : Z) : Z :=
  if neg then Z.max (- magnitude) LONG_MIN else Z.min magnitude LONG_MAX.

(** [%d]: white space, an optional sign, decimal digits.  The C library
    converts the digits with [strtol] and stores the [long] it gets in the
    [int]. *)
Definition scan_int (s : list Z) : conversion :=
  let s := skip_space s in
  if at_end s then InputFailure
  else
    let '(neg, s) :=
      match s with
      | c :: s' =>
          if c =? char_code "-" then (true, s')
          else if c =? char_code "+" then (false, s') else (false, s)
      | [] => (false, s)
      end in
    match s with
    | c :: _ =>
        if isdigit c then
          let '(v, rest) := scan_digits s 0 in
          Converted (to_int (strtol neg v)) rest
        else MatchFailure
    | [] => MatchFailure
    end.

Definition EOF : Z := -1.

(** What [sscanf] returns when it stops after [assigned] conversions. *)
Definition stopped (assigned : Z) (c : conversion) : Z :=
  match c with
  | InputFailure => if assigned =? 0 then EOF else assigned
  | _ => assigned
  end.

Definition sscanf_P6 (s : list Z) (v : scan_vars) : Z * scan_vars :=
  match literal "P" s with
  | Converted _ s1 =>
    match literal "6" s1 with
    | Converted _ s2 =>
      match scan_int (skip_space s2) with
      | Converted w s3 =>
        let v := mkVars w (pheight v) (pdepth v) (chars v) in
        match scan_int (skip_space s3) with
        | Converted h s4 =>
          let v := mkVars (pwidth v) h (pdepth v) (chars v) in
          match scan_int (skip_space s4) with
          | Converted d s5 =>
            let n := Z.of_nat (length s - length s5) in
            (3, mkVars (pwidth v) (pheight v) d (to_int n))
          | f => (stopped 2 f, v)
          end
        | f => (stopped 1 f, v)
        end
      | f => (stopped 0 f, v)
      end
    | f => (stopped 0 f, v)
    end
  | f => (stopped 0 f, v)
  end.

(** ** The capture loop and the end of [main] (lines 384-446)

    What the program meets from outside is given beforehand: for each
    turn of the loop that runs before the signal handler's [capturing = 0]
    is seen, what the screenshot call does and what the four local
    variables of line 421 hold before [sscanf] (they are not
    initialised); the status of the [mkvmerge] command and of [unlink]. *)

Inductive screenshot : Type :=
  | NoScreenshot                       (* virDomainScreenshot gave no mimetype *)
  | RecvAborted (received : list Z)    (* virStreamRecv < 0 after these bytes *)
  | RecvFinished (received : list Z).  (* virStreamRecv = 0 after these bytes *)

Record iteration : Type := mkIteration {
  shot : screenshot;
  locals : scan_vars
}.

(** What the run does to the world outside the writer. *)
Inductive event : Type :=
  | EvFlush                              (* video_stream->flush() returned *)
  | EvSystem (tmp : option (list Z))     (* mkvmerge run on this temporary file *)
  | EvUnlink (status : Z).               (* unlink(tmp_file) returned this *)

(** The first [n] elements of [l]. *)
Fixpoint take_upto (n : Z) (l : list Z) : list Z :=
  match l with
  | [] => []
  | x :: l' => if 0 <? n then x :: take_upto (n - 1) l' else []
  end.

(** The bytes received land at the start of [buffer], at most [SIZE]. *)
Definition receive (received buffer : list Z) : list Z :=
  let d := take_upto SIZE received in
  d ++ drop (length d) buffer.

Definition take_screenshot (ev : screenshot) (buffer : list Z) : Z * list Z :=
  match ev with
  | NoScreenshot => (-1, buffer)
  | RecvAborted received => (-1, receive received buffer)
  | RecvFinished received =>
      (Z.of_nat (length (take_upto SIZE received)), receive received buffer)
  end.

Section Main.

Context {codec_t : Type} `{!VpxCodec codec_t}.

(** [buffer] is the written part of the global array; [video_stream] the
    [unique_ptr]; [closed] the file the destructor closed; [trace] the
    events so far. *)
Record world : Type := mkWorld {
  buffer : list Z;
  video_stream : option (IVFVPX9Writer codec_t);
  closed : option FILE;
  trace : list event
}.

Definition set_buffer (b : list Z) (st : world) : world :=
  mkWorld b (video_stream st) (closed st) (trace st).
Definition set_video_stream (v : option (IVFVPX9Writer codec_t)) (st : world)
  : world :=
  mkWorld (buffer st) v (closed st) (trace st).
Definition log (e : event) (st : world) : world :=
  mkWorld (buffer st) (video_stream st) (closed st) (trace st ++ [e]).

(** A call on [*video_stream]: a null pointer traps, a failure leaves the
    world as it was before the call. *)
Definition on_stream {A : Type} (st : world)
    (call : IVFVPX9Writer codec_t -> outcome (A * IVFVPX9Writer codec_t))
  : world * outcome A :=
  match video_stream st with
  | None => (st, Trap "video_stream is null")
  | Some vs =>
      match call vs with
      | Done (a, vs') => (set_video_stream (Some vs') st, Done a)
      | Fatal d => (st, Fatal d)
      | Trap t => (st, Trap t)
      | OutOfFuel => (st, OutOfFuel)
      end
  end.

Definition pbind {A B : Type} (m : world * outcome A)
    (k : world -> A -> world * outcome B) : world * outcome B :=
  match m with
  | (st, Done a) => k st a
  | (st, Fatal d) => (st, Fatal d)
  | (st, Trap t) => (st, Trap t)
  | (st, OutOfFuel) => (st, OutOfFuel)
  end.

Variable limit : option nat.
Variable fuel : nat.
Variable merge_status : Z.
Variable unlink_status : Z.

(** The body of [while (capturing)] (lines 418-427). *)
Definition capture (it : iteration) (st : world) : world * outcome unit :=
  let '(res, b) := take_screenshot (shot it) (buffer st) in
  let st := set_buffer b st in
  if res <? 0 then (st, Done tt)
  else
    let vars := snd (sscanf_P6 (buffer st) (locals it)) in
    let chars := to_int (chars vars + 1) in
    pbind
      (match video_stream st with
       | Some _ => (st, Done tt)
       | None =>
           match new_writer limit (pwidth vars) (pheight vars) with
           | Done vs => (set_video_stream (Some vs) st, Done tt)
           | Fatal d => (st, Fatal d)
           | Trap t => (st, Trap t)
           | OutOfFuel => (st, OutOfFuel)
           end
       end)
      (fun st _ =>
    pbind
      (on_stream st (fun vs =>
         vs <-- update_image vs (ptr_add (mkPointer (buffer st) SIZE 0) chars) ;;
         Done (tt, vs)))
      (fun st _ =>
    pbind
      (on_stream st (fun vs => encode_frame vs false))
      (fun st _ => (st, Done tt)))).

Fixpoint capture_loop (its : list iteration) (st : world) : world * outcome unit :=
  match its with
  | [] => (st, Done tt)
  | it :: its' => pbind (capture it st) (fun st _ => capture_loop its' st)
  end.

(** The temporary file as a command run now finds it: there is none until
    the writer's constructor opens it. *)
Definition tmp_file (st : world) : option (list Z) :=
  f_data ∘ outfile <$> video_stream st.

(** Lines 429-446, and the destructor of [video_stream] as [main] returns. *)
Definition finish (st : world) : world * outcome Z :=
  pbind (on_stream st (fun vs => Done (frames_encoded vs, vs)))   (* line 429 *)
    (fun st _ =>
  pbind
    (match video_stream st with                                   (* line 431 *)
     | Some _ =>
         pbind (on_stream st (fun vs => vs <-- flush fuel vs ;; Done (tt, vs)))
           (fun st _ => (log EvFlush st, Done tt))
     | None => (st, Done tt)
     end)
    (fun st _ =>
  let st := log (EvSystem (tmp_file st)) st in                    (* line 439 *)
  if decide (merge_status ≠ 0) then (st, Fatal "Failed to launch mkvmerge")
  else
    let st := log (EvUnlink unlink_status) st in                  (* line 441 *)
    match video_stream st with                          (* line 446, return *)
    | Some vs =>
        match destroy fuel vs with
        | Done f => (mkWorld (buffer st) None (Some f) (trace st), Done 0)
        | Fatal d => (st, Fatal d)
        | Trap t => (st, Trap t)
        | OutOfFuel => (st, OutOfFuel)
        end
    | None => (st, Done 0)
    end)).

Definition main (its : list iteration) : world * outcome Z :=
  let st := mkWorld [] None None [] in
  pbind (capture_loop its st) (fun st _ => finish st).

End Main.

(** ** Sessions: the calls [main] makes on a writer, in sequence *)

Section Sessions.

Context {codec_t : Type} `{!VpxCodec codec_t}.

(** One appended frame: payload and presentation time stamp. *)
Definition frame : Type := list Z * Z.

(** [vpx_video_writer_write_frame] on each frame in turn, as long as it
    returns 1. *)
Definition append (fr : frame) (w : IVFVPX9Writer codec_t)
  : outcome (IVFVPX9Writer codec_t) :=
  let '(ok, w) := vpx_video_writer_write_frame w (fst fr) (snd fr) in
  if ok =? 0 then Fatal "Failed to write compressed frame." else Done w.

Definition append_all (frs : list frame) (w : IVFVPX9Writer codec_t)
  : outcome (IVFVPX9Writer codec_t) :=
  for_each frs append w.

(** [encode_frame(flush)], keeping the writer only. *)
Definition submit (flush : bool) (w : IVFVPX9Writer codec_t)
  : outcome (IVFVPX9Writer codec_t) :=
  r <-- encode_frame w flush ;;
  Done (snd r).

(** A live frame whose conversion left [im] in the writer's image. *)
Definition submit_image (im : vpx_image_t) (w : IVFVPX9Writer codec_t)
  : outcome (IVFVPX9Writer codec_t) :=
  submit false (set_img im w).

(** One submission of a session: a live frame with its image, or a flush. *)
Definition submission_step (o : option vpx_image_t) (w : IVFVPX9Writer codec_t)
  : outcome (IVFVPX9Writer codec_t) :=
  match o with
  | Some im => submit_image im w
  | None => submit true w
  end.

(** What the cadence asks the encoder to be given, from frame index [k]
    on: a live frame carries its index, and the force-keyframe flag when
    the index is a multiple of [KEYFRAME_INTERVAL]; a flush carries -1, no
    image and no flag. *)
Fixpoint cadence (steps : list (option vpx_image_t)) (k : Z) : list submission :=
  match steps with
  | [] => []
  | Some im :: steps' =>
      mkSubmission (Some im) k 1
        (if k mod KEYFRAME_INTERVAL =? 0 then VPX_EFLAG_FORCE_KF else 0)
        VPX_DL_GOOD_QUALITY
      :: cadence steps' (k + 1)
  | None :: steps' =>
      mkSubmission None (-1) 1 0 VPX_DL_GOOD_QUALITY :: cadence steps' k
  end.

(** A whole session on the writer: construction, one live submission per
    captured image, the explicit [flush()] of line 432 and the destructor. *)
Definition session (limit : option nat) (fuel : nat) (width height : Z)
    (images : list vpx_image_t) : outcome FILE :=
  w <-- new_writer limit width height ;;
  w <-- for_each images submit_image w ;;
  w <-- flush fuel w ;;
  destroy fuel w.

(** The screenshot call delivered an image. *)
Definition finished (s : screenshot) : bool :=
  match s with
  | RecvFinished _ => true
  | _ => false
  end.

(** Number of turns of the loop that got an image. *)
Definition captured (its : list iteration) : nat :=
  length (filter (fun it => finished (shot it) = true) its).

(** The frame count a reader finds in the stream header. *)
Definition header_frame_count (data : list Z) : Z :=
  le_value (sub_bytes 24 4 data).

(** Number of frame packets among [pkts]. *)
Definition frame_packets (pkts : list vpx_codec_cx_pkt_t) : nat :=
  length (filter (fun p => kind p = VPX_CODEC_CX_FRAME_PKT) pkts).

(** An encoder with finite lookahead, as the flush protocol expects it:
    no call fails; every image submitted comes out as exactly one frame
    packet, at once or later ([pending] counts the images still inside); a
    flush call that returns packets lowers [pending], and one that returns
    none means nothing is left inside. *)
Record Lookahead (pending : codec_t -> nat) : Prop := mkLookahead {
  la_config : vpx_codec_enc_config_default = 0;
  la_init : forall cfg,
    fst (vpx_codec_enc_init cfg) = 0
    /\ pending (snd (vpx_codec_enc_init cfg)) = 0%nat;
  la_control : forall c v,
    fst (vpx_codec_control_lossless c v) = 0
    /\ pending (snd (vpx_codec_control_lossless c v)) = pending c;
  la_encode_ok : forall c im pts d fl dl,
    fst (vpx_codec_encode_step c im pts d fl dl) = VPX_CODEC_OK;
  la_live : forall c im pts d fl dl,
    let c' := snd (vpx_codec_encode_step c (Some im) pts d fl dl) in
    (frame_packets (vpx_codec_get_cx_data_all c') + pending c'
     = pending c + 1)%nat;
  la_flush : forall c pts d fl dl,
    let c' := snd (vpx_codec_encode_step c None pts d fl dl) in
    (frame_packets (vpx_codec_get_cx_data_all c') + pending c' = pending c)%nat
    /\ (vpx_codec_get_cx_data_all c' <> [] -> (pending c' < pending c)%nat)
    /\ (vpx_codec_get_cx_data_all c' = [] -> pending c = 0%nat)
}.

End Sessions.

(** ** An encoder to run the writer on

    It holds back up to [lag] images before it starts to emit, one frame
    packet per call; the payload of a packet is the time stamp and the flags
    of the submission it comes from. *)

Module LagEncoder.

Record state : Type := mkState {
  lag : nat;
  queue : list (Z * Z);
  out : list vpx_codec_cx_pkt_t
}.

Definition emit (e : Z * Z) : vpx_codec_cx_pkt_t :=
  {| kind := VPX_CODEC_CX_FRAME_PKT;
     frame_buf := le_bytes 2 (fst e) ++ [snd e];
     frame_pts := fst e |}.

Definition pop (c : state) : state :=
  match queue c with
  | e :: q => {| lag := lag c; queue := q; out := [emit e] |}
  | [] => {| lag := lag c; queue := []; out := [] |}
  end.

Definition step (c : state) (img : option vpx_image_t)
    (pts duration flags deadline : Z) : Z * state :=
  match img with
  | Some _ =>
      let c := {| lag := lag c; queue := queue c ++ [(pts, flags)]; out := [] |} in
      if decide (lag c < length (queue c))%nat then (0, pop c) else (0, c)
  | None => (0, pop c)
  end.

Definition init (n : nat) (cfg : vpx_codec_enc_cfg_t) : Z * state :=
  (0, {| lag := n; queue := []; out := [] |}).

Definition codec (n : nat) : VpxCodec state := {|
  vpx_codec_enc_config_default := 0;
  vpx_codec_enc_init := init n;
  vpx_codec_control_lossless := fun c _ => (0, c);
  vpx_codec_encode_step := step;
  vpx_codec_get_cx_data_all := out
|}.

Definition pending (c : state) : nat := length (queue c).

End LagEncoder.

(** ** The container layout, as the format prescribes it

    These two definitions follow the description of the format (a 32-byte
    stream header, then frame records of a 12-byte header and the payload),
    not the code; the code is compared with them below. *)

Definition header_layout (width height frames_written : Z) : list Z :=
  [char_code "D"; char_code "K"; char_code "I"; char_code "F"]  (* 0: magic *)
  ++ le_bytes 2 0                     (* 4: version *)
  ++ le_bytes 2 32                    (* 6: header size *)
  ++ le_bytes 4 VP9_FOURCC            (* 8: codec fourcc *)
  ++ le_bytes 2 width                 (* 12 *)
  ++ le_bytes 2 height                (* 14 *)
  ++ le_bytes 4 FPS_DENOMINATOR       (* 16: rate denominator *)
  ++ le_bytes 4 FPS_NUMERATOR         (* 20: rate numerator *)
  ++ le_bytes 4 frames_written        (* 24: frame count *)
  ++ le_bytes 4 0.                    (* 28: reserved *)

Definition frame_record (fr : frame) : list Z :=
  le_bytes 4 (Z.of_nat (length (fst fr)))   (* payload size *)
  ++ le_bytes 4 (snd fr)                    (* pts, low half *)
  ++ le_bytes 4 (snd fr / 2 ^ 32)           (* pts, high half *)
  ++ fst fr.

(** Bytes the records of [frs] take in the file. *)
Definition records_size (frs : list frame) : nat :=
  sum_list ((fun fr => 12 + length (fst fr))%nat <$> frs).

(** The device lets the file reach [n] bytes. *)
Definition allows (limit : option nat) (n : nat) : Prop :=
  match limit with
  | None => True
  | Some l => (n <= l)%nat
  end.

(** ** Inputs to run the program on *)

(** A 4x2 image, every pixel (255, 0, 0). *)
Definition red_4x2 : list Z := concat (replicate 8 [255; 0; 0]).

(** A capture of that image: the header [P6 4 2 255] and a line feed. *)
Definition header_4x2 : list Z :=
  [80; 54; 10; 52; 32; 50; 10; 50; 53; 53; 10].
Definition capture_4x2 : list Z := header_4x2 ++ red_4x2.

(** The header [P6 4 2 255] with nothing between it and the pixels. *)
Definition capture_no_separator : list Z :=
  [80; 54; 32; 52; 32; 50; 32; 50; 53; 53] ++ red_4x2.

(** The same bytes under the tag [P5], which the format does not match. *)
Definition capture_p5 : list Z :=
  [80; 53; 10; 52; 32; 50; 10; 50; 53; 53; 10] ++ red_4x2.

(** The diagnostics the writer ends the process with. *)
Definition writer_diagnostics : list string :=
  [ "Failed to get default codec config.";
    "Failed to initialize encoder with VP9 codec.";
    "Failed to use lossless mode on VP9 codec.";
    "Failed to encode frame.";
    "Failed to write compressed frame." ]%string.

(** The number a string of decimal digits denotes. *)
Definition decimal (ds : list Z) : Z :=
  foldl (fun acc d => acc * 10 + (d - 48)) 0 ds.

(** Where a run of white space, or of digits, stops. *)
Definition stops (p : Z -> bool) (s : list Z) : Prop :=
  match s with
  | [] => True
  | c :: _ => p c = false
  end.

(** The encoder the runs below use where none is named: lag 2. *)
#[global] Instance lag2 : VpxCodec LagEncoder.state := LagEncoder.codec 2.

(** A writer as the constructor leaves it for a 4x2 stream, on a device
    without limit and the encoder of lag 2. *)
Definition fresh_writer : IVFVPX9Writer LagEncoder.state :=
  mkWriter (mkFILE (header_layout 4 2 0) 32 None) 4 2 0 0
           (mkCtx (LagEncoder.mkState 2 [] []) []) (vpx_img_alloc 4 2).

(** Three frames to append: payloads of 3, 0 and 2 bytes. *)
Definition three_frames : list frame :=
  [([1; 2; 3], 0); ([], 1); ([7; 8], 2 ^ 32 + 2)].

(** A session of 25 live frames and two flushes. *)
Definition steps_25 : list (option vpx_image_t) :=
  replicate 25 (Some (vpx_img_alloc 4 2)) ++ [None; None].

(** The world before the first turn of the loop. *)
Definition initial_world : world (codec_t := LagEncoder.state) :=
  mkWorld [] None None [].

(** What the four local variables of line 421 may happen to hold. *)
Definition stale_locals : scan_vars := mkVars 4 2 255 10.

(** A run of the loop: ten captures of the 4x2 image, two failed
    screenshot calls between them. *)
Definition ten_captures : list iteration :=
  replicate 4 (mkIteration (RecvFinished capture_4x2) stale_locals)
  ++ [mkIteration NoScreenshot stale_locals;
      mkIteration (RecvAborted [80; 54]) stale_locals]
  ++ replicate 6 (mkIteration (RecvFinished capture_4x2) stale_locals).

(** ** Argument processing (lines 300-335)

    [argv] is the list of the arguments, the program name first;
    [argv[argc]] is the null pointer. *)

Local Open Scope string_scope.

Record options : Type := mkOptions {
  domain_name : string;
  output_file : string;
  connection_uri : string;
  DEBUG : bool
}.

Definition connection_option : string := "--connection".
Definition debug_option : string := "--debug".

(** [arg.substr(0, option.size()) == option] *)
Definition has_option (option arg : string) : bool :=
  String.eqb (substring 0 (String.length option) arg) option.

Definition empty (s : string) : bool := String.eqb s EmptyString.

Definition newline : string := String (ascii_of_nat 10) EmptyString.

(** [usage_exit(name)]: [fatal] with the usage text. *)
Definition usage_exit {A : Type} (name : string) : outcome A :=
  Fatal ("Usage: " ++ name
         ++ " <domain> <outfile> [--connect <connection_uri>] [--debug]"
         ++ newline
         ++ "Takes screenshots of a domain and combines them into a WEBM file."
         ++ newline
         ++ "Can only manage about 2 fps and the output is sped up to 5 fps."
         ++ newline).

(** The loop [for (int i = 1; i < argc; ++i)] on the arguments from
    [argv[i]] on; [argv[++i]] after the last argument is the null pointer,
    which cannot be made a [string]. *)
Fixpoint parse_args (name : string) (args : list string) (o : options)
  : outcome options :=
  match args with
  | [] => Done o
  | arg :: rest =>
      if has_option connection_option arg then
        match rest with
        | uri :: rest' =>
            parse_args name rest'
              (mkOptions (domain_name o) (output_file o) uri (DEBUG o))
        | [] => Trap "connection_uri = argv[argc]"
        end
      else if has_option debug_option arg then
        parse_args name rest
          (mkOptions (domain_name o) (output_file o) (connection_uri o) true)
      else if empty (domain_name o) then
        parse_args name rest
          (mkOptions arg (output_file o) (connection_uri o) (DEBUG o))
      else if empty (output_file o) then
        parse_args name rest
          (mkOptions (domain_name o) arg (connection_uri o) (DEBUG o))
      else usage_exit name
  end.

Definition default_options : options :=
  mkOptions EmptyString EmptyString "qemu:///system" false.

(** Lines 300-335.  Without any argument, [argv[0]] included, the loop
    does not run and [usage_exit] is given the null pointer, which the C
    library prints as [(null)]. *)
Definition process_arguments (argv : list string) : outcome options :=
  match argv with
  | [] => usage_exit "(null)"
  | name :: args =>
      o <-- parse_args name args default_options ;;
      if empty (domain_name o) || empty (output_file o) then usage_exit name
      else Done o
  end.

(** Line 337 and lines 434-437. *)
Definition tmp_file_name (o : options) : string :=
  "/tmp/" ++ domain_name o ++ ".webm".

Definition merge_system_str (o : options) : string :=
  "mkvmerge -o " ++ output_file o ++ " -w " ++ tmp_file_name o.

Local Close Scope string_scope.

(** ** The screenshot call (lines 384-409)

    What [virStreamRecv] does at each call is given beforehand: an error, the
    end of the stream, or the bytes it stores at [base]. *)

Inductive recv : Type :=
  | RecvError                    (* res < 0 *)
  | RecvBytes (bytes : list Z).  (* res bytes; none: the end of the stream *)

(** The bytes [bytes] stored from index [base] of the array. *)
Definition store_bytes (buffer : list Z) (base : Z) (bytes : list Z) : list Z :=
  take (Z.to_nat base) buffer ++ bytes
    ++ drop (Z.to_nat base + length bytes) buffer.

(** The loop [while (true)]: [base] is [base - buffer].  A call that
    stores more than the [remaining_size] bytes it was allowed has written
    outside the array. *)
Fixpoint recv_loop (calls : list recv) (buffer : list Z)
    (base remaining_size : Z) : outcome (Z * list Z) :=
  match calls with
  | [] => OutOfFuel
  | RecvError :: _ => Done (-1, buffer)
  | RecvBytes bytes :: calls' =>
      let res := Z.of_nat (length bytes) in
      if res =? 0 then Done (base, buffer)
      else if remaining_size <? res then Trap "virStreamRecv stored past nbytes"
      else
        recv_loop calls' (store_bytes buffer base bytes)
                  (base + res) (to_int (remaining_size - res))
  end.

(** The lambda [take_screenshot]; [mimetype] tells whether
    [virDomainScreenshot] returned one. *)
Definition take_screenshot_calls (mimetype : bool) (calls : list recv)
    (buffer : list Z) : outcome (Z * list Z) :=
  if negb mimetype then Done (-1, buffer)
  else recv_loop calls buffer 0 SIZE.

(** ** The samples of a pixel, as the three loops compute them *)

(** [buffer[o + k]] for the pixel at column [x] of row [y]. *)
Definition channel (buffer : pointer) (width y x k : Z) : Z :=
  default 0 (block buffer !! Z.to_nat (offset buffer + (y * width + x) * 3 + k)).

Definition luma_at (buffer : pointer) (width y x : Z) : Z :=
  let r := channel buffer width y x 0 in
  let g := channel buffer width y x 1 in
  let b := channel buffer width y x 2 in
  clamp (Z.quot (66 * r + 129 * g + 25 * b + 128) 256 + 16).

Definition chroma_u_at (buffer : pointer) (width y x : Z) : Z :=
  let r := channel buffer width y x 0 in
  let g := channel buffer width y x 1 in
  let b := channel buffer width y x 2 in
  clamp (Z.quot (-38 * r - 74 * g + 112 * b + 128) 256 + 128).

Definition chroma_v_at (buffer : pointer) (width y x : Z) : Z :=
  let r := channel buffer width y x 0 in
  let g := channel buffer width y x 1 in
  let b := channel buffer width y x 2 in
  clamp (Z.quot (112 * r - 94 * g - 18 * b + 128) 256 + 128).

(** The samples of the pixels at rows [ys] and columns [xs], row by row. *)
Definition samples (at_ : Z -> Z -> Z) (ys xs : list Z) : list Z :=
  concat ((fun y => at_ y <$> xs) <$> ys).

(** The shape the three loop bodies share: [f] is the formula before
    [clamp]. *)
Definition rgb_sample (f : Z -> Z -> Z -> Z) (width : Z) (buffer : pointer)
    (y x : Z) (s : nat * list Z) : outcome (nat * list Z) :=
  let '(dst_pos, dest) := s in
  let o := to_int ((y * width + x) * 3) in
  r <-- load buffer o ;;
  g <-- load buffer (o + 1) ;;
  b <-- load buffer (o + 2) ;;
  dest <-- store dest dst_pos (clamp (f r g b)) ;;
  Done (S dst_pos, dest).

(** The value a loop body stores for a pixel. *)
Definition stored (f : Z -> Z -> Z -> Z) (p : pointer) (wd y x : Z) : Z :=
  clamp (f (channel p wd y x 0) (channel p wd y x 1) (channel p wd y x 2)).

(** The three bytes of the pixel at column [x] of row [y] lie inside the
    array [buffer] points into, at an offset an [int] holds. *)
Definition readable (buffer : pointer) (width y x : Z) : Prop :=
  0 <= (y * width + x) * 3
  /\ (y * width + x) * 3 + 2 < 2 ^ 31
  /\ 0 <= offset buffer + (y * width + x) * 3
  /\ offset buffer + (y * width + x) * 3 + 2 < block_size buffer.

(** The first [n] bytes of [plane] replaced by [new]. *)
Definition filled (new plane : list Z) : list Z :=
  new ++ drop (length new) plane.

(** What a loop over [n] pixels that stores from position [k] of [dest]
    comes to, when [dest] has room for the [n] samples: it returns, having
    stored them, or it ends at a read outside the buffer. *)
Definition reads_only (n k : nat) (dest : list Z)
    (c : outcome (nat * list Z)) : Prop :=
  match c with
  | Done (k', dest') => k' = (k + n)%nat /\ length dest' = length dest
  | Trap t => t = "read outside the buffer"%string
  | Fatal _ | OutOfFuel => False
  end.

(** ** The constructor where [fopen] or [vpx_img_alloc] fails

    The constructor checks neither the pointer [fopen] returns (line 270)
    nor what [vpx_img_alloc] returns (line 292).  A [platform] says what
    the two calls do.  Where both succeed, [new_writer_on] is [new_writer]
    and [main_on] is [main]. *)

Record platform : Type := mkPlatform {
  fopen_ok : bool;      (* fopen(filename, "w") returns a stream *)
  img_alloc_ok : bool   (* vpx_img_alloc fills the image in *)
}.

Section Platform.

Context {codec_t : Type} `{!VpxCodec codec_t}.

Variable pf : platform.

(** The constructor.  With the null pointer in [outfile],
    [write_file_header] calls [ftell] on it; an image that was not
    allocated is left as [vpx_image_t()], without planes. *)
Definition new_writer_on (limit : option nat) (width height : Z)
  : outcome (IVFVPX9Writer codec_t) :=
  let error := vpx_codec_enc_config_default in
  if decide (error ≠ 0) then Fatal "Failed to get default codec config."
  else
    let cfg := {| g_w := to_uint32 width; g_h := to_uint32 height;
                  g_timebase_num := FPS_NUMERATOR;
                  g_timebase_den := FPS_DENOMINATOR;
                  g_error_resilient := 0 |} in
    let '(res, c) := vpx_codec_enc_init cfg in
    if decide (res ≠ 0) then Fatal "Failed to initialize encoder with VP9 codec."
    else
      let '(res, c) := vpx_codec_control_lossless c 1 in
      if decide (res ≠ 0) then Fatal "Failed to use lossless mode on VP9 codec."
      else if negb (fopen_ok pf) then Trap "outfile is null"
      else
        let w :=
          mkWriter (fopen limit) width height 0 0 (mkCtx c []) (mkImage []) in
        let w := write_file_header w in
        Done (if img_alloc_ok pf then set_img (vpx_img_alloc width height) w
              else w).

Variable limit : option nat.
Variable fuel : nat.
Variable merge_status : Z.
Variable unlink_status : Z.

(** The body of [while (capturing)] (lines 418-427), as [capture] has it. *)
Definition capture_on (it : iteration) (st : world)
  : world (codec_t := codec_t) * outcome unit :=
  let '(res, b) := take_screenshot (shot it) (buffer st) in
  let st := set_buffer b st in
  if res <? 0 then (st, Done tt)
  else
    let vars := snd (sscanf_P6 (buffer st) (locals it)) in
    let chars := to_int (chars vars + 1) in
    pbind
      (match video_stream st with
       | Some _ => (st, Done tt)
       | None =>
           match new_writer_on limit (pwidth vars) (pheight vars) with
           | Done vs => (set_video_stream (Some vs) st, Done tt)
           | Fatal d => (st, Fatal d)
           | Trap t => (st, Trap t)
           | OutOfFuel => (st, OutOfFuel)
           end
       end)
      (fun st _ =>
    pbind
      (on_stream st (fun vs =>
         vs <-- update_image vs (ptr_add (mkPointer (buffer st) SIZE 0) chars) ;;
         Done (tt, vs)))
      (fun st _ =>
    pbind
      (on_stream st (fun vs => encode_frame vs false))
      (fun st _ => (st, Done tt)))).

Fixpoint capture_loop_on (its : list iteration) (st : world)
  : world (codec_t := codec_t) * outcome unit :=
  match its with
  | [] => (st, Done tt)
  | it :: its' => pbind (capture_on it st) (fun st _ => capture_loop_on its' st)
  end.

Definition main_on (its : list iteration) : world * outcome Z :=
  let st := mkWorld [] None None [] in
  pbind (capture_loop_on its st)
        (fun st _ => finish fuel merge_status unlink_status st).

End Platform.

(** Both calls succeed. *)
Definition sound : platform := mkPlatform true true.

(** ** Well-formed captures *)

(** A binary pixmap of [W] by [H] pixels as the screenshot call delivers
    it: the tag [P6], the width, the height and the maximal value in
    decimal, with white space between them, one more character, and then
    the body; the whole fits the buffer, and so do the [3 * W * H] bytes
    after the header. *)
Definition netpbm_capture (W H : Z) (received : list Z) : Prop :=
  exists ws1 dw ws2 dh ws3 dd sep body,
    received
    = [char_code "P"; char_code "6"]
      ++ ws1 ++ dw ++ ws2 ++ dh ++ ws3 ++ dd ++ sep :: body
    /\ Forall (fun c => isspace c = true) (ws1 ++ ws2 ++ ws3)
    /\ Forall (fun c => isdigit c = true) (dw ++ dh ++ dd)
    /\ dw <> [] /\ dh <> [] /\ dd <> [] /\ ws2 <> [] /\ ws3 <> []
    /\ isdigit sep = false
    /\ decimal dw = W /\ decimal dh = H
    /\ Z.of_nat (3 + length (ws1 ++ dw ++ ws2 ++ dh ++ ws3 ++ dd))
       + 3 * W * H <= SIZE
    /\ Z.of_nat (length received) <= SIZE.

(** A turn of the loop whose screenshot, when there is one, is such a
    pixmap. *)
Definition good_turn (W H : Z) (it : iteration) : Prop :=
  match shot it with
  | RecvFinished received => netpbm_capture W H received
  | _ => True
  end.

(** A writer for [W] by [H] pixels whose image has planes of the size
    [vpx_img_alloc] gives them, or more. *)
Definition sized {codec_t : Type} (W H : Z) (w : IVFVPX9Writer codec_t) : Prop :=
  width w = W /\ height w = H
  /\ exists py pu pv,
       planes (img w) = [py; pu; pv]
       /\ W * H <= Z.of_nat (length py)
       /\ ((W + 1) / 2) * ((H + 1) / 2)
          <= Z.of_nat (Nat.min (length pu) (length pv)).

(** ** Reading the frame records back

    The reader's side of the container format, as the format prescribes
    it and not the code (the program has no reader): a record is a payload
    size in 4 bytes, a time stamp in 8, both least significant byte first,
    and the payload. *)

(** A 64-bit pattern as a signed number. *)
Definition to_int64 (x : Z) : Z := (x + 2 ^ 63) mod 2 ^ 64 - 2 ^ 63.

Fixpoint ivf_read_records (fuel : nat) (data : list Z) : list frame :=
  match fuel with
  | O => []
  | S fuel' =>
      if decide (length data < 12)%nat then []
      else
        let size := Z.to_nat (le_value (sub_bytes 0 4 data)) in
        let pts := to_int64 (le_value (sub_bytes 4 8 data)) in
        (sub_bytes 12 size data, pts)
        :: ivf_read_records fuel' (drop (12 + size) data)
  end.

(** ** The packets [encode_frame] forwards *)

(** Payload and time stamp of the frame packets among [pkts], in order. *)
Definition frames_of (pkts : list vpx_codec_cx_pkt_t) : list frame :=
  (fun p => (frame_buf p, frame_pts p))
  <$> filter (fun p => kind p = VPX_CODEC_CX_FRAME_PKT) pkts.

(** ** An encoder that reports statistics and never a frame *)

Module StatsEncoder.

Definition stats : vpx_codec_cx_pkt_t :=
  {| kind := VPX_CODEC_STATS_PKT; frame_buf := [0]; frame_pts := 0 |}.

Definition codec : VpxCodec unit := {|
  vpx_codec_enc_config_default := 0;
  vpx_codec_enc_init := fun _ => (0, tt);
  vpx_codec_control_lossless := fun c _ => (0, c);
  vpx_codec_encode_step := fun c _ _ _ _ _ => (0, c);
  vpx_codec_get_cx_data_all := fun _ => [stats]
|}.

End StatsEncoder.
(** ** More inputs *)

(** The 4x2 red image as a buffer of its 24 bytes, and the same bytes in
    a buffer one byte short. *)
Definition red_buffer : pointer := mkPointer red_4x2 24 0.
Definition short_buffer : pointer := mkPointer red_4x2 23 0.

(** Writers for a 4x2 stream whose file holds the stream header: on an
    encoder without lag, on the encoder of lag 2 holding two frames, and on
    the encoder that only reports statistics. *)
Definition prompt_writer : IVFVPX9Writer LagEncoder.state :=
  mkWriter (mkFILE (header_layout 4 2 0) 32 None) 4 2 0 0
           (mkCtx (LagEncoder.mkState 0 [] []) []) (vpx_img_alloc 4 2).

Definition holding_writer : IVFVPX9Writer LagEncoder.state :=
  mkWriter (mkFILE (header_layout 4 2 0) 32 None) 4 2 0 2
           (mkCtx (LagEncoder.mkState 2 [(0, 1); (1, 0)] []) [])
           (vpx_img_alloc 4 2).

Definition stats_writer : IVFVPX9Writer unit :=
  mkWriter (mkFILE (header_layout 4 2 0) 32 None) 4 2 0 0
           (mkCtx tt []) (vpx_img_alloc 4 2).

(** A screenshot that arrives in two chunks. *)
Definition two_chunks : list (list Z) := [[80; 54; 10]; [52; 32; 50]].

(** Command lines. *)
Definition plain_options : options :=
  mkOptions "vm" "out.webm" "qemu:///system" false.

(** A capture whose header announces 4096 by 2160 pixels. *)
Definition uhd_capture : list Z :=
  ([char_code "P"; char_code "6"] ++ [32] ++ [52; 48; 57; 54] ++ [32]
   ++ [50; 49; 54; 48] ++ [32] ++ [50; 53; 53]) ++ 10 :: [].

(** ** Notions the proofs use *)

(** The bytes [fwrite] gets to write of a request. *)
Definition accepted (ptr : list Z) (nmemb : nat) (stream : FILE) : list Z :=
  take (room stream nmemb) ptr.

(** [post may_fail Q c]: the run [c] does not trap and does not run out of
    fuel; if it returns, [Q] holds of the result; it ends in [fatal] only
    where [may_fail] holds. *)
Definition post {A : Type} (may_fail : Prop) (Q : A -> Prop) (c : outcome A)
  : Prop :=
  match c with
  | Done a => Q a
  | Fatal _ => may_fail
  | Trap _ => False
  | OutOfFuel => False
  end.

(** The position is past the stream header, inside the file. *)
Definition past_header (f : FILE) : Prop :=
  (32 <= f_pos f <= length (f_data f))%nat.

Section Invariants.

Context {codec_t : Type}.

Implicit Types w : IVFVPX9Writer codec_t.

(** What holds of a writer between the calls [main] makes: the stream
    header is in place, the position is at the end of the file, past the
    header. *)
Record framed w : Prop := mkFramed {
  fr_end : f_pos (outfile w) = length (f_data (outfile w));
  fr_header : (32 <= length (f_data (outfile w)))%nat
}.

(** The submission [encode_frame] makes. *)
Definition encode_args w (flush : bool) : submission :=
  let frame_index := if negb flush then frames_encoded w else -1 in
  {| sub_img := if negb flush then Some (img w) else None;
     sub_pts := frame_index;
     sub_duration := 1;
     sub_flags :=
       if Z.rem frame_index KEYFRAME_INTERVAL =? 0 then VPX_EFLAG_FORCE_KF else 0;
     sub_deadline := VPX_DL_GOOD_QUALITY |}.

(** What the loop over the packets leaves. *)
Definition packets_taken (pkts : list vpx_codec_cx_pkt_t) (g : Z) w
    (s : Z * IVFVPX9Writer codec_t) : Prop :=
  codec (snd s) = codec w
  /\ frames_encoded (snd s) = frames_encoded w
  /\ img (snd s) = img w
  /\ width (snd s) = width w
  /\ height (snd s) = height w
  /\ f_limit (outfile (snd s)) = f_limit (outfile w)
  /\ fst s = (if decide (pkts = []) then g else 1)
  /\ (past_header (outfile w) ->
      past_header (outfile (snd s))
      /\ take 32 (f_data (outfile (snd s))) = take 32 (f_data (outfile w)))
  /\ (0 <= frames_written w ->
      frames_written w + Z.of_nat (frame_packets pkts) < 2 ^ 31 ->
      frames_written (snd s) = frames_written w + Z.of_nat (frame_packets pkts)).

(** The live submissions among [subs]. *)
Definition live (subs : list submission) : list submission :=
  filter (fun s => is_Some (sub_img s)) subs.

(** Frames still inside the encoder of a writer. *)
Definition inside (pending : codec_t -> nat) w : nat :=
  pending (priv (codec w)).

(** Between two calls: every image submitted is either written or still
    inside the encoder, the position is past the header, and the device
    has room for the header. *)
Record balanced (pending : codec_t -> nat) w : Prop := mkBalanced {
  bal_count :
    frames_written w + Z.of_nat (inside pending w) = frames_encoded w;
  bal_written : 0 <= frames_written w;
  bal_past : past_header (outfile w);
  bal_room : allows (f_limit (outfile w)) 32
}.

(** What a call keeps: the dimensions, the device, the header on disk. *)
Definition keeps w w' : Prop :=
  width w' = width w /\ height w' = height w
  /\ f_limit (outfile w') = f_limit (outfile w)
  /\ take 32 (f_data (outfile w')) = take 32 (f_data (outfile w)).

(** The loop of [main] after [n] images: no writer yet and [n = 0], or a
    balanced writer on the device that has taken [n] images. *)
Definition running (pending : codec_t -> nat) (limit : option nat) (n : Z)
    (st : world (codec_t := codec_t)) : Prop :=
  closed st = None
  /\ match video_stream st with
     | None => n = 0
     | Some vs =>
         balanced pending vs /\ frames_encoded vs = n
         /\ f_limit (outfile vs) = limit
     end.

End Invariants.
(** ** Basic facts on the encodings *)

Section Endian.

Lemma byte_of_shift (val : Z) (k : Z) :
  0 <= k -> to_uint8 (Z.land (Z.shiftr val k) 255) = (val / 2 ^ k) mod 256.
Proof.
  intros Hk. unfold to_uint8.
  change 255 with (Z.ones 8).
  rewrite Z.land_ones by lia.
  rewrite Z.shiftr_div_pow2 by lia.
  change (2 ^ 8) with 256.
  apply Z.mod_mod. lia.
Qed.

Lemma le_bytes_length (k : nat) (v : Z) : length (le_bytes k v) = k.
Proof. revert v. induction k as [|k IH]; intros v; simpl; [done|]. by rewrite IH. Qed.

Lemma le_bytes_byte (k : nat) (v : Z) (b : Z) :
  b ∈ le_bytes k v -> 0 <= b < 256.
Proof.
  revert v. induction k as [|k IH]; intros v; simpl.
  - intros H. inversion H.
  - intros H. apply elem_of_cons in H as [->|H].
    + apply Z.mod_pos_bound. lia.
    + by eapply IH.
Qed.

Lemma le_value_le_bytes (k : nat) (v : Z) :
  le_value (le_bytes k v) = v mod 256 ^ Z.of_nat k.
Proof.
  revert v. induction k as [|k IH]; intros v.
  - simpl. by rewrite Z.mod_1_r.
  - cbn [le_bytes le_value]. rewrite IH.
    rewrite Nat2Z.inj_succ, Z.pow_succ_r by lia.
    rewrite Z.rem_mul_r by lia. lia.
Qed.

Lemma le_bytes_mod (k : nat) (v : Z) :
  le_bytes k (v mod 256 ^ Z.of_nat k) = le_bytes k v.
Proof.
  revert v. induction k as [|k IH]; intros v; [done|].
  cbn [le_bytes].
  rewrite Nat2Z.inj_succ, Z.pow_succ_r by lia.
  assert (Hp : 0 < 256 ^ Z.of_nat k) by (apply Z.pow_pos_nonneg; lia).
  f_equal.
  - rewrite Z.mod_mod_divide; [done|].
    exists (256 ^ Z.of_nat k). lia.
  - rewrite <- (IH (v / 256)). f_equal.
    rewrite Z.rem_mul_r by lia.
    rewrite (Z.mul_comm 256 ((v / 256) mod 256 ^ Z.of_nat k)).
    rewrite Z.div_add by lia.
    rewrite (Z.div_small (v mod 256) 256) by (apply Z.mod_pos_bound; lia).
    lia.
Qed.

(** Splitting an array at the offset a store routine is given. *)
Lemma split_at (vmem : list Z) (off n : nat) :
  (off + n <= length vmem)%nat ->
  exists pre mid post,
    vmem = pre ++ mid ++ post /\ length pre = off /\ length mid = n
    /\ pre = take off vmem /\ post = drop (off + n) vmem.
Proof.
  intros Hlen.
  exists (take off vmem), (take n (drop off vmem)), (drop (off + n) vmem).
  repeat split.
  - rewrite <- drop_drop. by rewrite !take_drop.
  - rewrite length_take. lia.
  - rewrite length_take, length_drop. lia.
Qed.

(** The 16-bit store writes the reference encoding of [val]. *)
Lemma mem_put_le16_spec (vmem : list Z) (off : nat) (val : Z) :
  (off + 2 <= length vmem)%nat ->
  mem_put_le16 vmem off val
  = take off vmem ++ le_bytes 2 val ++ drop (off + 2) vmem.
Proof.
  intros Hlen.
  destruct (split_at vmem off 2 Hlen)
    as (pre & mid & post & Hv & Hpre & Hmid & <- & <-).
  destruct mid as [|a [|b [|c mid]]]; try discriminate.
  unfold mem_put_le16. rewrite !byte_of_shift by lia.
  rewrite Hv. subst off.
  rewrite !insert_app_r_alt by lia.
  rewrite Nat.sub_diag, (Nat.add_comm (length pre)), Nat.add_sub.
  cbn [le_bytes]. change (2 ^ 0) with 1. change (2 ^ 8) with 256.
  by rewrite Z.div_1_r.
Qed.

(** The 32-bit store writes the reference encoding of [val]. *)
Lemma mem_put_le32_spec (vmem : list Z) (off : nat) (val : Z) :
  (off + 4 <= length vmem)%nat ->
  mem_put_le32 vmem off val
  = take off vmem ++ le_bytes 4 val ++ drop (off + 4) vmem.
Proof.
  intros Hlen.
  destruct (split_at vmem off 4 Hlen)
    as (pre & mid & post & Hv & Hpre & Hmid & <- & <-).
  destruct mid as [|a [|b [|c [|d [|e mid]]]]]; try discriminate.
  unfold mem_put_le32. rewrite !byte_of_shift by lia.
  rewrite Hv. subst off.
  rewrite !insert_app_r_alt by lia.
  rewrite Nat.sub_diag, !(Nat.add_comm (length pre)), !Nat.add_sub.
  cbn [le_bytes]. change (2 ^ 0) with 1. rewrite Z.div_1_r.
  rewrite !Z.div_div by lia.
  reflexivity.
Qed.

End Endian.


(** ** The stream *)

Section Stream.

Lemma store_at_inside (pos : nat) (src data : list Z) :
  (pos <= length data)%nat ->
  store_at pos src data = take pos data ++ src ++ drop (pos + length src) data.
Proof.
  intros Hpos. unfold store_at.
  by replace (pos - length data)%nat with 0%nat by lia.
Qed.

Lemma fwrite_inside (ptr : list Z) (nmemb : nat) (stream : FILE) :
  (f_pos stream <= length (f_data stream))%nat ->
  let src := accepted ptr nmemb stream in
  fwrite ptr nmemb stream
  = (length src,
     {| f_data := take (f_pos stream) (f_data stream) ++ src
                    ++ drop (f_pos stream + length src) (f_data stream);
        f_pos := f_pos stream + length src;
        f_limit := f_limit stream |}).
Proof.
  intros Hpos. cbv zeta. unfold fwrite. fold (accepted ptr nmemb stream).
  destruct (accepted ptr nmemb stream) as [|b l].
  - cbn [length]. rewrite Nat.add_0_r, app_nil_l, take_drop.
    by destruct stream.
  - by rewrite store_at_inside.
Qed.

Lemma accepted_all (ptr : list Z) (nmemb : nat) (stream : FILE) :
  fits stream nmemb -> accepted ptr nmemb stream = take nmemb ptr.
Proof.
  unfold fits, accepted, room. destruct (f_limit stream) as [l|]; [|done].
  intros H. f_equal. lia.
Qed.

Lemma accepted_length (ptr : list Z) (nmemb : nat) (stream : FILE) :
  (length (accepted ptr nmemb stream) <= nmemb)%nat.
Proof.
  unfold accepted, room. rewrite length_take.
  destruct (f_limit stream); lia.
Qed.

Lemma accepted_prefix (ptr : list Z) (nmemb : nat) (stream : FILE) :
  accepted ptr nmemb stream = take (length (accepted ptr nmemb stream)) ptr.
Proof.
  unfold accepted. rewrite length_take.
  destruct (decide (room stream nmemb <= length ptr)%nat).
  - f_equal. lia.
  - rewrite !take_ge by lia. done.
Qed.

(** A whole request written at the end of the file. *)
Lemma fwrite_at_end (ptr : list Z) (stream : FILE) :
  f_pos stream = length (f_data stream) ->
  fits stream (length ptr) ->
  fwrite ptr (length ptr) stream
  = (length ptr,
     {| f_data := f_data stream ++ ptr;
        f_pos := length (f_data stream ++ ptr);
        f_limit := f_limit stream |}).
Proof.
  intros Hend Hfit. rewrite fwrite_inside by lia.
  rewrite accepted_all by done.
  rewrite Hend, (take_ge ptr), take_ge, drop_ge, app_nil_r, length_app by lia.
  done.
Qed.

End Stream.

(** ** The two headers *)

Ltac list_of_length H :=
  repeat match type of H with
  | length ?l = S _ =>
      let x := fresh "b" in
      destruct l as [|x l]; [discriminate H|];
      cbn [length] in H; apply Nat.succ_inj in H
  | length ?l = O => destruct l; [clear H|discriminate H]
  end.

Section Headers.

Lemma le_bytes_to_int (k : nat) (v : Z) :
  (k <= 4)%nat -> le_bytes k (to_int v) = le_bytes k v.
Proof.
  intros Hk. rewrite <- (le_bytes_mod k (to_int v)), <- (le_bytes_mod k v).
  f_equal. unfold to_int.
  assert (Hd : (256 ^ Z.of_nat k | 2 ^ 32)).
  { exists (256 ^ Z.of_nat (4 - k)).
    change (2 ^ 32) with (256 ^ Z.of_nat 4).
    rewrite <- Z.pow_add_r by lia. f_equal. lia. }
  assert (Hp : 0 < 256 ^ Z.of_nat k) by (apply Z.pow_pos_nonneg; lia).
  rewrite <- (Z.mod_mod_divide ((v + 2 ^ 31) mod 2 ^ 32 - 2 ^ 31) _ _ Hd).
  rewrite <- (Z.mod_mod_divide v _ _ Hd).
  f_equal.
  rewrite Zminus_mod_idemp_l. f_equal. lia.
Qed.

Lemma le_bytes_to_uint32 (k : nat) (v : Z) :
  (k <= 4)%nat -> le_bytes k (to_uint32 v) = le_bytes k v.
Proof.
  intros Hk. rewrite <- (le_bytes_mod k (to_uint32 v)), <- (le_bytes_mod k v).
  f_equal. unfold to_uint32.
  apply Z.mod_mod_divide.
  exists (256 ^ Z.of_nat (4 - k)).
  change (2 ^ 32) with (256 ^ Z.of_nat 4).
  rewrite <- Z.pow_add_r by lia. f_equal. lia.
Qed.

(** Whatever the array holds on entry, [write_file_header] fills all 32
    bytes, with the prescribed layout. *)
Lemma file_header_any (header : list Z) (w h n : Z) :
  length header = 32%nat -> file_header header w h n = header_layout w h n.
Proof.
  intros H. list_of_length H.
  unfold file_header, mem_put_le16, mem_put_le32.
  rewrite !byte_of_shift by lia.
  cbn [insert list_insert Nat.add].
  unfold header_layout. cbn [le_bytes app].
  change (2 ^ 0) with 1. rewrite !Z.div_1_r. rewrite !Z.div_div by lia.
  reflexivity.
Qed.

Lemma header_layout_length (w h n : Z) : length (header_layout w h n) = 32%nat.
Proof. reflexivity. Qed.

(** Only bytes 24 to 27 of the header depend on the frame count. *)
Lemma header_layout_frames (w h n : Z) :
  header_layout w h n
  = take 24 (header_layout w h 0) ++ le_bytes 4 n ++ le_bytes 4 0.
Proof. reflexivity. Qed.

Lemma header_layout_other (w h n m : Z) (i : nat) :
  ~ (24 <= i < 28)%nat -> header_layout w h n !! i = header_layout w h m !! i.
Proof.
  intros Hi. rewrite (header_layout_frames w h n), (header_layout_frames w h m).
  assert (Hl : length (take 24 (header_layout w h 0)) = 24%nat) by reflexivity.
  destruct (decide (i < 24)%nat).
  - by rewrite !lookup_app_l by lia.
  - rewrite (lookup_app_r _ (le_bytes 4 n ++ _)) by lia.
    rewrite (lookup_app_r _ (le_bytes 4 m ++ _)) by lia.
    rewrite Hl.
    rewrite !lookup_app_r by (rewrite le_bytes_length; lia).
    by rewrite !le_bytes_length.
Qed.

Lemma header_layout_count (w h n : Z) :
  header_frame_count (header_layout w h n) = n mod 2 ^ 32.
Proof.
  unfold header_frame_count.
  replace (sub_bytes 24 4 (header_layout w h n)) with (le_bytes 4 n) by reflexivity.
  by rewrite le_value_le_bytes.
Qed.

(** Whatever the array holds on entry, [write_ivf_frame_header] fills all
    12 bytes: size, low and high half of the time stamp. *)
Lemma frame_header_stores (header : list Z) (pts frame_size : Z) :
  length header = 12%nat ->
  frame_header header pts frame_size
  = le_bytes 4 (to_int frame_size)
    ++ le_bytes 4 (to_int (Z.land pts 0xFFFFFFFF))
    ++ le_bytes 4 (to_int (Z.shiftr pts 32)).
Proof.
  intros H. list_of_length H.
  unfold frame_header, mem_put_le32.
  rewrite !byte_of_shift by lia.
  cbn [insert list_insert Nat.add le_bytes app].
  change (2 ^ 0) with 1. rewrite !Z.div_1_r. rewrite !Z.div_div by lia.
  reflexivity.
Qed.

Lemma frame_header_any (header : list Z) (pts : Z) (size : nat) :
  length header = 12%nat ->
  frame_header header pts (to_uint32 (Z.of_nat size))
  = le_bytes 4 (Z.of_nat size) ++ le_bytes 4 pts ++ le_bytes 4 (pts / 2 ^ 32).
Proof.
  intros H. rewrite frame_header_stores by done.
  rewrite !le_bytes_to_int, le_bytes_to_uint32 by lia.
  change 0xFFFFFFFF with (Z.ones 32). rewrite Z.land_ones by lia.
  rewrite Z.shiftr_div_pow2 by lia.
  by rewrite (le_bytes_mod 4 pts : le_bytes 4 (pts mod 2 ^ 32) = _).
Qed.

End Headers.

(** ** The container framer *)

Section Container.

Context {codec_t : Type} `{!VpxCodec codec_t}.

Implicit Types w : IVFVPX9Writer codec_t.

(** The stream after [write_file_header]: the header bytes the device
    accepts replace the start of the file. *)
Lemma write_file_header_outfile w :
  let hdr := header_layout (width w) (height w) (frames_written w) in
  let src := accepted hdr 32 (rewind (outfile w)) in
  outfile (write_file_header w)
  = {| f_data := src ++ drop (length src) (f_data (outfile w));
       f_pos := if 32 <=? ftell (outfile w) then f_pos (outfile w) else length src;
       f_limit := f_limit (outfile w) |}.
Proof.
  cbv zeta. unfold write_file_header.
  rewrite file_header_any by reflexivity.
  cbn [outfile set_outfile].
  rewrite fwrite_inside by (cbn; lia).
  cbn [snd rewind f_pos f_data f_limit take Nat.add app].
  destruct (32 <=? ftell (outfile w)) eqn:E; [|done].
  unfold fseek, ftell. cbn [f_data f_limit]. by rewrite Nat2Z.id.
Qed.

Lemma write_file_header_fields w :
  width (write_file_header w) = width w
  /\ height (write_file_header w) = height w
  /\ frames_written (write_file_header w) = frames_written w
  /\ frames_encoded (write_file_header w) = frames_encoded w
  /\ codec (write_file_header w) = codec w
  /\ img (write_file_header w) = img w.
Proof. done. Qed.

(** With room for the header, all 32 bytes are written. *)
Lemma write_file_header_fits w :
  allows (f_limit (outfile w)) 32 ->
  outfile (write_file_header w)
  = {| f_data := header_layout (width w) (height w) (frames_written w)
                   ++ drop 32 (f_data (outfile w));
       f_pos := Nat.max 32 (f_pos (outfile w));
       f_limit := f_limit (outfile w) |}.
Proof.
  intros Hfit. rewrite write_file_header_outfile. cbv zeta.
  rewrite accepted_all.
  2:{ unfold fits, allows in *. cbn. destruct (f_limit (outfile w)); [lia|done]. }
  rewrite take_ge by (rewrite header_layout_length; lia).
  rewrite header_layout_length. f_equal.
  unfold ftell. destruct (32 <=? Z.of_nat (f_pos (outfile w))) eqn:E; lia.
Qed.

(** An append at the end of the file, with room for the record. *)
Lemma write_frame_at_end w (buf : list Z) (pts : Z) :
  f_pos (outfile w) = length (f_data (outfile w)) ->
  fits (outfile w) (12 + length buf) ->
  vpx_video_writer_write_frame w buf pts
  = (1, mkWriter
          {| f_data := f_data (outfile w) ++ frame_record (buf, pts);
             f_pos := length (f_data (outfile w) ++ frame_record (buf, pts));
             f_limit := f_limit (outfile w) |}
          (width w) (height w) (to_int (frames_written w + 1))
          (frames_encoded w) (codec w) (img w)).
Proof.
  intros Hend Hfit.
  unfold vpx_video_writer_write_frame, write_ivf_frame_header.
  rewrite frame_header_any by reflexivity.
  set (hdr := le_bytes 4 (Z.of_nat (length buf)) ++ le_bytes 4 pts
              ++ le_bytes 4 (pts / 2 ^ 32)).
  assert (Hhdr : length hdr = 12%nat) by reflexivity.
  assert (Hfit1 : fits (outfile w) (length hdr))
    by (unfold fits in *; destruct (f_limit (outfile w)); [lia|done]).
  pose proof (fwrite_at_end hdr (outfile w) Hend Hfit1) as H1.
  rewrite Hhdr in H1. rewrite H1. cbn [snd].
  rewrite fwrite_at_end;
    [ | reflexivity
      | unfold fits in *; cbn [f_pos f_data f_limit];
        rewrite length_app, Hhdr; destruct (f_limit (outfile w)); [lia|done] ].
  destruct (decide (length buf ≠ length buf)) as [Hne|_]; [done|].
  unfold frame_record. cbn [fst snd f_data f_limit]. fold hdr.
  unfold set_frames_written, set_outfile. cbn.
  by rewrite <- !app_assoc.
Qed.

Lemma framed_write_file_header w :
  allows (f_limit (outfile w)) 32 -> framed w -> framed (write_file_header w).
Proof.
  intros Hfit [He Hh].
  split; rewrite write_file_header_fits by done; cbn [f_pos f_data].
  - rewrite length_app, header_layout_length, length_drop. lia.
  - rewrite length_app, header_layout_length. lia.
Qed.

Lemma write_file_header_data w :
  allows (f_limit (outfile w)) 32 -> framed w ->
  f_data (outfile (write_file_header w))
  = header_layout (width w) (height w) (frames_written w)
    ++ drop 32 (f_data (outfile w))
  /\ f_pos (outfile (write_file_header w)) = f_pos (outfile w)
  /\ f_limit (outfile (write_file_header w)) = f_limit (outfile w).
Proof.
  intros Hfit [He Hh]. rewrite write_file_header_fits by done.
  cbn [f_pos f_data f_limit]. repeat split. lia.
Qed.

(** The constructor, when it returns. *)
Lemma new_writer_done (limit : option nat) (width0 height0 : Z) w :
  new_writer limit width0 height0 = Done w ->
  outfile w = snd (fwrite (header_layout width0 height0 0) 32 (fopen limit))
  /\ width w = width0 /\ height w = height0
  /\ frames_written w = 0 /\ frames_encoded w = 0
  /\ submitted (codec w) = []
  /\ img w = vpx_img_alloc width0 height0.
Proof.
  unfold new_writer.
  destruct (decide (vpx_codec_enc_config_default ≠ 0)); [done|].
  destruct (vpx_codec_enc_init _) as [res c].
  destruct (decide (res ≠ 0)); [done|].
  destruct (vpx_codec_control_lossless c 1) as [res' c'].
  destruct (decide (res' ≠ 0)); [done|].
  intros [= <-]. repeat split.
  cbn [outfile set_img]. unfold write_file_header.
  by rewrite file_header_any by reflexivity.
Qed.

Lemma new_writer_framed (limit : option nat) (width0 height0 : Z) w :
  allows limit 32 ->
  new_writer limit width0 height0 = Done w ->
  framed w
  /\ f_data (outfile w) = header_layout width0 height0 0
  /\ f_limit (outfile w) = limit.
Proof.
  intros Hfit Hw. apply new_writer_done in Hw as (Hf & _).
  rewrite fwrite_inside in Hf by (cbn; lia).
  rewrite accepted_all in Hf
    by (unfold fits, allows in *; cbn; destruct limit; [lia|done]).
  rewrite take_ge in Hf by (rewrite header_layout_length; lia).
  cbn [snd fopen f_pos f_data f_limit take drop app] in Hf.
  rewrite app_nil_r in Hf.
  repeat split; rewrite Hf; cbn [f_pos f_data f_limit];
    rewrite ?header_layout_length; (done || lia).
Qed.

End Container.

Section Framing.

Context {codec_t : Type} `{!VpxCodec codec_t}.

Implicit Types w : IVFVPX9Writer codec_t.

Lemma sub_bytes_app_l (off n : nat) (l1 l2 : list Z) :
  (off + n <= length l1)%nat ->
  sub_bytes off n (l1 ++ l2) = sub_bytes off n l1.
Proof.
  intros H. unfold sub_bytes.
  rewrite drop_app_le by lia.
  rewrite take_app_le by (rewrite length_drop; lia). done.
Qed.

Lemma le_bytes_lookup (k : nat) (v : Z) (i : nat) :
  (i < k)%nat -> le_bytes k v !! i = Some ((v / 256 ^ Z.of_nat i) mod 256).
Proof.
  revert v i. induction k as [|k IH]; intros v i Hi; [lia|].
  destruct i as [|i]; cbn [le_bytes lookup list_lookup].
  - by rewrite Z.div_1_r.
  - change (le_bytes k (v / 256) !! i
            = Some ((v / 256 ^ Z.of_nat (S i)) mod 256)).
    rewrite IH by lia.
    rewrite Nat2Z.inj_succ, Z.pow_succ_r, Z.div_div by lia. done.
Qed.

(** C2. For every width, height and frame count, the stream header
    [write_file_header] writes is exactly 32 bytes: the magic tag at
    offset 0, then version 0 (16 bits), header size 32 (16 bits), the codec
    fourcc (32 bits), width and height (16 bits each), rate denominator,
    rate numerator, frame count and a reserved 0 (32 bits each), every
    field least significant byte first.  The array is filled the same way
    whatever it held before, and the bytes go to the start of the file. *)
Theorem stream_header_layout w :
  allows (f_limit (outfile w)) 32 ->
  let data := f_data (outfile (write_file_header w)) in
  (forall header, length header = 32%nat ->
     file_header header (width w) (height w) (frames_written w) = take 32 data)
  /\ length (take 32 data) = 32%nat
  /\ sub_bytes 0 4 data
     = [char_code "D"; char_code "K"; char_code "I"; char_code "F"]
  /\ sub_bytes 4 2 data = le_bytes 2 0
  /\ sub_bytes 6 2 data = le_bytes 2 32
  /\ sub_bytes 8 4 data = le_bytes 4 VP9_FOURCC
  /\ sub_bytes 12 2 data = le_bytes 2 (width w)
  /\ sub_bytes 14 2 data = le_bytes 2 (height w)
  /\ sub_bytes 16 4 data = le_bytes 4 FPS_DENOMINATOR
  /\ sub_bytes 20 4 data = le_bytes 4 FPS_NUMERATOR
  /\ sub_bytes 24 4 data = le_bytes 4 (frames_written w)
  /\ sub_bytes 28 4 data = le_bytes 4 0
  /\ (forall (k : nat) (v : Z) (i : nat), (i < k)%nat ->
        le_bytes k v !! i = Some ((v / 256 ^ Z.of_nat i) mod 256)).
Proof.
  intros Hfit data. subst data.
  rewrite write_file_header_fits by done. cbn [f_data].
  set (hl := header_layout (width w) (height w) (frames_written w)).
  assert (Hl : length hl = 32%nat) by reflexivity.
  assert (Ht : take 32 (hl ++ drop 32 (f_data (outfile w))) = hl).
  { rewrite take_app_le by lia. by rewrite take_ge by lia. }
  rewrite Ht.
  split; [intros header Hh; by apply file_header_any|].
  split; [done|].
  rewrite !sub_bytes_app_l by lia.
  repeat split. apply le_bytes_lookup.
Qed.

(** C9. Rewriting the stream header of a file that already has one for
    the same width and height changes no byte other than the four of the
    frame count (offsets 24 to 27): the rest of the header and every byte
    from offset 32 on, the frame records, stay as they were, the file keeps
    its length, and a file position at or past byte 32 is restored. *)
Theorem header_rewrite_frame w (old_count : Z) :
  take 32 (f_data (outfile w)) = header_layout (width w) (height w) old_count ->
  let w' := write_file_header w in
  (forall i : nat, ~ (24 <= i < 28)%nat ->
     f_data (outfile w') !! i = f_data (outfile w) !! i)
  /\ drop 32 (f_data (outfile w')) = drop 32 (f_data (outfile w))
  /\ length (f_data (outfile w')) = length (f_data (outfile w))
  /\ ((32 <= f_pos (outfile w))%nat -> f_pos (outfile w') = f_pos (outfile w)).
Proof.
  intros Hold w'. subst w'.
  rewrite write_file_header_outfile. cbv zeta. cbn [f_data f_pos].
  set (hl := header_layout (width w) (height w) (frames_written w)).
  set (src := accepted hl 32 (rewind (outfile w))).
  assert (Hl : length hl = 32%nat) by reflexivity.
  assert (Hn : (length src <= 32)%nat) by apply accepted_length.
  assert (Hsrc : src = take (length src) hl) by apply accepted_prefix.
  assert (Hlen : (32 <= length (f_data (outfile w)))%nat).
  { apply (f_equal length) in Hold.
    rewrite length_take, header_layout_length in Hold. lia. }
  repeat split.
  - intros i Hi. destruct (decide (i < length src)%nat) as [Hlt|Hge].
    + rewrite lookup_app_l by done.
      rewrite Hsrc, lookup_take_lt by lia.
      unfold hl. rewrite (header_layout_other _ _ _ old_count) by done.
      rewrite <- Hold. by rewrite lookup_take_lt by lia.
    + rewrite lookup_app_r by lia. rewrite lookup_drop. f_equal. lia.
  - rewrite drop_app_ge by lia. rewrite drop_drop. f_equal. lia.
  - rewrite length_app, length_drop. lia.
  - intros Hpos. unfold ftell.
    destruct (32 <=? Z.of_nat (f_pos (outfile w))) eqn:E; [done|lia].
Qed.

(** C1, as the code has it.  An append at the end of the file, with room
    on the device, returns 1, writes the 12-byte record header (payload
    size, low and high half of the time stamp, 32 bits each, least
    significant byte first) and then the payload, leaves the position at
    the end of the file and adds one to the frame count in memory.  It
    does not touch the stream header: the first 32 bytes of the file are
    as before, and it is the next [write_file_header] (in [flush]) that
    brings the count on disk up to the count in memory. *)
Theorem append_writes_record w (buf : list Z) (pts : Z) :
  framed w ->
  fits (outfile w) (12 + length buf) ->
  let r := vpx_video_writer_write_frame w buf pts in
  fst r = 1
  /\ f_data (outfile (snd r))
     = f_data (outfile w)
       ++ (le_bytes 4 (Z.of_nat (length buf)) ++ le_bytes 4 pts
           ++ le_bytes 4 (pts / 2 ^ 32)) ++ buf
  /\ f_pos (outfile (snd r)) = length (f_data (outfile (snd r)))
  /\ frames_written (snd r) = to_int (frames_written w + 1)
  /\ (0 <= frames_written w < INT_MAX ->
      frames_written (snd r) = frames_written w + 1)
  /\ take 32 (f_data (outfile (snd r))) = take 32 (f_data (outfile w))
  /\ (allows (f_limit (outfile w)) 32 ->
      header_frame_count (f_data (outfile (write_file_header (snd r))))
      = to_uint32 (frames_written (snd r))).
Proof.
  intros [Hend Hhdr] Hfit r. subst r.
  rewrite write_frame_at_end by done.
  cbn [fst snd outfile f_data f_pos frames_written].
  unfold frame_record. cbn [fst snd].
  rewrite <- !app_assoc.
  repeat split.
  - intros Hr. unfold to_int, INT_MAX in *.
    rewrite Z.mod_small by lia. lia.
  - by rewrite take_app_le by lia.
  - intros Ha. rewrite write_file_header_fits by done.
    cbn [f_data outfile width height frames_written].
    unfold header_frame_count. rewrite sub_bytes_app_l by (cbn; lia).
    apply (header_layout_count (width w) (height w)
             (to_int (frames_written w + 1))).
Qed.

End Framing.

(** ** Appending a sequence of frames *)

Section RoundTrip.

Context {codec_t : Type} `{!VpxCodec codec_t}.

Implicit Types w : IVFVPX9Writer codec_t.

Lemma records_size_cons (fr : frame) (frs : list frame) :
  records_size (fr :: frs) = (12 + length (fst fr) + records_size frs)%nat.
Proof. reflexivity. Qed.

Lemma frame_record_length (fr : frame) :
  length (frame_record fr) = (12 + length (fst fr))%nat.
Proof. unfold frame_record. by rewrite !length_app, !le_bytes_length. Qed.

(** With room for all the records, every append returns 1; the records
    follow what the file held, in order, and the count goes up by one per
    frame. *)
Lemma append_all_framed (frs : list frame) w :
  framed w ->
  allows (f_limit (outfile w)) (length (f_data (outfile w)) + records_size frs) ->
  0 <= frames_written w ->
  frames_written w + Z.of_nat (length frs) < 2 ^ 31 ->
  exists w',
    append_all frs w = Done w'
    /\ framed w'
    /\ f_data (outfile w') = f_data (outfile w) ++ concat (frame_record <$> frs)
    /\ f_limit (outfile w') = f_limit (outfile w)
    /\ frames_written w' = frames_written w + Z.of_nat (length frs)
    /\ width w' = width w /\ height w' = height w.
Proof.
  revert w. induction frs as [|[buf pts] frs IH]; intros w Hfr Hroom H0 Hmax.
  - exists w. cbn [append_all for_each fmap list_fmap concat length].
    rewrite app_nil_r. split_and!; (done || lia).
  - rewrite records_size_cons in Hroom. cbn [fst] in Hroom.
    assert (Hfit : fits (outfile w) (12 + length buf)).
    { destruct Hfr as [He _]. unfold fits, allows in *.
      destruct (f_limit (outfile w)); [lia|done]. }
    unfold append_all. cbn [for_each]. unfold append at 1. cbn [fst snd].
    rewrite write_frame_at_end by (done || apply Hfr). cbn [Z.eqb obind].
    set (w1 := mkWriter _ _ _ _ _ _ _).
    destruct (IH w1) as (w' & Hrun & Hfr' & Hdata & Hlim & Hcnt & Hw & Hh).
    + destruct Hfr as [He Hh]. split; cbn; [done|].
      rewrite length_app. lia.
    + cbn [w1 outfile f_limit f_data].
      rewrite length_app, frame_record_length. cbn [fst].
      unfold allows in *. destruct (f_limit (outfile w)); [lia|done].
    + cbn [w1 frames_written]. unfold to_int.
      rewrite Z.mod_small by (cbn [length] in Hmax; lia). lia.
    + cbn [w1 frames_written]. unfold to_int.
      rewrite Z.mod_small by (cbn [length] in Hmax; lia).
      cbn [length] in Hmax. lia.
    + exists w'. split; [exact Hrun|].
      split; [done|]. rewrite Hdata, Hlim, Hcnt, Hw, Hh.
      cbn [w1 outfile f_data f_limit frames_written width height].
      cbn [fmap list_fmap concat]. rewrite <- app_assoc.
      repeat split. unfold to_int.
      rewrite Z.mod_small by (cbn [length] in Hmax; lia).
      cbn [length]. lia.
Qed.

Lemma concat_records_length (frs : list frame) :
  length (concat (frame_record <$> frs)) = records_size frs.
Proof.
  induction frs as [|fr frs IH]; [done|].
  cbn [fmap list_fmap concat]. rewrite length_app, frame_record_length.
  rewrite records_size_cons. change (list_fmap _ _ frame_record frs)
    with (frame_record <$> frs). lia.
Qed.

(** C5. After the constructor and [N] appended frames of payload sizes
    [s_1 .. s_N], the final header rewrite leaves a file of
    [32 + sum (12 + s_i)] bytes whose frame-count field, at offset 24,
    reads [N]. *)
Theorem container_length_and_count (limit : option nat) (width0 height0 : Z)
    (frs : list frame) w0 :
  new_writer limit width0 height0 = Done w0 ->
  allows limit (32 + records_size frs) ->
  Z.of_nat (length frs) < 2 ^ 31 ->
  exists w,
    append_all frs w0 = Done w
    /\ let data := f_data (outfile (write_file_header w)) in
       length data = (32 + records_size frs)%nat
       /\ header_frame_count data = Z.of_nat (length frs)
       /\ data = header_layout width0 height0 (Z.of_nat (length frs))
                 ++ concat (frame_record <$> frs).
Proof.
  intros Hnew Hroom Hmax.
  assert (Ha32 : allows limit 32)
    by (unfold allows in *; destruct limit; [lia|done]).
  destruct (new_writer_framed _ _ _ _ Ha32 Hnew) as (Hfr & Hdata & Hlim).
  destruct (new_writer_done _ _ _ _ Hnew) as (_ & Hw & Hh & Hfw & _).
  destruct (append_all_framed frs w0) as (w & Hrun & Hfr' & Hd & Hl & Hc & Hw' & Hh').
  - done.
  - by rewrite Hlim, Hdata, header_layout_length.
  - lia.
  - lia.
  - exists w. split; [done|]. cbv zeta.
    destruct (write_file_header_data w) as (Hwd & _); [by rewrite Hl, Hlim|done|].
    rewrite Hwd, Hd, Hdata, Hc, Hfw, Hw', Hh', Hw, Hh, Z.add_0_l.
    rewrite drop_app_length' by reflexivity.
    repeat split.
    + by rewrite length_app, header_layout_length, concat_records_length.
    + unfold header_frame_count.
      rewrite sub_bytes_app_l by (rewrite header_layout_length; lia).
      etrans; [apply (header_layout_count width0 height0)|].
      apply Z.mod_small. lia.
Qed.

End RoundTrip.

(** ** Reasoning on outcomes *)

Section Post.

Context {A B : Type}.

Lemma post_bind (F : Prop) (Q : B -> Prop) (c : outcome A) (k : A -> outcome B) :
  post F (fun a => post F Q (k a)) c -> post F Q (a <-- c ;; k a).
Proof. by destruct c. Qed.

Lemma post_mono (F F' : Prop) (Q Q' : A -> Prop) (c : outcome A) :
  (F -> F') -> (forall a, Q a -> Q' a) -> post F Q c -> post F' Q' c.
Proof. intros HF HQ. destruct c; cbn; auto. Qed.

Lemma post_done (F : Prop) (Q : A -> Prop) (c : outcome A) (a : A) :
  post F Q c -> c = Done a -> Q a.
Proof. by intros H ->. Qed.

Lemma post_returns (F : Prop) (Q : A -> Prop) (c : outcome A) :
  post F Q c -> ~ F -> exists a, c = Done a /\ Q a.
Proof. destruct c; cbn; intros H HF; try done. by exists a. Qed.

Lemma bind_done (c : outcome A) (k : A -> outcome B) (b : B) :
  (a <-- c ;; k a) = Done b -> exists a, c = Done a /\ k a = Done b.
Proof. destruct c; cbn; try done. by exists a. Qed.

Lemma bind_fatal (c : outcome A) (k : A -> outcome B) (d : string) :
  (a <-- c ;; k a) = Fatal d ->
  c = Fatal d \/ exists a, c = Done a /\ k a = Fatal d.
Proof.
  destruct c as [a|d'| |]; cbn; intros H; try done.
  - right. by exists a.
  - injection H as ->. by left.
Qed.

End Post.

(** ** Writes past the stream header *)

Section PastHeader.

Lemma fwrite_limit (ptr : list Z) (n : nat) (f : FILE) :
  f_limit (snd (fwrite ptr n f)) = f_limit f.
Proof. unfold fwrite. by destruct (take _ ptr). Qed.

Lemma fwrite_past_header (ptr : list Z) (n : nat) (f : FILE) :
  past_header f ->
  past_header (snd (fwrite ptr n f))
  /\ take 32 (f_data (snd (fwrite ptr n f))) = take 32 (f_data f).
Proof.
  intros [H32 Hlen]. rewrite fwrite_inside by done.
  unfold past_header. cbn [snd f_pos f_data].
  rewrite !length_app, length_take, length_drop.
  split; [lia|].
  rewrite take_app_le by (rewrite length_take; lia).
  rewrite take_take. f_equal. lia.
Qed.

Lemma fwrite_unlimited (ptr : list Z) (f : FILE) :
  f_limit f = None -> fst (fwrite ptr (length ptr) f) = length ptr.
Proof.
  intros Hl. unfold fwrite, room. rewrite Hl, take_ge by lia.
  by destruct ptr.
Qed.

End PastHeader.

(** ** The encode scheduler *)

Section Scheduler.

Context {codec_t : Type} `{!VpxCodec codec_t}.

Implicit Types w : IVFVPX9Writer codec_t.

(** An append on any stream: it returns 1 and counts the frame, or it
    returns 0, which only a device with a limit brings about; it never
    writes before byte 32 when the position is past the header. *)
Lemma write_frame_any w (buf : list Z) (pts : Z) :
  let r := vpx_video_writer_write_frame w buf pts in
  ((fst r = 1 /\ frames_written (snd r) = to_int (frames_written w + 1))
   \/ (fst r = 0 /\ frames_written (snd r) = frames_written w
       /\ f_limit (outfile w) <> None))
  /\ codec (snd r) = codec w
  /\ frames_encoded (snd r) = frames_encoded w
  /\ img (snd r) = img w
  /\ width (snd r) = width w
  /\ height (snd r) = height w
  /\ f_limit (outfile (snd r)) = f_limit (outfile w)
  /\ (past_header (outfile w) ->
      past_header (outfile (snd r))
      /\ take 32 (f_data (outfile (snd r))) = take 32 (f_data (outfile w))).
Proof.
  cbv zeta. unfold vpx_video_writer_write_frame, write_ivf_frame_header.
  set (hdr := frame_header _ _ _).
  set (f1 := snd (fwrite hdr 12 (outfile w))).
  assert (Hl1 : f_limit f1 = f_limit (outfile w)) by apply fwrite_limit.
  pose proof (fwrite_limit buf (length buf) f1) as Hl2.
  pose proof (fwrite_unlimited buf f1) as Hun.
  pose proof (fwrite_past_header hdr 12 (outfile w)) as Hp1.
  pose proof (fwrite_past_header buf (length buf) f1) as Hp2.
  fold f1 in Hp1.
  destruct (fwrite buf (length buf) f1) as [n f2].
  cbn [fst snd] in *.
  assert (Hpast : past_header (outfile w) ->
                  past_header f2 /\ take 32 (f_data f2) = take 32 (f_data (outfile w))).
  { intros Hp. destruct (Hp1 Hp) as [Hq1 Ht1].
    destruct (Hp2 Hq1) as [Hq2 Ht2]. split; [done|congruence]. }
  destruct (decide (n ≠ length buf)) as [Hne|Heq];
    unfold set_frames_written, set_outfile;
    cbn [fst snd outfile codec frames_encoded frames_written img width height].
  - split_and!; try done; try congruence.
    right. split_and!; try done.
    intros Hnone. apply Hne, Hun. congruence.
  - split_and!; try done; try congruence. by left.
Qed.

Lemma frame_packets_cons (pkt : vpx_codec_cx_pkt_t) pkts :
  frame_packets (pkt :: pkts)
  = ((if decide (kind pkt = VPX_CODEC_CX_FRAME_PKT) then 1 else 0)
     + frame_packets pkts)%nat.
Proof.
  unfold frame_packets. rewrite filter_cons.
  by destruct (decide (kind pkt = VPX_CODEC_CX_FRAME_PKT)).
Qed.

Lemma take_packets_post pkts (g : Z) w :
  post (f_limit (outfile w) <> None) (packets_taken pkts g w)
       (for_each pkts take_packet (g, w)).
Proof.
  revert g w. induction pkts as [|pkt pkts IH]; intros g w.
  - cbn. unfold packets_taken. cbn [fst snd].
    split_and!; try done. intros. unfold frame_packets. cbn. lia.
  - cbn [for_each]. unfold take_packet at 1.
    pose proof (frame_packets_cons pkt pkts) as Hcons.
    destruct (decide (kind pkt = VPX_CODEC_CX_FRAME_PKT)) as [Hk|Hk].
    + pose proof (write_frame_any w (frame_buf pkt) (frame_pts pkt)) as Hw.
      cbv zeta in Hw.
      destruct (vpx_video_writer_write_frame w (frame_buf pkt) (frame_pts pkt))
        as [ok w1].
      cbn [fst snd] in Hw.
      destruct Hw as (Hok & Hc & He & Hi & Hwd & Hh & Hl & Hp).
      destruct Hok as [[-> Hfw]|(-> & Hfw & Hlim)]; cbn [Z.eqb obind post]; [|done].
      specialize (IH 1 w1). rewrite Hl in IH.
      eapply post_mono; [| |exact IH]; [done|].
      intros [g' w'] (Hc' & He' & Hi' & Hwd' & Hh' & Hl' & Hg' & Hp' & Hf').
      unfold packets_taken. cbn [fst snd] in *.
      split_and!;
        [congruence|congruence|congruence|congruence|congruence|congruence
        | | | ].
      * rewrite Hg'. by destruct (decide (pkts = [])).
      * intros Hpast. destruct (Hp Hpast) as [Hq Ht].
        destruct (Hp' Hq) as [Hq' Ht']. split; [done|congruence].
      * intros H0 Hmax. rewrite Hcons in Hmax.
        assert (Hstep : frames_written w1 = frames_written w + 1).
        { rewrite Hfw. unfold to_int. rewrite Z.mod_small by lia. lia. }
        rewrite Hf' by lia. rewrite Hcons. lia.
    + cbn [obind].
      specialize (IH 1 w).
      eapply post_mono; [| |exact IH]; [done|].
      intros [g' w'] (Hc' & He' & Hi' & Hwd' & Hh' & Hl' & Hg' & Hp' & Hf').
      unfold packets_taken. cbn [fst snd] in *.
      split_and!;
        [congruence|congruence|congruence|congruence|congruence|congruence
        | |exact Hp'| ].
      * rewrite Hg'. by destruct (decide (pkts = [])).
      * intros H0 Hmax. rewrite Hcons in Hmax |- *. rewrite Hf' by lia. lia.
Qed.

(** One call of [encode_frame]: the encoder is given [encode_args]; unless
    the encoder or the device fails, the call returns, having appended the
    frame packets, and what it returns tells whether there were packets. *)
Lemma encode_frame_post w (flush : bool) :
  let sub := encode_args w flush in
  let step :=
    vpx_codec_encode_step (priv (codec w)) (sub_img sub) (sub_pts sub) 1
      (sub_flags sub) VPX_DL_GOOD_QUALITY in
  let pkts := vpx_codec_get_cx_data_all (snd step) in
  post (f_limit (outfile w) <> None \/ fst step <> VPX_CODEC_OK)
    (fun r =>
       codec (snd r) = mkCtx (snd step) (submitted (codec w) ++ [sub])
       /\ frames_encoded (snd r)
          = (if flush then frames_encoded w else to_int (frames_encoded w + 1))
       /\ img (snd r) = img w
       /\ width (snd r) = width w
       /\ height (snd r) = height w
       /\ f_limit (outfile (snd r)) = f_limit (outfile w)
       /\ fst r = (if decide (pkts = []) then 0 else 1)
       /\ (past_header (outfile w) ->
           past_header (outfile (snd r))
           /\ take 32 (f_data (outfile (snd r))) = take 32 (f_data (outfile w)))
       /\ (0 <= frames_written w ->
           frames_written w + Z.of_nat (frame_packets pkts) < 2 ^ 31 ->
           frames_written (snd r)
           = frames_written w + Z.of_nat (frame_packets pkts)))
    (encode_frame w flush).
Proof.
  cbv zeta. unfold encode_frame, vpx_codec_encode, encode_args.
  cbn [sub_img sub_pts sub_flags].
  set (w1 := if negb flush then _ else w).
  assert (Hw1 : codec w1 = codec w /\ outfile w1 = outfile w /\ img w1 = img w
                /\ width w1 = width w /\ height w1 = height w
                /\ frames_written w1 = frames_written w
                /\ frames_encoded w1
                   = if flush then frames_encoded w
                     else to_int (frames_encoded w + 1)).
  { subst w1. by destruct flush. }
  destruct Hw1 as (Hc & Ho & Hi & Hwd & Hh & Hfw & Hfe).
  rewrite Hc.
  destruct (vpx_codec_encode_step _ _ _ _ _ _) as [res c].
  cbn [fst snd].
  destruct (decide (res ≠ VPX_CODEC_OK)) as [Hres|Hres]; [by right|].
  pose proof (take_packets_post
                (vpx_codec_get_cx_data_all c) 0
                (set_codec (mkCtx c (submitted (codec w) ++ [encode_args w flush])) w1))
    as Hpost.
  unfold vpx_codec_get_cx_data. cbn [priv].
  eapply post_mono; [| |exact Hpost].
  - cbn [set_codec outfile]. rewrite Ho. by left.
  - intros [g' w'] (Hc' & He' & Hi' & Hwd' & Hh' & Hl' & Hg' & Hp' & Hf').
    cbn [fst snd set_codec codec frames_encoded img width height outfile
         frames_written] in *.
    rewrite Ho in *. rewrite Hfw in *.
    split_and!; [exact Hc'|congruence|congruence|congruence|congruence
                |exact Hl'|exact Hg'|exact Hp'|exact Hf'].
Qed.

End Scheduler.

(** ** Keyframe cadence *)

Section Cadence.

Context {codec_t : Type} `{!VpxCodec codec_t}.

Implicit Types w : IVFVPX9Writer codec_t.

Lemma encode_frame_done w (flush : bool) (g : Z) w' :
  encode_frame w flush = Done (g, w') ->
  submitted (codec w') = submitted (codec w) ++ [encode_args w flush]
  /\ frames_encoded w'
     = (if flush then frames_encoded w else to_int (frames_encoded w + 1)).
Proof.
  intros Hrun. pose proof (encode_frame_post w flush) as Hpost.
  cbv zeta in Hpost.
  apply (post_done _ _ _ _ Hpost) in Hrun as (Hc & Hfe & _).
  cbn [snd] in *. rewrite Hc. by cbn.
Qed.

Lemma submission_step_done (o : option vpx_image_t) w w' :
  submission_step o w = Done w' ->
  submitted (codec w') = submitted (codec w) ++ cadence [o] (frames_encoded w)
  /\ frames_encoded w'
     = match o with
       | Some _ => to_int (frames_encoded w + 1)
       | None => frames_encoded w
       end
  \/ frames_encoded w < 0.
Proof.
  intros Hrun.
  destruct (decide (frames_encoded w < 0)) as [|Hk]; [by right|left].
  revert Hrun. unfold submission_step, submit_image, submit.
  destruct o as [im|].
  - destruct (encode_frame (set_img im w) false) as [[g w1]| | |] eqn:E;
      cbn [obind]; try done.
    intros [= <-]. apply encode_frame_done in E as [Hs Hf].
    cbn [set_img codec frames_encoded] in *. split; [|done].
    rewrite Hs. unfold encode_args. cbn [negb cadence set_img img frames_encoded].
    by rewrite Z.rem_mod_nonneg by (unfold KEYFRAME_INTERVAL; lia).
  - destruct (encode_frame w true) as [[g w1]| | |] eqn:E; cbn [obind]; try done.
    intros [= <-]. apply encode_frame_done in E as [Hs Hf].
    split; [|done]. by rewrite Hs.
Qed.

Lemma cadence_app (steps1 steps2 : list (option vpx_image_t)) (k : Z) :
  cadence (steps1 ++ steps2) k
  = cadence steps1 k
    ++ cadence steps2 (k + Z.of_nat (length (filter is_Some steps1))).
Proof.
  revert k. induction steps1 as [|[im|] steps1 IH]; intros k.
  - cbn. by rewrite Z.add_0_r.
  - cbn [app cadence]. rewrite IH. rewrite filter_cons_True by done.
    cbn [length]. do 3 f_equal. lia.
  - cbn [app cadence]. rewrite IH.
    rewrite filter_cons_False by (by intros [? ?]). done.
Qed.

(** A run of submissions hands the encoder what the cadence asks. *)
Lemma submissions_follow_cadence (steps : list (option vpx_image_t)) w w' :
  0 <= frames_encoded w ->
  frames_encoded w + Z.of_nat (length steps) < 2 ^ 31 ->
  for_each steps submission_step w = Done w' ->
  submitted (codec w')
  = submitted (codec w) ++ cadence steps (frames_encoded w).
Proof.
  revert w. induction steps as [|o steps IH]; intros w H0 Hmax.
  - cbn. intros [= <-]. by rewrite app_nil_r.
  - cbn [for_each].
    destruct (submission_step o w) as [w1| | |] eqn:E; cbn [obind]; try done.
    intros Hrun. cbn [length] in Hmax.
    apply submission_step_done in E as [[Hs Hf]|]; [|lia].
    assert (Hf1 : frames_encoded w1
                  = frames_encoded w + match o with Some _ => 1 | None => 0 end).
    { rewrite Hf. destruct o; [|lia].
      unfold to_int. rewrite Z.mod_small by lia. lia. }
    apply IH in Hrun; [|destruct o; lia..].
    rewrite Hrun, Hs, <- app_assoc. f_equal.
    rewrite Hf1. destruct o; cbn [cadence app]; [done|].
    by rewrite Z.add_0_r.
Qed.

Lemma cadence_flags (steps : list (option vpx_image_t)) (k : Z) (s : submission) :
  0 <= k ->
  s ∈ cadence steps k ->
  (sub_flags s = VPX_EFLAG_FORCE_KF <-> (KEYFRAME_INTERVAL | sub_pts s))
  /\ (sub_img s = None -> sub_pts s = -1).
Proof.
  revert k. induction steps as [|[im|] steps IH]; intros k Hk; cbn [cadence].
  - intros H. inversion H.
  - intros [->|Hin]%elem_of_cons; [|apply (IH (k + 1)); [lia|done]].
    cbn. split; [|done].
    rewrite <- Z.mod_divide by done.
    destruct (k mod KEYFRAME_INTERVAL =? 0) eqn:E; [|split; [done|lia]].
    split; [lia|done].
  - intros [->|Hin]%elem_of_cons; [|by apply (IH k)].
    cbn. split; [|done]. split; [done|].
    intros [q Hq]. unfold KEYFRAME_INTERVAL in Hq. lia.
Qed.

Lemma cadence_live (steps : list (option vpx_image_t)) (k : Z) :
  sub_pts <$> live (cadence steps k)
  = (fun i : nat => k + Z.of_nat i) <$> seq 0 (length (filter is_Some steps)).
Proof.
  revert k. induction steps as [|[im|] steps IH]; intros k; [done| |].
  - cbn [cadence]. unfold live. rewrite filter_cons_True by (by cbn).
    rewrite (filter_cons_True is_Some) by done.
    cbn [fmap list_fmap length seq sub_pts]. f_equal; [lia|].
    fold (live (cadence steps (k + 1))).
    etrans; [apply IH|].
    rewrite <- fmap_S_seq, <- list_fmap_compose.
    apply list_fmap_ext. intros i x _. cbn. lia.
  - cbn [cadence]. unfold live. rewrite filter_cons_False by (cbn; by intros [? ?]).
    rewrite (filter_cons_False is_Some) by (by intros [? ?]).
    apply IH.
Qed.

(** C4. In a session on a new writer, the encoder is given the
    force-keyframe flag on exactly the submissions whose frame index is a
    multiple of 10: the live submissions carry the indices 0, 1, 2, ... in
    order, a flush carries -1, and nothing else is ever flagged. *)
Theorem keyframe_cadence (limit : option nat) (width0 height0 : Z)
    (steps : list (option vpx_image_t)) w0 w :
  new_writer limit width0 height0 = Done w0 ->
  for_each steps submission_step w0 = Done w ->
  Z.of_nat (length steps) < 2 ^ 31 ->
  let subs := submitted (codec w) in
  subs = cadence steps 0
  /\ length subs = length steps
  /\ (forall s, s ∈ subs ->
        (sub_flags s = VPX_EFLAG_FORCE_KF <-> (KEYFRAME_INTERVAL | sub_pts s))
        /\ (sub_img s = None -> sub_pts s = -1))
  /\ (forall (i : nat) s, live subs !! i = Some s -> sub_pts s = Z.of_nat i)
  /\ length (live subs) = length (filter is_Some steps).
Proof.
  intros Hnew Hrun Hmax subs.
  destruct (new_writer_done _ _ _ _ Hnew) as (_ & _ & _ & _ & Hfe & Hsub & _).
  assert (Hsubs : subs = cadence steps 0).
  { subst subs. rewrite (submissions_follow_cadence steps w0 w); try done.
    - by rewrite Hsub, Hfe.
    - lia.
    - lia. }
  pose proof (cadence_live steps 0) as Hlive. rewrite <- Hsubs in Hlive.
  split_and!.
  - done.
  - rewrite Hsubs. clear. generalize 0.
    induction steps as [|[im|] steps IH]; intros k; cbn; [done|..];
      by rewrite IH.
  - intros s Hs. rewrite Hsubs in Hs. by apply (cadence_flags steps 0).
  - intros i s Hi.
    assert (Hp : (sub_pts <$> live subs) !! i = Some (sub_pts s))
      by (by rewrite list_lookup_fmap, Hi).
    rewrite Hlive, list_lookup_fmap in Hp.
    destruct (seq 0 (length (filter is_Some steps)) !! i) as [j|] eqn:Ej;
      [|done].
    apply lookup_seq in Ej as [-> _]. cbn in Hp. injection Hp. lia.
  - apply (f_equal length) in Hlive.
    by rewrite !length_fmap, length_seq in Hlive.
Qed.

(** C10. A flush submission never carries the force-keyframe flag: it
    passes the frame index -1 and no image, and the remainder of -1 by 10,
    truncating, is -1, not 0.  A submission that carries the flag is a live
    one. *)
Theorem flush_never_forces_keyframe w (flush : bool) (g : Z) w' :
  encode_frame w flush = Done (g, w') ->
  exists s,
    submitted (codec w') = submitted (codec w) ++ [s]
    /\ (flush = true ->
        sub_img s = None /\ sub_pts s = -1
        /\ Z.rem (sub_pts s) KEYFRAME_INTERVAL = -1
        /\ sub_flags s = 0
        /\ frames_encoded w' = frames_encoded w)
    /\ (sub_flags s = VPX_EFLAG_FORCE_KF -> flush = false).
Proof.
  intros Hrun. apply encode_frame_done in Hrun as [Hs Hf].
  exists (encode_args w flush). split; [done|].
  destruct flush; cbn; split; done.
Qed.

End Cadence.

(** ** The flush protocol, on an encoder with finite lookahead *)

Section FlushProtocol.

Context {codec_t : Type} `{!VpxCodec codec_t}.
Variable pending : codec_t -> nat.
Hypothesis lookahead : Lookahead pending.

Implicit Types w : IVFVPX9Writer codec_t.

Local Abbreviation inside := (inside pending).
Local Abbreviation balanced := (balanced pending).

Lemma keeps_refl w : keeps w w.
Proof. by repeat split. Qed.

Lemma keeps_trans w1 w2 w3 : keeps w1 w2 -> keeps w2 w3 -> keeps w1 w3.
Proof. unfold keeps. intros (?&?&?&?) (?&?&?&?). split_and!; congruence. Qed.

Lemma encode_frame_live_post w :
  balanced w ->
  frames_encoded w < 2 ^ 31 - 1 ->
  post (f_limit (outfile w) <> None)
    (fun r => balanced (snd r) /\ keeps w (snd r)
              /\ frames_encoded (snd r) = frames_encoded w + 1)
    (encode_frame w false).
Proof.
  intros [Hc H0 Hp Hr] Hmax.
  pose proof (encode_frame_post w false) as Hpost.
  cbv zeta in Hpost. unfold encode_args in Hpost.
  cbn [negb sub_img sub_pts sub_flags] in Hpost.
  pose proof (la_encode_ok pending lookahead) as Hok.
  pose proof (la_live pending lookahead) as Hlive.
  eapply post_mono; [| |exact Hpost].
  - intros [?|Hbad]; [done|]. by rewrite Hok in Hbad.
  - intros [g w'] (Hc' & Hfe & _ & Hwd & Hh & Hl & _ & Hp' & Hfw).
    cbn [fst snd post] in *.
    destruct (Hp' Hp) as [Hq Ht].
    set (c' := snd (vpx_codec_encode_step _ _ _ _ _ _)) in *.
    assert (Hcons : (frame_packets (vpx_codec_get_cx_data_all c') + pending c'
                     = inside w + 1)%nat) by apply Hlive.
    assert (Hfe' : frames_encoded w' = frames_encoded w + 1).
    { rewrite Hfe. unfold to_int. rewrite Z.mod_small by lia. lia. }
    assert (Hfw' : frames_written w'
                   = frames_written w
                     + Z.of_nat (frame_packets (vpx_codec_get_cx_data_all c')))
      by (apply Hfw; lia).
    split_and!; [split| |done].
    + unfold inside. rewrite Hc'. cbn [priv]. lia.
    + lia.
    + done.
    + by rewrite Hl.
    + by repeat split.
Qed.

Lemma encode_live_post (im : vpx_image_t) w :
  balanced w ->
  frames_encoded w < 2 ^ 31 - 1 ->
  post (f_limit (outfile w) <> None)
    (fun w' => balanced w' /\ keeps w w'
               /\ frames_encoded w' = frames_encoded w + 1)
    (submit_image im w).
Proof.
  intros Hb Hmax. unfold submit_image, submit.
  apply post_bind.
  assert (Hb' : balanced (set_img im w)) by (by destruct Hb).
  eapply post_mono;
    [| |exact (encode_frame_live_post (set_img im w) Hb' Hmax)]; [done|].
  by intros [g w'].
Qed.

Lemma encode_flush_post w :
  balanced w ->
  frames_encoded w < 2 ^ 31 ->
  post (f_limit (outfile w) <> None)
    (fun r => balanced (snd r) /\ keeps w (snd r)
              /\ frames_encoded (snd r) = frames_encoded w
              /\ (fst r = 0 -> inside (snd r) = 0%nat /\ inside w = 0%nat)
              /\ (fst r <> 0 -> (inside (snd r) < inside w)%nat))
    (encode_frame w true).
Proof.
  intros [Hc H0 Hp Hr] Hmax.
  pose proof (encode_frame_post w true) as Hpost.
  cbv zeta in Hpost. unfold encode_args in Hpost.
  cbn [negb sub_img sub_pts sub_flags] in Hpost.
  pose proof (la_encode_ok pending lookahead) as Hok.
  pose proof (la_flush pending lookahead) as Hflush.
  eapply post_mono; [| |exact Hpost].
  - intros [?|Hbad]; [done|]. by rewrite Hok in Hbad.
  - intros [g w'] (Hc' & Hfe & _ & Hwd & Hh & Hl & Hg & Hp' & Hfw).
    cbn [fst snd post] in *.
    destruct (Hp' Hp) as [Hq Ht].
    set (c' := snd (vpx_codec_encode_step _ _ _ _ _ _)) in *.
    assert (Hcons : (frame_packets (vpx_codec_get_cx_data_all c') + pending c'
                     = inside w)%nat
                    /\ (vpx_codec_get_cx_data_all c' <> [] ->
                        (pending c' < inside w)%nat)
                    /\ (vpx_codec_get_cx_data_all c' = [] -> inside w = 0%nat))
      by apply Hflush.
    destruct Hcons as (Hsum & Hless & Hnone).
    assert (Hfw' : frames_written w'
                   = frames_written w
                     + Z.of_nat (frame_packets (vpx_codec_get_cx_data_all c')))
      by (apply Hfw; lia).
    assert (Hin : inside w' = pending c') by (unfold inside; by rewrite Hc').
    split_and!; [split| |done| |].
    + lia.
    + lia.
    + done.
    + by rewrite Hl.
    + by repeat split.
    + rewrite Hg. destruct (decide (vpx_codec_get_cx_data_all c' = [])) as [E|E];
        [|done]. intros _. specialize (Hnone E). lia.
    + rewrite Hg. destruct (decide (vpx_codec_get_cx_data_all c' = [])) as [E|E];
        [done|]. intros _. specialize (Hless E). lia.
Qed.

(** The flush loop ends within one turn more than there are frames
    inside, and leaves none inside. *)
Lemma flush_encoder_post (fuel : nat) w :
  balanced w ->
  frames_encoded w < 2 ^ 31 ->
  (inside w < fuel)%nat ->
  post (f_limit (outfile w) <> None)
    (fun w' => balanced w' /\ keeps w w'
               /\ frames_encoded w' = frames_encoded w
               /\ inside w' = 0%nat
               /\ (inside w = 0%nat -> frames_written w' = frames_written w))
    (flush_encoder fuel w).
Proof.
  revert w. induction fuel as [|fuel IH]; intros w Hb Hmax Hfuel; [lia|].
  cbn [flush_encoder]. apply post_bind.
  eapply post_mono; [| |exact (encode_flush_post w Hb Hmax)]; [done|].
  intros [g w1] (Hb1 & Hk1 & Hfe1 & Hzero & Hmore). cbn [fst snd] in *.
  destruct (g =? 0) eqn:E.
  - cbn [post]. destruct Hzero as [Hz1 Hz]; [lia|].
    split_and!; try done. intros _.
    destruct Hb as [Hc _ _ _], Hb1 as [Hc1 _ _ _]. lia.
  - assert (Hlt : (inside w1 < inside w)%nat) by (apply Hmore; lia).
    destruct Hk1 as (Hw1 & Hh1 & Hl1 & Ht1).
    eapply post_mono; [| |apply (IH w1)].
    + by rewrite Hl1.
    + intros w' (Hb' & Hk' & Hfe' & Hin' & _).
      split_and!; try done; try lia; try congruence.
      eapply keeps_trans; [|exact Hk']. by repeat split.
    + done.
    + lia.
    + lia.
Qed.

Lemma balanced_write_file_header w :
  balanced w ->
  balanced (write_file_header w)
  /\ take 32 (f_data (outfile (write_file_header w)))
     = header_layout (width w) (height w) (frames_written w)
  /\ f_limit (outfile (write_file_header w)) = f_limit (outfile w).
Proof.
  intros [Hc H0 [Hp1 Hp2] Hr].
  pose proof (write_file_header_fits w Hr) as Hf.
  split_and!.
  - split; try done.
    + unfold past_header. rewrite Hf. cbn [f_pos f_data].
      rewrite length_app, header_layout_length, length_drop. lia.
    + by rewrite Hf.
  - rewrite Hf. cbn [f_data].
    rewrite take_app_le by (rewrite header_layout_length; lia).
    by rewrite take_ge by (rewrite header_layout_length; lia).
  - by rewrite Hf.
Qed.

(** [flush()]: the header on disk is the one written on entry, with the
    count of that moment; the encoder is drained after it. *)
Lemma flush_post (fuel : nat) w :
  balanced w ->
  frames_encoded w < 2 ^ 31 ->
  (inside w < fuel)%nat ->
  post (f_limit (outfile w) <> None)
    (fun w' => balanced w'
               /\ width w' = width w /\ height w' = height w
               /\ f_limit (outfile w') = f_limit (outfile w)
               /\ frames_encoded w' = frames_encoded w
               /\ inside w' = 0%nat
               /\ take 32 (f_data (outfile w'))
                  = header_layout (width w) (height w) (frames_written w)
               /\ (inside w = 0%nat -> frames_written w' = frames_written w))
    (flush fuel w).
Proof.
  intros Hb Hmax Hfuel. unfold flush.
  destruct (balanced_write_file_header w Hb) as (Hb1 & Ht & Hl).
  eapply post_mono; [| |apply (flush_encoder_post fuel (write_file_header w))];
    try done.
  - by rewrite Hl.
  - intros w' (Hb' & (Hw & Hh & Hl' & Ht') & Hfe & Hin & Hfw).
    split_and!; try done; congruence.
Qed.

Lemma new_writer_post (limit : option nat) (width0 height0 : Z) :
  allows limit 32 ->
  post False
    (fun w => balanced w /\ frames_encoded w = 0 /\ f_limit (outfile w) = limit
              /\ width w = width0 /\ height w = height0)
    (new_writer limit width0 height0).
Proof.
  intros Hroom.
  pose proof (new_writer_done limit width0 height0) as Hdone.
  pose proof (new_writer_framed limit width0 height0) as Hframed.
  unfold new_writer in *.
  pose proof (la_config pending lookahead) as Hcfg.
  destruct (decide (vpx_codec_enc_config_default ≠ 0)); [done|].
  set (cfg := mkCfg _ _ _ _ _) in *.
  destruct (la_init pending lookahead cfg) as [Hi0 Hi1].
  destruct (vpx_codec_enc_init cfg) as [res c]. cbn [fst snd] in *.
  destruct (decide (res ≠ 0)); [done|].
  destruct (la_control pending lookahead c 1) as [Hc0 Hc1].
  destruct (vpx_codec_control_lossless c 1) as [res' c']. cbn [fst snd] in *.
  destruct (decide (res' ≠ 0)); [done|].
  cbn [post].
  specialize (Hdone _ eq_refl). specialize (Hframed _ Hroom eq_refl).
  destruct Hdone as (_ & Hw & Hh & Hfw & Hfe & _).
  destruct Hframed as ([He H32] & Hdata & Hlim).
  split_and!; try done.
  split.
  - rewrite Hfw, Hfe. unfold inside. cbn. lia.
  - by rewrite Hfw.
  - unfold past_header. lia.
  - by rewrite Hlim.
Qed.

Lemma live_frames_post (images : list vpx_image_t) w :
  balanced w ->
  frames_encoded w + Z.of_nat (length images) < 2 ^ 31 ->
  0 <= frames_encoded w ->
  post (f_limit (outfile w) <> None)
    (fun w' => balanced w' /\ keeps w w'
               /\ frames_encoded w'
                  = frames_encoded w + Z.of_nat (length images))
    (for_each images submit_image w).
Proof.
  revert w. induction images as [|im images IH]; intros w Hb Hmax H0.
  - cbn. split_and!; [done|apply keeps_refl|lia].
  - cbn [for_each length] in *. apply post_bind.
    eapply post_mono; [| |apply (encode_live_post im w Hb)]; [done| |lia].
    intros w1 (Hb1 & Hk1 & Hfe1).
    eapply post_mono; [| |apply (IH w1 Hb1)].
    + destruct Hk1 as (_ & _ & -> & _). done.
    + intros w' (Hb' & Hk' & Hfe').
      split_and!; [done|by eapply keeps_trans|lia].
    + lia.
    + lia.
Qed.

(** The explicit [flush()] and then the destructor: the count of the
    frames submitted ends up in the stream header. *)
Lemma shutdown_post (fuel : nat) w :
  balanced w ->
  frames_encoded w < 2 ^ 31 ->
  (inside w < fuel)%nat ->
  post (f_limit (outfile w) <> None)
    (fun f => header_frame_count (f_data f) = frames_encoded w)
    (w' <-- flush fuel w ;; destroy fuel w').
Proof.
  intros Hb Hmax Hfuel.
  apply post_bind.
  eapply post_mono; [| |apply (flush_post fuel w Hb)]; [done| |lia..].
  intros w2 (Hb2 & Hw2 & Hh2 & Hl2 & Hfe2 & Hin2 & _ & _).
  unfold destroy. apply post_bind.
  eapply post_mono; [| |apply (flush_post fuel w2 Hb2)];
    [congruence| |lia..].
  intros w3 (Hb3 & _ & _ & _ & _ & _ & Ht3 & _). cbn [post].
  unfold header_frame_count, sub_bytes.
  assert (Hsub : take 4 (drop 24 (f_data (outfile w3)))
                 = take 4 (drop 24 (take 32 (f_data (outfile w3))))).
  { rewrite skipn_firstn_comm. rewrite take_take. f_equal. }
  rewrite Hsub, Ht3.
  etrans; [apply (header_layout_count (width w2) (height w2))|].
  destruct Hb2 as [Hc2 H02 _ _].
  rewrite Z.mod_small; lia.
Qed.

(** A session of [n] live frames leaves [n] in the stream header. *)
Lemma session_post (limit : option nat) (fuel : nat) (width0 height0 : Z)
    (images : list vpx_image_t) :
  allows limit 32 ->
  Z.of_nat (length images) < 2 ^ 31 ->
  (length images < fuel)%nat ->
  post (limit <> None)
    (fun f => header_frame_count (f_data f) = Z.of_nat (length images))
    (session limit fuel width0 height0 images).
Proof.
  intros Hroom Hmax Hfuel. unfold session.
  apply post_bind.
  eapply post_mono; [| |apply (new_writer_post limit width0 height0 Hroom)];
    [done|].
  intros w0 (Hb0 & Hfe0 & Hl0 & Hw0 & Hh0).
  apply post_bind.
  eapply post_mono; [| |apply (live_frames_post images w0 Hb0)];
    [by rewrite Hl0| |lia..].
  intros w1 (Hb1 & (Hw1 & Hh1 & Hl1 & _) & Hfe1).
  assert (Hin1 : (inside w1 <= length images)%nat).
  { destruct Hb1 as [Hc H0 _ _]. lia. }
  eapply post_mono; [| |apply (shutdown_post fuel w1 Hb1)];
    [congruence| |lia..].
  intros f Hf. cbn beta in Hf. lia.
Qed.

End FlushProtocol.

(** The encoder of [LagEncoder] has finite lookahead, for every lag. *)
Lemma lag_encoder_lookahead (n : nat) :
  @Lookahead LagEncoder.state (LagEncoder.codec n) LagEncoder.pending.
Proof.
  split; cbn.
  - done.
  - done.
  - done.
  - intros c [im|] pts d fl dl; unfold LagEncoder.step; [|done].
    by destruct (decide _).
  - intros c im pts d fl dl. unfold LagEncoder.step, LagEncoder.pending.
    cbn [LagEncoder.lag LagEncoder.queue].
    destruct (decide _) as [Hlt|Hge]; cbn [snd].
    + unfold LagEncoder.pop. cbn [LagEncoder.queue LagEncoder.lag].
      destruct (LagEncoder.queue c ++ [(pts, fl)]) as [|e q] eqn:E.
      * by destruct (LagEncoder.queue c).
      * cbn. apply (f_equal length) in E. rewrite length_app in E.
        destruct (decide (VPX_CODEC_CX_FRAME_PKT = VPX_CODEC_CX_FRAME_PKT));
          [|done].
        cbn in *. lia.
    + cbn. rewrite length_app. cbn. lia.
  - intros c pts d fl dl. unfold LagEncoder.step, LagEncoder.pending.
    cbn [snd]. unfold LagEncoder.pop.
    destruct (LagEncoder.queue c) as [|e q]; cbn.
    + done.
    + destruct (decide (VPX_CODEC_CX_FRAME_PKT = VPX_CODEC_CX_FRAME_PKT));
        [|done].
      cbn. split_and!; [done|lia|done].
Qed.

(** ** The conversion of a pure red image *)

(** C3, as the code has it.  On a 4x2 image whose pixels are all
    (255, 0, 0), [update_image] fills the 8 luma samples with 82, the two
    samples of the U plane with 91 and the two of the V plane with 240:
    these are the values of the three integer formulas, the division
    truncating, after [clamp]. *)
Theorem pure_red_planes {codec_t : Type} (f : FILE) (n m : Z)
    (c : vpx_codec_ctx_t codec_t) :
  update_image (mkWriter f 4 2 n m c (vpx_img_alloc 4 2))
               (mkPointer red_4x2 24 0)
  = Done (mkWriter f 4 2 n m c
            (mkImage [replicate 8 82; replicate 2 91; replicate 2 240]))
  /\ clamp (Z.quot (66 * 255 + 129 * 0 + 25 * 0 + 128) 256 + 16) = 82
  /\ clamp (Z.quot (-38 * 255 - 74 * 0 + 112 * 0 + 128) 256 + 128) = 91
  /\ clamp (Z.quot (112 * 255 - 94 * 0 - 18 * 0 + 128) 256 + 128) = 240.
Proof. repeat split. Qed.

(** C3 as stated fails: the chroma planes do not hold 76 and 238. *)
Lemma pure_red_chroma_not_76_238 :
  update_image (mkWriter (fopen None) 4 2 0 0 (mkCtx tt []) (vpx_img_alloc 4 2))
               (mkPointer red_4x2 24 0)
  <> Done (mkWriter (fopen None) 4 2 0 0 (mkCtx tt [])
             (mkImage [replicate 8 82; replicate 2 76; replicate 2 238])).
Proof. vm_compute. discriminate. Qed.

(** ** The capture loop *)

Section Scan.

Lemma skip_space_app (ws rest : list Z) :
  Forall (fun c => isspace c = true) ws -> stops isspace rest ->
  skip_space (ws ++ rest) = rest.
Proof.
  intros Hws Hrest. induction Hws as [|c ws Hc _ IH]; cbn [app skip_space].
  - destruct rest as [|c rest]; [done|]. cbn in *. by rewrite Hrest.
  - by rewrite Hc.
Qed.

Lemma scan_digits_app (ds rest : list Z) (acc : Z) :
  Forall (fun c => isdigit c = true) ds -> stops isdigit rest ->
  scan_digits (ds ++ rest) acc
  = (foldl (fun acc d => acc * 10 + (d - 48)) acc ds, rest).
Proof.
  intros Hds Hrest. revert acc.
  induction Hds as [|c ds Hc _ IH]; intros acc; cbn [app scan_digits foldl].
  - destruct rest as [|c rest]; [done|]. cbn in *. by rewrite Hrest.
  - by rewrite Hc, IH.
Qed.

Lemma digit_not_space (c : Z) : isdigit c = true -> isspace c = false.
Proof. unfold isdigit, isspace. lia. Qed.

(** [%d] on white space, digits, and something that is not a digit. *)
Lemma scan_int_digits (ws ds rest : list Z) :
  Forall (fun c => isspace c = true) ws ->
  Forall (fun c => isdigit c = true) ds -> ds <> [] ->
  stops isdigit rest ->
  scan_int (ws ++ ds ++ rest)
  = Converted (to_int (Z.min (decimal ds) LONG_MAX)) rest.
Proof.
  intros Hws Hds Hne Hrest. unfold scan_int.
  destruct ds as [|d ds]; [done|].
  pose proof (Forall_inv Hds) as Hd. cbn beta in Hd.
  rewrite skip_space_app; [|done|by cbn; apply digit_not_space].
  cbn [app at_end].
  assert (Hd' : 48 <= d <= 57) by (unfold isdigit in Hd; lia).
  replace (d =? 0) with false by lia.
  replace (d =? char_code "-") with false
    by (change (char_code "-") with 45; lia).
  replace (d =? char_code "+") with false
    by (change (char_code "+") with 43; lia).
  rewrite Hd.
  change (d :: ds ++ rest) with ((d :: ds) ++ rest).
  by rewrite scan_digits_app.
Qed.

Lemma scan_int_number (ds rest : list Z) :
  Forall (fun c => isdigit c = true) ds -> ds <> [] ->
  stops isdigit rest ->
  scan_int (ds ++ rest) = Converted (to_int (Z.min (decimal ds) LONG_MAX)) rest.
Proof. intros. by apply (scan_int_digits []). Qed.

Lemma literal_match (ch : ascii) (rest : list Z) :
  char_code ch <> 0 -> literal ch (char_code ch :: rest) = Converted 0 rest.
Proof.
  intros Hne. unfold literal.
  destruct (char_code ch =? 0) eqn:E; [lia|]. by rewrite Z.eqb_refl.
Qed.

(** A header [P6 <w> <h> <maxval>] is read in full. *)
Lemma sscanf_P6_header (ws1 dw ws2 dh ws3 dd rest : list Z) (v : scan_vars) :
  Forall (fun c => isspace c = true) (ws1 ++ ws2 ++ ws3) ->
  Forall (fun c => isdigit c = true) (dw ++ dh ++ dd) ->
  dw <> [] -> dh <> [] -> dd <> [] -> ws2 <> [] -> ws3 <> [] ->
  stops isdigit rest ->
  sscanf_P6 ([char_code "P"; char_code "6"]
             ++ ws1 ++ dw ++ ws2 ++ dh ++ ws3 ++ dd ++ rest) v
  = (3, mkVars (to_int (Z.min (decimal dw) LONG_MAX))
          (to_int (Z.min (decimal dh) LONG_MAX))
          (to_int (Z.min (decimal dd) LONG_MAX))
          (to_int (Z.of_nat (2 + length (ws1 ++ dw ++ ws2 ++ dh ++ ws3 ++ dd))))).
Proof.
  intros Hws Hds Hw Hh Hd H2 H3 Hrest.
  apply Forall_app in Hws as [Hws1 Hws]. apply Forall_app in Hws as [Hws2 Hws3].
  apply Forall_app in Hds as [Hdw Hds]. apply Forall_app in Hds as [Hdh Hdd].
  assert (Hsp : forall ws s, ws <> [] ->
            Forall (fun c => isspace c = true) ws -> stops isdigit (ws ++ s)).
  { intros [|c ws] s Hne Hf; [done|]. cbn.
    pose proof (Forall_inv Hf) as Hc. cbn beta in Hc.
    unfold isspace, isdigit in *. lia. }
  assert (Hdg : forall ds s, ds <> [] ->
            Forall (fun c => isdigit c = true) ds -> stops isspace (ds ++ s)).
  { intros [|c ds] s Hne Hf; [done|]. cbn.
    apply digit_not_space. exact (Forall_inv Hf). }
  unfold sscanf_P6. cbn [app].
  rewrite !literal_match by done.
  rewrite skip_space_app by (done || by apply Hdg).
  rewrite (scan_int_number dw) by (done || by apply Hsp).
  rewrite skip_space_app by (done || by apply Hdg).
  rewrite (scan_int_number dh) by (done || by apply Hsp).
  rewrite skip_space_app by (done || by apply Hdg).
  rewrite (scan_int_number dd) by done.
  cbn [pwidth pheight pdepth chars]. do 3 f_equal.
  cbn [length]. rewrite !length_app. lia.
Qed.

(** A scan that stops early does not reach [%n]. *)
Lemma sscanf_P6_short (s : list Z) (v : scan_vars) :
  (fst (sscanf_P6 s v) <> 3 -> chars (snd (sscanf_P6 s v)) = chars v)
  /\ (fst (sscanf_P6 s v) <= 0 -> snd (sscanf_P6 s v) = v).
Proof.
  unfold sscanf_P6.
  destruct (literal "P" s) as [? s1| |]; [|by cbn..].
  destruct (literal "6" s1) as [? s2| |]; [|by cbn..].
  destruct (scan_int (skip_space s2)) as [w s3| |]; [|by cbn..].
  destruct (scan_int (skip_space s3)) as [h s4| |]; [|cbn; split; [done|lia]..].
  destruct (scan_int (skip_space s4)) as [d s5| |]; cbn; split; (done || lia).
Qed.

End Scan.

Section Fatal.

Context {E S : Type}.

(** A loop ends in [fatal] only where its body does. *)
Lemma for_each_fatal (P : string -> Prop) (l : list E)
    (body : E -> S -> outcome S) (s : S) (d : string) :
  (forall e s d, body e s = Fatal d -> P d) ->
  for_each l body s = Fatal d -> P d.
Proof.
  intros Hbody. revert s. induction l as [|e l IH]; intros s; [done|].
  cbn [for_each]. destruct (body e s) as [s'|d'| |] eqn:Eb; cbn [obind];
    try done.
  - apply IH.
  - intros [= <-]. by eapply Hbody.
Qed.

End Fatal.

Section FatalExits.

Context {codec_t : Type} `{!VpxCodec codec_t}.

Implicit Types w : IVFVPX9Writer codec_t.

Lemma load_not_fatal (p : pointer) (i : Z) (d : string) : load p i <> Fatal d.
Proof. unfold load. by destruct (_ && _). Qed.

Lemma store_not_fatal (dest : list Z) (k : nat) (v : Z) (d : string) :
  store dest k v <> Fatal d.
Proof. unfold store. by destruct (decide _). Qed.

Ltac sample_not_fatal :=
  intros [dst dest];
  repeat match goal with
  | |- context [load ?p ?i] =>
      let E := fresh in
      destruct (load p i) eqn:E; cbn [obind]; try done;
      try (by apply load_not_fatal in E)
  | |- context [store ?l ?k ?v] =>
      let E := fresh in
      destruct (store l k v) eqn:E; cbn [obind]; try done;
      try (by apply store_not_fatal in E)
  end.

Lemma luma_sample_not_fatal (wd : Z) (p : pointer) (y x : Z) s (d : string) :
  luma_sample wd p y x s <> Fatal d.
Proof. revert s. unfold luma_sample. sample_not_fatal. Qed.

Lemma chroma_u_sample_not_fatal (wd : Z) (p : pointer) (y x : Z) s (d : string) :
  chroma_u_sample wd p y x s <> Fatal d.
Proof. revert s. unfold chroma_u_sample. sample_not_fatal. Qed.

Lemma chroma_v_sample_not_fatal (wd : Z) (p : pointer) (y x : Z) s (d : string) :
  chroma_v_sample wd p y x s <> Fatal d.
Proof. revert s. unfold chroma_v_sample. sample_not_fatal. Qed.

(** The conversion has no [fatal] exit, and touches the image only. *)
Lemma update_image_not_fatal w (p : pointer) (d : string) :
  update_image w p <> Fatal d.
Proof.
  unfold update_image. intros Hf.
  assert (Hrows : forall (sample : Z -> pointer -> Z -> Z -> nat * list Z
                                    -> outcome (nat * list Z)) rows cols wd s,
            (forall y x s d, sample wd p y x s <> Fatal d) ->
            for_each rows (fun y => for_each cols (fun x => sample wd p y x)) s
            <> Fatal d).
  { intros sample rows cols wd s Hs Hrun.
    apply (for_each_fatal (fun _ => False)) in Hrun; [done|].
    intros y s' d' Hcol.
    apply (for_each_fatal (fun _ => False)) in Hcol; [done|].
    intros x s'' d'' Hsample. by apply Hs in Hsample. }
  apply bind_fatal in Hf as [Hf|(s1 & _ & Hf)];
    [by apply (Hrows luma_sample) in Hf; [|apply luma_sample_not_fatal]|].
  apply bind_fatal in Hf as [Hf|(s2 & _ & Hf)];
    [by apply (Hrows chroma_u_sample) in Hf; [|apply chroma_u_sample_not_fatal]|].
  apply bind_fatal in Hf as [Hf|(s3 & _ & Hf)]; [|done].
  by apply (Hrows chroma_v_sample) in Hf; [|apply chroma_v_sample_not_fatal].
Qed.

Lemma update_image_done w (p : pointer) w' :
  update_image w p = Done w' ->
  width w' = width w /\ height w' = height w /\ outfile w' = outfile w
  /\ frames_written w' = frames_written w
  /\ frames_encoded w' = frames_encoded w /\ codec w' = codec w.
Proof.
  unfold update_image. intros Hd.
  apply bind_done in Hd as (s1 & _ & Hd).
  apply bind_done in Hd as (s2 & _ & Hd).
  apply bind_done in Hd as (s3 & _ & Hd).
  by injection Hd as <-.
Qed.

Lemma take_packet_fatal (pkt : vpx_codec_cx_pkt_t)
    (s : Z * IVFVPX9Writer codec_t) (d : string) :
  take_packet pkt s = Fatal d -> In d writer_diagnostics.
Proof.
  destruct s as [g w]. unfold take_packet.
  destruct (decide _); [|done].
  destruct (vpx_video_writer_write_frame _ _ _) as [ok w1].
  destruct (ok =? 0); [|done].
  intros [= <-]. cbn. tauto.
Qed.

Lemma encode_frame_fatal w (flush : bool) (d : string) :
  encode_frame w flush = Fatal d -> In d writer_diagnostics.
Proof.
  unfold encode_frame.
  destruct (vpx_codec_encode _ _ _ _ _ _) as [res ctx].
  destruct (decide (res ≠ VPX_CODEC_OK)).
  - intros [= <-]. cbn. tauto.
  - apply (for_each_fatal (fun d => In d writer_diagnostics)).
    apply take_packet_fatal.
Qed.

Lemma new_writer_fatal (limit : option nat) (wd ht : Z) (d : string) :
  new_writer limit wd ht = Fatal d -> In d writer_diagnostics.
Proof.
  unfold new_writer.
  destruct (decide (vpx_codec_enc_config_default ≠ 0));
    [intros [= <-]; cbn; tauto|].
  destruct (vpx_codec_enc_init _) as [res c].
  destruct (decide (res ≠ 0)); [intros [= <-]; cbn; tauto|].
  destruct (vpx_codec_control_lossless c 1) as [res' c'].
  destruct (decide (res' ≠ 0)); [intros [= <-]; cbn; tauto|done].
Qed.

End FatalExits.

Section CaptureLoop.

Context {codec_t : Type} `{!VpxCodec codec_t}.

Implicit Types st : world (codec_t := codec_t).

Lemma on_stream_done {A : Type} st
    (call : IVFVPX9Writer codec_t -> outcome (A * IVFVPX9Writer codec_t))
    st' (a : A) :
  on_stream st call = (st', Done a) ->
  exists vs vs', video_stream st = Some vs /\ call vs = Done (a, vs')
                 /\ st' = set_video_stream (Some vs') st.
Proof.
  unfold on_stream. destruct (video_stream st) as [vs|]; [|done].
  destruct (call vs) as [[a' vs']| | |] eqn:E; try done.
  intros [= <- <-]. by exists vs, vs'.
Qed.

Lemma on_stream_fatal {A : Type} st
    (call : IVFVPX9Writer codec_t -> outcome (A * IVFVPX9Writer codec_t))
    st' (d : string) :
  on_stream st call = (st', Fatal d) ->
  exists vs, video_stream st = Some vs /\ call vs = Fatal d.
Proof.
  unfold on_stream. destruct (video_stream st) as [vs|]; [|done].
  destruct (call vs) as [[a' vs']| | |] eqn:E; try done.
  intros [= <- <-]. by exists vs.
Qed.

Lemma pbind_done {A B : Type} (m : world * outcome A)
    (k : world -> A -> world * outcome B) st' (b : B) :
  pbind m k = (st', Done b) ->
  exists st1 a, m = (st1, Done a) /\ k st1 a = (st', Done b).
Proof. destruct m as [st1 [a| | |]]; cbn; try done. by exists st1, a. Qed.

Lemma pbind_fatal {A B : Type} (m : world * outcome A)
    (k : world -> A -> world * outcome B) st' (d : string) :
  pbind m k = (st', Fatal d) ->
  m = (st', Fatal d) \/ exists st1 a, m = (st1, Done a) /\ k st1 a = (st', Fatal d).
Proof.
  destruct m as [st1 [a|d'| |]]; cbn; try done.
  - right. by exists st1, a.
  - intros [= <- <-]. by left.
Qed.

(** The writer a turn of the loop works on: the one there is, or a new
    one of the given dimensions. *)
Lemma capture_done (limit : option nat) (it : iteration) st st' :
  let shot_result := take_screenshot (shot it) (buffer st) in
  let vars := snd (sscanf_P6 (snd shot_result) (locals it)) in
  0 <= fst shot_result ->
  capture limit it st = (st', Done tt) ->
  exists vs,
    video_stream st' = Some vs
    /\ match video_stream st with
       | Some vs0 => width vs = width vs0 /\ height vs = height vs0
       | None => width vs = pwidth vars /\ height vs = pheight vars
       end.
Proof.
  cbv zeta. unfold capture.
  destruct (take_screenshot (shot it) (buffer st)) as [res b]. cbn [fst snd].
  intros Hres. replace (res <? 0) with false by lia.
  cbn [set_buffer buffer video_stream].
  set (vars := snd (sscanf_P6 b (locals it))).
  intros Hrun.
  apply pbind_done in Hrun as (st1 & [] & Hnew & Hrun).
  apply pbind_done in Hrun as (st2 & [] & Hupd & Hrun).
  apply pbind_done in Hrun as (st3 & g & Henc & Hrun).
  injection Hrun as <-.
  apply on_stream_done in Hupd as (vs1 & vs2 & Hs1 & Hupd & ->).
  apply on_stream_done in Henc as (vs2' & vs3 & Hs2 & Henc & ->).
  cbn [video_stream set_video_stream] in Hs2. injection Hs2 as <-.
  apply bind_done in Hupd as (vs2' & Hupd & Heq).
  injection Heq as ->.
  apply update_image_done in Hupd as (Hw2 & Hh2 & _).
  pose proof (encode_frame_post vs2 false) as Hpost. cbv zeta in Hpost.
  apply (post_done _ _ _ _ Hpost) in Henc as (_ & _ & _ & Hw3 & Hh3 & _).
  cbn [snd] in *.
  exists vs3. split; [done|].
  destruct (video_stream st) as [vs0|] eqn:Evs.
  - injection Hnew as <-. cbn [video_stream set_buffer] in Hs1.
    rewrite Evs in Hs1. injection Hs1 as <-. split; congruence.
  - destruct (new_writer limit (pwidth vars) (pheight vars)) as [vs| | |] eqn:En;
      try done.
    injection Hnew as <-. cbn [video_stream set_video_stream] in Hs1.
    injection Hs1 as <-.
    apply new_writer_done in En as (_ & Hw1 & Hh1 & _).
    split; congruence.
Qed.

(** A turn of the loop ends in [fatal] only with a diagnostic of the
    writer. *)
Lemma capture_fatal (limit : option nat) (it : iteration) st st' (d : string) :
  capture limit it st = (st', Fatal d) -> In d writer_diagnostics.
Proof.
  unfold capture.
  destruct (take_screenshot (shot it) (buffer st)) as [res b].
  destruct (res <? 0); [done|].
  cbn [set_buffer buffer video_stream].
  intros Hrun.
  apply pbind_fatal in Hrun as [Hnew|(st1 & [] & Hnew & Hrun)].
  { destruct (video_stream st); [done|].
    destruct (new_writer limit _ _) as [vs| | |] eqn:En; try done.
    injection Hnew as <- <-. by apply new_writer_fatal in En. }
  apply pbind_fatal in Hrun as [Hupd|(st2 & [] & Hupd & Hrun)].
  { apply on_stream_fatal in Hupd as (vs & _ & Hupd).
    apply bind_fatal in Hupd as [Hupd|(vs' & _ & Hupd)]; [|done].
    by apply update_image_not_fatal in Hupd. }
  apply pbind_fatal in Hrun as [Henc|(st3 & g & Henc & Hrun)]; [|done].
  apply on_stream_fatal in Henc as (vs & _ & Henc).
  by apply encode_frame_fatal in Henc.
Qed.


(** A turn whose screenshot fails changes the buffer at most. *)
Lemma capture_no_screenshot (limit : option nat) (it : iteration) st :
  fst (take_screenshot (shot it) (buffer st)) < 0 ->
  capture limit it st
  = (set_buffer (snd (take_screenshot (shot it) (buffer st))) st, Done tt).
Proof.
  unfold capture.
  destruct (take_screenshot (shot it) (buffer st)) as [res b]. cbn [fst snd].
  intros Hres. by replace (res <? 0) with true by lia.
Qed.

(** C8.  When every screenshot before the stop signal fails, so that no
    writer was ever created, [main] comes to line 429 with [video_stream]
    null and reads [video_stream->frames_encoded] through it, two lines
    before the test [if (video_stream)]: the behaviour is undefined from
    there, and [fatal] is not called.  Up to that point nothing was
    flushed, no command was run on the temporary file, and there is no
    temporary file. *)
Theorem no_frame_no_container (limit : option nat) (fuel : nat)
    (merge_status unlink_status : Z) (its : list iteration) :
  Forall (fun it => forall b, fst (take_screenshot (shot it) b) < 0) its ->
  exists st : world (codec_t := codec_t),
    main limit fuel merge_status unlink_status its
    = (st, Trap "video_stream is null")
    /\ video_stream st = None
    /\ tmp_file st = None
    /\ closed st = None
    /\ trace st = [].
Proof.
  intros Hits. unfold main.
  assert (Hloop : forall st,
            video_stream st = None -> closed st = None -> trace st = [] ->
            exists st', capture_loop limit its st = (st', Done tt)
                        /\ video_stream st' = None /\ closed st' = None
                        /\ trace st' = []).
  { induction Hits as [|it its Hit _ IH]; intros st Hv Hc Ht.
    - by exists st.
    - cbn [capture_loop]. rewrite capture_no_screenshot by apply Hit.
      cbn [pbind]. by apply IH. }
  destruct (Hloop (mkWorld [] None None [])) as (st & Hrun & Hv & Hc & Ht);
    try done.
  rewrite Hrun. cbn [pbind]. unfold finish, on_stream. rewrite Hv.
  cbn [pbind]. exists st. split; [done|].
  unfold tmp_file. by rewrite Hv.
Qed.

End CaptureLoop.

(** ** The whole of [main], on an encoder with finite lookahead *)

Section MainSession.

Context {codec_t : Type} `{!VpxCodec codec_t}.
Variable pending : codec_t -> nat.
Hypothesis lookahead : Lookahead pending.
Variable limit : option nat.
Hypothesis header_room : allows limit 32.

Implicit Types st : world (codec_t := codec_t).

Local Abbreviation running := (running pending limit).
Local Abbreviation balanced := (balanced pending).

Lemma balanced_update_image (w w' : IVFVPX9Writer codec_t) (p : pointer) :
  update_image w p = Done w' ->
  balanced w ->
  balanced w' /\ frames_encoded w' = frames_encoded w
  /\ f_limit (outfile w') = f_limit (outfile w).
Proof.
  intros Hupd [Hc H0 Hp Hr].
  apply update_image_done in Hupd as (_ & _ & Ho & Hfw & Hfe & Hcd).
  split_and!; [split| |]; unfold inside in *; congruence.
Qed.

(** A turn of the loop that returns keeps the loop running, with one
    more image when the screenshot call delivered one. *)
Lemma capture_running (it : iteration) st st' (n : Z) :
  running n st ->
  n + (if finished (shot it) then 1 else 0) < 2 ^ 31 ->
  capture limit it st = (st', Done tt) ->
  running (n + (if finished (shot it) then 1 else 0)) st'.
Proof.
  intros [Hcl Hvs] Hmax.
  destruct (shot it) as [|received|received] eqn:Eshot.
  - rewrite capture_no_screenshot by (by rewrite Eshot).
    intros [= <-]. rewrite Z.add_0_r. by split.
  - rewrite capture_no_screenshot by (by rewrite Eshot).
    intros [= <-]. rewrite Z.add_0_r. by split.
  - unfold capture. rewrite Eshot. cbn [take_screenshot].
    assert (Hres : (Z.of_nat (length (take_upto SIZE received)) <? 0) = false)
      by (apply Z.ltb_ge, Nat2Z.is_nonneg).
    rewrite Hres.
    cbn [set_buffer buffer video_stream closed trace].
    intros Hrun.
    apply pbind_done in Hrun as (st1 & [] & Hnew & Hrun).
    apply pbind_done in Hrun as (st2 & [] & Hupd & Hrun).
    apply pbind_done in Hrun as (st3 & g & Henc & Hrun).
    injection Hrun as <-.
    apply on_stream_done in Hupd as (vs1 & vs2 & Hs1 & Hupd & ->).
    apply on_stream_done in Henc as (vs2' & vs3 & Hs2 & Henc & ->).
    cbn [video_stream set_video_stream] in Hs2. injection Hs2 as <-.
    apply bind_done in Hupd as (vs2' & Hupd & Heq). injection Heq as ->.
    assert (H1 : balanced vs1 /\ frames_encoded vs1 = n
                 /\ f_limit (outfile vs1) = limit /\ closed st1 = None).
    { destruct (video_stream st) as [vs0|] eqn:Evs.
      - injection Hnew as <-. cbn [video_stream closed set_buffer] in *.
        rewrite Evs in Hs1. injection Hs1 as <-. by destruct Hvs as (?&?&?).
      - pose proof (new_writer_post pending lookahead limit
                      (pwidth (sscanf_P6 (receive received (buffer st))
                                         (locals it)).2)
                      (pheight (sscanf_P6 (receive received (buffer st))
                                          (locals it)).2)
                      header_room) as Hpost.
        destruct (new_writer limit _ _) as [vs| | |]; try done.
        injection Hnew as <-.
        cbn [video_stream set_video_stream closed set_buffer] in *.
        injection Hs1 as <-. destruct Hpost as (Hb & Hfe & Hl & _).
        split_and!; try done. congruence. }
    destruct H1 as (Hb1 & Hfe1 & Hl1 & Hcl1).
    destruct (balanced_update_image _ _ _ Hupd Hb1) as (Hb2 & Hfe2 & Hl2).
    pose proof (encode_frame_live_post pending lookahead vs2 Hb2) as Hpost.
    cbn [finished] in Hmax.
    apply (post_done _ _ _ _ (Hpost ltac:(lia))) in Henc
      as (Hb3 & (_ & _ & Hl3 & _) & Hfe3).
    cbn [snd] in *. split; [done|].
    cbn [video_stream set_video_stream].
    split_and!; [done|cbn [finished]; lia|congruence].
Qed.

Lemma capture_loop_running (its : list iteration) st st' (n : Z) :
  running n st ->
  n + Z.of_nat (captured its) < 2 ^ 31 ->
  capture_loop limit its st = (st', Done tt) ->
  running (n + Z.of_nat (captured its)) st'.
Proof.
  revert st n. induction its as [|it its IH]; intros st n Hr Hmax.
  - cbn. intros [= <-]. by rewrite Z.add_0_r.
  - cbn [capture_loop]. intros Hrun.
    apply pbind_done in Hrun as (st1 & [] & Hcap & Hrun).
    assert (Hcount : Z.of_nat (captured (it :: its))
                     = (if finished (shot it) then 1 else 0)
                       + Z.of_nat (captured its)).
    { unfold captured. rewrite filter_cons.
      destruct (finished (shot it)); cbn [decide_rel]; [|done].
      rewrite decide_True by done. cbn [length]. lia. }
    rewrite Hcount in *.
    assert (0 <= Z.of_nat (captured its)) by lia.
    apply (capture_running it st st1 n) in Hcap; [|done|lia].
    apply (IH st1 (n + (if finished (shot it) then 1 else 0))) in Hrun;
      [|done|lia].
    by rewrite <- Z.add_assoc in Hrun.
Qed.

(** When [main] returns after [n] images, the file the destructor closed
    has [n] in its stream header. *)
Lemma main_returns (fuel : nat) (merge_status unlink_status : Z)
    (its : list iteration) st :
  (0 < captured its)%nat ->
  Z.of_nat (captured its) < 2 ^ 31 ->
  (captured its < fuel)%nat ->
  main limit fuel merge_status unlink_status its = (st, Done 0) ->
  exists f,
    closed st = Some f
    /\ video_stream st = None
    /\ header_frame_count (f_data f) = Z.of_nat (captured its).
Proof.
  intros Hpos Hmax Hfuel. unfold main. intros Hrun.
  apply pbind_done in Hrun as (st1 & [] & Hloop & Hrun).
  apply (capture_loop_running its _ st1 0) in Hloop; [|by split|lia].
  rewrite Z.add_0_l in Hloop. destruct Hloop as [Hcl Hvs].
  unfold finish in Hrun.
  apply pbind_done in Hrun as (st2 & fe & Hderef & Hrun).
  apply on_stream_done in Hderef as (vs & vs' & Hs & Heq & ->).
  injection Heq as _ <-.
  rewrite Hs in Hvs. destruct Hvs as (Hb & Hfe & Hl).
  apply pbind_done in Hrun as (st3 & [] & Hflush & Hrun).
  cbn [video_stream set_video_stream] in Hflush.
  apply pbind_done in Hflush as (st4 & [] & Hflush & Heq).
  injection Heq as <-.
  apply on_stream_done in Hflush as (vs0 & vs1 & Hs0 & Hflush & ->).
  cbn [video_stream set_video_stream] in Hs0. injection Hs0 as <-.
  apply bind_done in Hflush as (vs1' & Hflush & Heq). injection Heq as ->.
  destruct (decide (merge_status ≠ 0)); [done|].
  cbn [log video_stream set_video_stream closed buffer trace] in Hrun.
  destruct (destroy fuel vs1) as [f| | |] eqn:Ed; try done.
  injection Hrun as <-. cbn [closed video_stream].
  exists f. split_and!; [done|done|].
  assert (Hin : (inside pending vs <= captured its)%nat).
  { destruct Hb as [Hc H0 _ _]. lia. }
  pose proof (shutdown_post pending lookahead fuel vs Hb ltac:(lia) ltac:(lia))
    as Hpost.
  rewrite Hflush in Hpost. cbn [obind] in Hpost. rewrite Ed in Hpost.
  cbn [post] in Hpost. by rewrite Hpost.
Qed.

End MainSession.

(** C6. A session of exactly 10 live frames, then the explicit [flush()]
    and the destructor, ends with 10 in the frame-count field of the stream
    header, whatever the number of flush submissions the encoder needed to
    give back the frames it held: this holds for every encoder with finite
    lookahead, the session neither traps nor loops, and on a device without
    limit it does return.  The same holds of [main] as a whole: when it
    returns after 10 captured images, the file its destructor closed has 10
    in the header. *)
Theorem ten_frame_session {codec_t : Type} `{!VpxCodec codec_t}
    (pending : codec_t -> nat) (limit : option nat) (fuel : nat)
    (width0 height0 : Z) (images : list vpx_image_t) :
  Lookahead pending ->
  allows limit 32 ->
  length images = 10%nat ->
  (10 < fuel)%nat ->
  let run := session limit fuel width0 height0 images in
  (forall f, run = Done f -> header_frame_count (f_data f) = 10)
  /\ (forall t, run <> Trap t)
  /\ run <> OutOfFuel
  /\ (limit = None ->
      exists f, run = Done f /\ header_frame_count (f_data f) = 10)
  /\ (forall merge_status unlink_status its st,
        captured its = 10%nat ->
        main limit fuel merge_status unlink_status its = (st, Done 0) ->
        exists f,
          closed st = Some f /\ video_stream st = None
          /\ header_frame_count (f_data f) = 10).
Proof.
  intros Hla Hroom Hlen Hfuel run.
  pose proof (session_post pending Hla limit fuel width0 height0 images Hroom)
    as Hpost.
  rewrite Hlen in Hpost. specialize (Hpost ltac:(lia) Hfuel).
  fold run in Hpost. change (Z.of_nat 10) with 10 in Hpost.
  split_and!.
  - intros f Hf. by rewrite Hf in Hpost.
  - intros t Ht. by rewrite Ht in Hpost.
  - intros Ht. by rewrite Ht in Hpost.
  - intros ->. apply (post_returns _ _ _ Hpost). by intros H.
  - intros merge_status unlink_status its st Hcap Hmain.
    pose proof (main_returns pending Hla limit Hroom fuel merge_status
                  unlink_status its st) as Hret.
    rewrite Hcap in Hret. apply Hret; (done || lia).
Qed.


(** ** Stores read back *)

Section ReadBack.

Lemma sub_bytes_middle (pre mid post : list Z) :
  sub_bytes (length pre) (length mid) (pre ++ mid ++ post) = mid.
Proof.
  unfold sub_bytes. rewrite drop_app_length.
  by rewrite take_app_length.
Qed.

(** X1. A value stored by [mem_put_le16] or [mem_put_le32] inside an
    array reads back, least significant byte first, as the value modulo
    2^16 or 2^32; the array keeps its length and every other byte. *)
Theorem mem_put_read_back (vmem : list Z) (off : nat) (val : Z) :
  (off + 4 <= length vmem)%nat ->
  let m16 := mem_put_le16 vmem off val in
  let m32 := mem_put_le32 vmem off val in
  length m16 = length vmem
  /\ le_value (sub_bytes off 2 m16) = val mod 2 ^ 16
  /\ (forall i : nat, ~ (off <= i < off + 2)%nat -> m16 !! i = vmem !! i)
  /\ length m32 = length vmem
  /\ le_value (sub_bytes off 4 m32) = val mod 2 ^ 32
  /\ (forall i : nat, ~ (off <= i < off + 4)%nat -> m32 !! i = vmem !! i).
Proof.
  intros Hlen. cbv zeta.
  assert (Hstore : forall k : nat, (off + k <= length vmem)%nat ->
            let m := take off vmem ++ le_bytes k val ++ drop (off + k) vmem in
            length m = length vmem
            /\ le_value (sub_bytes off k m) = val mod 256 ^ Z.of_nat k
            /\ (forall i : nat, ~ (off <= i < off + k)%nat -> m !! i = vmem !! i)).
  { intros k Hk. cbv zeta. split_and!.
    - rewrite !length_app, length_take, length_drop, le_bytes_length. lia.
    - assert (Ht : length (take off vmem) = off) by (rewrite length_take; lia).
      rewrite <- Ht at 1. rewrite <- (le_bytes_length k val) at 1.
      by rewrite sub_bytes_middle, le_value_le_bytes.
    - intros i Hi. destruct (decide (i < off)%nat).
      + rewrite lookup_app_l by (rewrite length_take; lia).
        by rewrite lookup_take_lt.
      + rewrite lookup_app_r by (rewrite length_take; lia).
        rewrite lookup_app_r by (rewrite length_take, le_bytes_length; lia).
        rewrite lookup_drop, length_take, le_bytes_length. f_equal. lia. }
  rewrite mem_put_le16_spec, mem_put_le32_spec by lia.
  destruct (Hstore 2%nat ltac:(lia)) as (H1 & H2 & H3).
  destruct (Hstore 4%nat ltac:(lia)) as (H4 & H5 & H6).
  split_and!; done.
Qed.

(** X2. The record header of a frame reads back: the first field is the
    payload size modulo 2^32, and the second and third fields are the low
    and the high half of the time stamp, which together give it back as a
    64-bit two's complement number. *)
Theorem frame_header_read_back (header : list Z) (pts : Z) (size : nat) :
  length header = 12%nat ->
  let h := frame_header header pts (to_uint32 (Z.of_nat size)) in
  length h = 12%nat
  /\ le_value (sub_bytes 0 4 h) = Z.of_nat size mod 2 ^ 32
  /\ le_value (sub_bytes 4 4 h) + 2 ^ 32 * le_value (sub_bytes 8 4 h)
     = pts mod 2 ^ 64
  /\ (0 <= pts < 2 ^ 63 ->
      le_value (sub_bytes 4 4 h) + 2 ^ 32 * le_value (sub_bytes 8 4 h) = pts)
  /\ (- 2 ^ 63 <= pts < 0 ->
      le_value (sub_bytes 4 4 h) + 2 ^ 32 * le_value (sub_bytes 8 4 h)
      = pts + 2 ^ 64).
Proof.
  intros Hlen. cbv zeta. rewrite frame_header_any by done.
  set (a := le_bytes 4 (Z.of_nat size)).
  set (b := le_bytes 4 pts). set (c := le_bytes 4 (pts / 2 ^ 32)).
  assert (Ha : sub_bytes 0 4 (a ++ b ++ c) = a).
  { apply (sub_bytes_middle [] a (b ++ c)). }
  assert (Hb : sub_bytes 4 4 (a ++ b ++ c) = b).
  { apply (sub_bytes_middle a b c). }
  assert (Hc : sub_bytes 8 4 (a ++ b ++ c) = c).
  { replace (a ++ b ++ c) with ((a ++ b) ++ c ++ []) by
      (by rewrite app_nil_r, app_assoc).
    apply (sub_bytes_middle (a ++ b) c []). }
  rewrite Ha, Hb, Hc. subst a b c. rewrite !le_value_le_bytes.
  change (256 ^ Z.of_nat 4) with (2 ^ 32).
  assert (Hpts : pts mod 2 ^ 32 + 2 ^ 32 * ((pts / 2 ^ 32) mod 2 ^ 32)
                 = pts mod 2 ^ 64).
  { change (2 ^ 64) with (2 ^ 32 * 2 ^ 32). by rewrite Z.rem_mul_r. }
  split_and!; try done.
  - intros Hr. rewrite Hpts. apply Z.mod_small. lia.
  - intros Hr. rewrite Hpts.
    rewrite <- (Z.mod_add pts 1 (2 ^ 64)) by lia.
    apply Z.mod_small. lia.
Qed.

(** X3. The stream header reads back: width and height come back modulo
    2^16 and the frame count modulo 2^32, so that they are the values
    stored when those are below the bound, and a width of 65536 more gives
    the same header. *)
Theorem file_header_read_back (header : list Z) (w h n : Z) :
  length header = 32%nat ->
  let hd := file_header header w h n in
  le_value (sub_bytes 12 2 hd) = w mod 2 ^ 16
  /\ le_value (sub_bytes 14 2 hd) = h mod 2 ^ 16
  /\ le_value (sub_bytes 24 4 hd) = n mod 2 ^ 32
  /\ le_value (sub_bytes 6 2 hd) = Z.of_nat (length hd)
  /\ (0 <= w < 2 ^ 16 -> le_value (sub_bytes 12 2 hd) = w)
  /\ (0 <= h < 2 ^ 16 -> le_value (sub_bytes 14 2 hd) = h)
  /\ (0 <= n < 2 ^ 32 -> le_value (sub_bytes 24 4 hd) = n)
  /\ file_header header (w + 2 ^ 16) h n = hd
  /\ file_header header w (h + 2 ^ 16) n = hd.
Proof.
  intros Hlen. cbv zeta. rewrite !file_header_any by done.
  assert (Hw : sub_bytes 12 2 (header_layout w h n) = le_bytes 2 w) by done.
  assert (Hh : sub_bytes 14 2 (header_layout w h n) = le_bytes 2 h) by done.
  assert (Hn : sub_bytes 24 4 (header_layout w h n) = le_bytes 4 n) by done.
  assert (Hs : sub_bytes 6 2 (header_layout w h n) = le_bytes 2 32) by done.
  rewrite Hw, Hh, Hn, Hs, !le_value_le_bytes, header_layout_length.
  change (256 ^ Z.of_nat 2) with (2 ^ 16).
  change (256 ^ Z.of_nat 4) with (2 ^ 32).
  assert (Hmod : forall v, le_bytes 2 (v + 2 ^ 16) = le_bytes 2 v).
  { intros v. rewrite <- (le_bytes_mod 2 (v + 2 ^ 16)), <- (le_bytes_mod 2 v).
    f_equal. change (256 ^ Z.of_nat 2) with (2 ^ 16).
    rewrite <- (Z.mod_add v 1 (2 ^ 16)) by lia. by rewrite Z.mul_1_l. }
  split_and!; try done.
  - intros Hr. by apply Z.mod_small.
  - intros Hr. by apply Z.mod_small.
  - intros Hr. by apply Z.mod_small.
  - unfold header_layout. by rewrite Hmod.
  - unfold header_layout. by rewrite Hmod.
Qed.

End ReadBack.

(** ** The range of the samples *)

Section SampleRange.

Lemma clamp_in_range (x : Z) : 0 <= x <= 255 -> clamp x = x.
Proof.
  intros Hx. unfold clamp, to_uint8.
  replace (Z.max (Z.min x 255) 0) with x by lia. apply Z.mod_small. lia.
Qed.

Lemma clamp_bounds (x : Z) :
  0 <= clamp x <= 255
  /\ (x <= 0 -> clamp x = 0) /\ (255 <= x -> clamp x = 255).
Proof.
  unfold clamp, to_uint8.
  pose proof (Z.mod_pos_bound (Z.max (Z.min x 255) 0) 256).
  split; [lia|]. split.
  - intros Hx. by replace (Z.max (Z.min x 255) 0) with 0 by lia.
  - intros Hx. by replace (Z.max (Z.min x 255) 0) with 255 by lia.
Qed.

Lemma channel_byte (buffer : pointer) (wd y x k : Z) :
  Forall (fun b => 0 <= b <= 255) (block buffer) ->
  0 <= channel buffer wd y x k <= 255.
Proof.
  intros Hb. unfold channel.
  destruct (block buffer !! _) as [b|] eqn:E; cbn; [|lia].
  rewrite Forall_forall in Hb. apply Hb.
  apply list_elem_of_In. by eapply list_elem_of_lookup_2.
Qed.

(** On bytes, the three formulas stay inside the range of [clamp]. *)
Lemma sample_ranges (buffer : pointer) (wd y x : Z) :
  Forall (fun b => 0 <= b <= 255) (block buffer) ->
  16 <= luma_at buffer wd y x <= 235
  /\ 17 <= chroma_u_at buffer wd y x <= 240
  /\ 17 <= chroma_v_at buffer wd y x <= 240.
Proof.
  intros Hb. unfold luma_at, chroma_u_at, chroma_v_at.
  pose proof (channel_byte buffer wd y x 0 Hb) as Hr.
  pose proof (channel_byte buffer wd y x 1 Hb) as Hg.
  pose proof (channel_byte buffer wd y x 2 Hb) as Hbl.
  set (r := channel buffer wd y x 0) in *.
  set (g := channel buffer wd y x 1) in *.
  set (b := channel buffer wd y x 2) in *.
  assert (Hy : 0 <= Z.quot (66 * r + 129 * g + 25 * b + 128) 256 <= 219)
    by (Z.to_euclidean_division_equations; lia).
  assert (Hu : -111 <= Z.quot (-38 * r - 74 * g + 112 * b + 128) 256 <= 112)
    by (Z.to_euclidean_division_equations; lia).
  assert (Hv : -111 <= Z.quot (112 * r - 94 * g - 18 * b + 128) 256 <= 112)
    by (Z.to_euclidean_division_equations; lia).
  rewrite !clamp_in_range by lia. lia.
Qed.

End SampleRange.

(** ** The conversion, for every image *)

Section Conversion.

Lemma luma_sample_rgb :
  luma_sample
  = rgb_sample (fun r g b => Z.quot (66 * r + 129 * g + 25 * b + 128) 256 + 16).
Proof. reflexivity. Qed.

Lemma chroma_u_sample_rgb :
  chroma_u_sample
  = rgb_sample (fun r g b => Z.quot (-38 * r - 74 * g + 112 * b + 128) 256 + 128).
Proof. reflexivity. Qed.

Lemma chroma_v_sample_rgb :
  chroma_v_sample
  = rgb_sample (fun r g b => Z.quot (112 * r - 94 * g - 18 * b + 128) 256 + 128).
Proof. reflexivity. Qed.

Lemma load_readable (p : pointer) (wd y x k : Z) :
  readable p wd y x -> 0 <= k <= 2 ->
  load p (to_int ((y * wd + x) * 3) + k) = Done (channel p wd y x k).
Proof.
  intros (H0 & Hmax & Hlo & Hhi) Hk. unfold load, channel.
  assert (Ho : to_int ((y * wd + x) * 3) = (y * wd + x) * 3).
  { unfold to_int. rewrite Z.mod_small by lia. lia. }
  rewrite Ho.
  replace ((0 <=? offset p + ((y * wd + x) * 3 + k))
           && (offset p + ((y * wd + x) * 3 + k) <? block_size p))
    with true by lia.
  by rewrite Z.add_assoc.
Qed.

Lemma rgb_sample_readable (f : Z -> Z -> Z -> Z) (p : pointer) (wd y x : Z)
    (k : nat) (dest : list Z) :
  readable p wd y x -> (k < length dest)%nat ->
  rgb_sample f wd p y x (k, dest)
  = Done (S k, <[k := stored f p wd y x]> dest).
Proof.
  intros Hr Hk. unfold rgb_sample.
  pose proof (load_readable p wd y x 0 Hr ltac:(lia)) as H0.
  rewrite Z.add_0_r in H0. rewrite H0. cbn [obind].
  rewrite (load_readable p wd y x 1 Hr) by lia. cbn [obind].
  rewrite (load_readable p wd y x 2 Hr) by lia. cbn [obind].
  unfold store. by rewrite decide_True by done.
Qed.

(** X4. On a buffer of bytes, each of the three loop bodies stores, for a
    pixel inside the buffer, a value of the studio range: luma between 16
    and 235, chroma between 17 and 240; [clamp] never has anything to cut. *)
Theorem samples_in_studio_range (buffer : pointer) (wd y x : Z) (k : nat)
    (dest : list Z) :
  Forall (fun b => 0 <= b <= 255) (block buffer) ->
  readable buffer wd y x -> (k < length dest)%nat ->
  exists vy vu vv,
    luma_sample wd buffer y x (k, dest) = Done (S k, <[k := vy]> dest)
    /\ chroma_u_sample wd buffer y x (k, dest) = Done (S k, <[k := vu]> dest)
    /\ chroma_v_sample wd buffer y x (k, dest) = Done (S k, <[k := vv]> dest)
    /\ 16 <= vy <= 235 /\ 17 <= vu <= 240 /\ 17 <= vv <= 240.
Proof.
  intros Hb Hr Hk.
  exists (luma_at buffer wd y x), (chroma_u_at buffer wd y x),
    (chroma_v_at buffer wd y x).
  rewrite luma_sample_rgb, chroma_u_sample_rgb, chroma_v_sample_rgb.
  rewrite !rgb_sample_readable by done.
  pose proof (sample_ranges buffer wd y x Hb) as (Hy & Hu & Hv).
  split_and!; first [reflexivity | lia].
Qed.

(** One row: the samples go to [dest] from [k] on, in the order of the
    columns. *)
Lemma row_filled (f : Z -> Z -> Z -> Z) (p : pointer) (wd y : Z)
    (xs : list Z) (k : nat) (dest : list Z) :
  Forall (readable p wd y) xs ->
  (k + length xs <= length dest)%nat ->
  for_each xs (fun x => rgb_sample f wd p y x) (k, dest)
  = Done ((k + length xs)%nat,
          take k dest ++ (stored f p wd y <$> xs)
            ++ drop (k + length xs) dest).
Proof.
  intros Hxs. revert k dest.
  induction Hxs as [|x xs Hx _ IH]; intros k dest Hlen.
  - cbn. by rewrite Nat.add_0_r, take_drop.
  - cbn [for_each length] in *.
    rewrite rgb_sample_readable by (done || lia). cbn [obind].
    rewrite IH by (rewrite length_insert; lia).
    f_equal. f_equal; [lia|].
    rewrite (take_S_r _ _ (stored f p wd y x))
      by (apply list_lookup_insert_eq; lia).
    rewrite take_insert_ge by lia.
    rewrite drop_insert_lt by lia.
    rewrite fmap_cons, <- app_assoc. cbn [app].
    do 4 f_equal. lia.
Qed.

Lemma samples_length (at_ : Z -> Z -> Z) (ys xs : list Z) :
  length (samples at_ ys xs) = (length ys * length xs)%nat.
Proof.
  unfold samples. induction ys as [|y ys IH]; [done|].
  cbn [fmap list_fmap concat length]. rewrite length_app, length_fmap.
  change (list_fmap _ _ ?g ys) with (g <$> ys). lia.
Qed.

(** The two nested loops of a pass. *)
Lemma plane_filled (f : Z -> Z -> Z -> Z) (p : pointer) (wd : Z)
    (ys xs : list Z) (k : nat) (dest : list Z) :
  Forall (fun y => Forall (readable p wd y) xs) ys ->
  (k + length ys * length xs <= length dest)%nat ->
  for_each ys (fun y => for_each xs (fun x => rgb_sample f wd p y x)) (k, dest)
  = Done ((k + length ys * length xs)%nat,
          take k dest ++ samples (stored f p wd) ys xs
            ++ drop (k + length ys * length xs) dest).
Proof.
  intros Hys. revert k dest.
  induction Hys as [|y ys Hy _ IH]; intros k dest Hlen.
  - cbn. by rewrite Nat.add_0_r, take_drop.
  - cbn [for_each length] in *.
    rewrite row_filled by (done || lia). cbn [obind].
    set (dest1 := take k dest ++ _ ++ _).
    assert (Hl1 : length dest1 = length dest).
    { unfold dest1. rewrite !length_app, length_take, length_fmap, length_drop.
      lia. }
    rewrite IH by lia.
    f_equal. f_equal; [lia|].
    unfold samples. cbn [fmap list_fmap concat].
    change (list_fmap _ _ ?g ys) with (g <$> ys).
    fold (samples (stored f p wd) ys xs).
    assert (Ht : take (k + length xs) dest1
                 = take k dest ++ (stored f p wd y <$> xs)).
    { unfold dest1. rewrite app_assoc.
      rewrite take_app_length'; [done|].
      rewrite length_app, length_take, length_fmap. lia. }
    assert (Hd : drop (k + length xs + length ys * length xs) dest1
                 = drop (k + (length xs + length ys * length xs)) dest).
    { unfold dest1. rewrite app_assoc.
      rewrite drop_app_ge
        by (rewrite length_app, length_take, length_fmap; lia).
      rewrite length_app, length_take, length_fmap, drop_drop.
      f_equal. lia. }
    rewrite Ht, Hd, <- !app_assoc. done.
Qed.

(** The values of a loop variable lie between 0 and the bound. *)
Lemma c_range_bounds (stop step e : Z) :
  0 < step -> e ∈ c_range stop step -> 0 <= e < stop.
Proof.
  intros Hstep. unfold c_range.
  intros (k & -> & Hk)%list_elem_of_fmap.
  apply elem_of_seq in Hk as [_ Hk]. cbn in Hk.
  assert (Hq : Z.of_nat k < (stop + step - 1) / step) by lia.
  pose proof (Z.mul_div_le (stop + step - 1) step Hstep).
  nia.
Qed.

Lemma c_range_length (stop step : Z) :
  length (c_range stop step) = Z.to_nat ((stop + step - 1) / step).
Proof. unfold c_range. by rewrite length_fmap, length_seq. Qed.

Lemma c_range_lookup (stop step : Z) (i : nat) :
  (i < length (c_range stop step))%nat ->
  c_range stop step !! i = Some (Z.of_nat i * step).
Proof.
  rewrite c_range_length. intros Hi. unfold c_range.
  rewrite list_lookup_fmap, lookup_seq_lt by done. done.
Qed.

(** Sample [i * n + j] of a pass is that of row [ys !! i] and column
    [xs !! j], [n] being the number of columns. *)
Lemma samples_lookup (at_ : Z -> Z -> Z) (ys xs : list Z) (i j : nat) (y x : Z) :
  ys !! i = Some y -> xs !! j = Some x ->
  samples at_ ys xs !! (i * length xs + j)%nat = Some (at_ y x).
Proof.
  intros Hy Hx. revert i Hy. unfold samples.
  induction ys as [|y0 ys IH]; intros i Hy; [done|].
  cbn [fmap list_fmap concat].
  change (list_fmap _ _ ?g ys) with (g <$> ys).
  destruct i as [|i]; cbn in Hy.
  - injection Hy as ->. cbn [Nat.mul Nat.add].
    rewrite lookup_app_l
      by (rewrite length_fmap; by apply lookup_lt_Some in Hx).
    by rewrite list_lookup_fmap, Hx.
  - rewrite lookup_app_r by (rewrite length_fmap; cbn; lia).
    rewrite length_fmap.
    replace (S i * length xs + j - length xs)%nat
      with (i * length xs + j)%nat by (cbn; lia).
    by apply IH.
Qed.

End Conversion.

Lemma c_range_1_length (n : Z) :
  0 <= n -> length (c_range n 1) = Z.to_nat n.
Proof.
  intros Hn. rewrite c_range_length. f_equal.
  rewrite Z.div_1_r. lia.
Qed.

Lemma c_range_2_length (n : Z) :
  0 <= n -> length (c_range n 2) = Z.to_nat ((n + 1) / 2).
Proof.
  intros Hn. rewrite c_range_length. do 2 f_equal. lia.
Qed.

Section UpdateImage.

Context {codec_t : Type}.

Implicit Types w : IVFVPX9Writer codec_t.

Lemma range_readable (p : pointer) (wd ht step : Z) :
  0 < step -> 0 <= wd -> 0 <= ht ->
  3 * wd * ht < 2 ^ 31 ->
  0 <= offset p -> offset p + 3 * wd * ht <= block_size p ->
  Forall (fun y => Forall (readable p wd y) (c_range wd step)) (c_range ht step).
Proof.
  intros Hs Hw Hh Hmax Ho Hsize.
  apply Forall_forall. intros y Hy%list_elem_of_In%(c_range_bounds _ _ _ Hs).
  apply Forall_forall. intros x Hx%list_elem_of_In%(c_range_bounds _ _ _ Hs).
  unfold readable.
  assert (y * wd + x <= ht * wd - 1) by nia.
  assert (0 <= y * wd + x) by nia.
  nia.
Qed.

(** The three passes, on an image whose planes are large enough and a
    buffer that holds the [3 * width * height] bytes of the pixels. *)
Lemma update_image_planes w (p : pointer) (py pu pv : list Z)
    (rest : list (list Z)) :
  planes (img w) = py :: pu :: pv :: rest ->
  0 <= width w -> 0 <= height w ->
  3 * width w * height w < 2 ^ 31 ->
  0 <= offset p -> offset p + 3 * width w * height w <= block_size p ->
  (length (c_range (height w) 1) * length (c_range (width w) 1)
   <= length py)%nat ->
  (length (c_range (height w) 2) * length (c_range (width w) 2)
   <= Nat.min (length pu) (length pv))%nat ->
  update_image w p
  = Done (set_img
            (mkImage
               (filled (samples (luma_at p (width w))
                          (c_range (height w) 1) (c_range (width w) 1)) py
                :: filled (samples (chroma_u_at p (width w))
                             (c_range (height w) 2) (c_range (width w) 2)) pu
                :: filled (samples (chroma_v_at p (width w))
                             (c_range (height w) 2) (c_range (width w) 2)) pv
                :: rest))
            w).
Proof.
  intros Hpl Hw Hh Hmax Ho Hsize Hy Huv.
  pose proof (range_readable p (width w) (height w) 1 ltac:(lia)
                Hw Hh Hmax Ho Hsize) as Hr1.
  pose proof (range_readable p (width w) (height w) 2 ltac:(lia)
                Hw Hh Hmax Ho Hsize) as Hr2.
  unfold update_image. cbv zeta.
  rewrite luma_sample_rgb, chroma_u_sample_rgb, chroma_v_sample_rgb.
  rewrite Hpl. cbn [lookup_total list_lookup_total].
  rewrite plane_filled by (done || (cbn [Nat.add]; lia)).
  cbn [obind snd]. unfold set_plane.
  cbn [img set_img planes width height].
  rewrite Hpl.
  cbn [insert list_insert lookup_total list_lookup_total].
  rewrite plane_filled by (done || (cbn [Nat.add]; lia)).
  cbn [obind snd insert list_insert lookup_total list_lookup_total].
  rewrite plane_filled by (done || (cbn [Nat.add]; lia)).
  cbn [obind snd insert list_insert].
  unfold filled. rewrite !samples_length. cbn [take app Nat.add].
  reflexivity.
Qed.

(** X5. On an image of [width] by [height] pixels, with planes of that
    size and a buffer that holds all the pixels, [update_image] returns and
    the luma plane holds, at index [y * width + x], the luma of the pixel
    at column [x] of row [y]; nothing of the writer but the image changes. *)
Theorem update_image_luma w (p : pointer) (py pu pv : list Z)
    (rest : list (list Z)) :
  planes (img w) = py :: pu :: pv :: rest ->
  0 <= width w -> 0 <= height w ->
  3 * width w * height w < 2 ^ 31 ->
  0 <= offset p -> offset p + 3 * width w * height w <= block_size p ->
  width w * height w <= Z.of_nat (length py) ->
  ((width w + 1) / 2) * ((height w + 1) / 2)
  <= Z.of_nat (Nat.min (length pu) (length pv)) ->
  exists w',
    update_image w p = Done w'
    /\ w' = set_img (img w') w
    /\ length (planes (img w') !!! 0%nat) = length py
    /\ forall y x, 0 <= y < height w -> 0 <= x < width w ->
         (planes (img w') !!! 0%nat) !! Z.to_nat (y * width w + x)
         = Some (luma_at p (width w) y x).
Proof.
  intros Hpl Hw Hh Hmax Ho Hsize Hy Huv.
  pose proof c_range_1_length as Hl1.
  pose proof c_range_2_length as Hl2.
  eexists. split.
  - apply (update_image_planes w p py pu pv rest); try done.
    + rewrite !Hl1 by done. nia.
    + rewrite !Hl2 by done.
      assert (0 <= (width w + 1) / 2) by (apply Z.div_pos; lia).
      assert (0 <= (height w + 1) / 2) by (apply Z.div_pos; lia).
      nia.
  - cbn [img set_img planes lookup_total list_lookup_total].
    split; [by destruct w|].
    assert (Hlen : (length (samples (luma_at p (width w))
                              (c_range (height w) 1) (c_range (width w) 1))
                    <= length py)%nat).
    { rewrite samples_length, !Hl1 by done. nia. }
    split.
    + unfold filled. rewrite length_app, length_drop. lia.
    + intros y x Hy' Hx'. unfold filled.
      assert (Hidx : Z.to_nat (y * width w + x)
                     = (Z.to_nat y * length (c_range (width w) 1)
                        + Z.to_nat x)%nat).
      { rewrite Hl1 by done. nia. }
      rewrite lookup_app_l by (rewrite samples_length, !Hl1 by done; nia).
      rewrite Hidx.
      apply samples_lookup.
      * rewrite c_range_lookup by (rewrite Hl1 by done; lia).
        f_equal. lia.
      * rewrite c_range_lookup by (rewrite Hl1 by done; lia).
        f_equal. lia.
Qed.

(** X6. Under the same conditions the chroma planes are point samples:
    with [cw = (width + 1) / 2] samples per row, index [i * cw + j] of
    plane 1 and of plane 2 holds the U and the V of the pixel at column
    [2 * j] of row [2 * i], for every such pixel of the image, the last
    column and row of an odd-sized image included. *)
Theorem update_image_chroma w (p : pointer) (py pu pv : list Z)
    (rest : list (list Z)) :
  planes (img w) = py :: pu :: pv :: rest ->
  0 <= width w -> 0 <= height w ->
  3 * width w * height w < 2 ^ 31 ->
  0 <= offset p -> offset p + 3 * width w * height w <= block_size p ->
  width w * height w <= Z.of_nat (length py) ->
  ((width w + 1) / 2) * ((height w + 1) / 2)
  <= Z.of_nat (Nat.min (length pu) (length pv)) ->
  exists w',
    update_image w p = Done w'
    /\ forall i j, 0 <= 2 * i < height w -> 0 <= 2 * j < width w ->
         (planes (img w') !!! 1%nat) !! Z.to_nat (i * ((width w + 1) / 2) + j)
         = Some (chroma_u_at p (width w) (2 * i) (2 * j))
         /\ (planes (img w') !!! 2%nat)
              !! Z.to_nat (i * ((width w + 1) / 2) + j)
            = Some (chroma_v_at p (width w) (2 * i) (2 * j)).
Proof.
  intros Hpl Hw Hh Hmax Ho Hsize Hy Huv.
  pose proof c_range_1_length as Hl1.
  pose proof c_range_2_length as Hl2.
  assert (Hcw : 0 <= (width w + 1) / 2) by (apply Z.div_pos; lia).
  assert (Hch : 0 <= (height w + 1) / 2) by (apply Z.div_pos; lia).
  eexists. split.
  - apply (update_image_planes w p py pu pv rest); try done.
    + rewrite !Hl1 by done. nia.
    + rewrite !Hl2 by done. nia.
  - cbn [img set_img planes lookup_total list_lookup_total].
    intros i j Hi Hj.
    assert (Hi' : i + 1 <= (height w + 1) / 2)
      by (apply Z.div_le_lower_bound; lia).
    assert (Hj' : j + 1 <= (width w + 1) / 2)
      by (apply Z.div_le_lower_bound; lia).
    assert (Hidx : Z.to_nat (i * ((width w + 1) / 2) + j)
                   = (Z.to_nat i * length (c_range (width w) 2)
                      + Z.to_nat j)%nat).
    { rewrite Hl2 by done. nia. }
    assert (Hrow : c_range (height w) 2 !! Z.to_nat i = Some (2 * i)).
    { rewrite c_range_lookup by (rewrite Hl2 by done; lia). f_equal. lia. }
    assert (Hcol : c_range (width w) 2 !! Z.to_nat j = Some (2 * j)).
    { rewrite c_range_lookup by (rewrite Hl2 by done; lia). f_equal. lia. }
    unfold filled. rewrite Hidx.
    split.
    + rewrite lookup_app_l by (rewrite samples_length, !Hl2 by done; nia).
      by apply samples_lookup.
    + rewrite lookup_app_l by (rewrite samples_length, !Hl2 by done; nia).
      by apply samples_lookup.
Qed.

End UpdateImage.
(** ** The conversion and the size of the buffer *)

Section LoopEnds.

Context {A B : Type}.

(** A loop does not return when one turn of it cannot. *)
Lemma for_each_not_done (l : list B) (body : B -> A -> outcome A) (e0 : B) :
  e0 ∈ l ->
  (forall s s', body e0 s <> Done s') ->
  forall s s', for_each l body s <> Done s'.
Proof.
  intros Hin Hbody. induction Hin as [e0 l|e0 e l Hin IH]; intros s s'.
  - cbn [for_each]. destruct (body e0 s) as [s1| | |] eqn:E; cbn [obind];
      try done. by apply Hbody in E.
  - cbn [for_each]. destruct (body e s) as [s1| | |]; cbn [obind]; try done.
    by apply IH.
Qed.

End LoopEnds.

Section BufferSize.

Context {codec_t : Type} `{!VpxCodec codec_t}.

Implicit Types w : IVFVPX9Writer codec_t.

Lemma c_range_last (n : Z) : 0 < n -> n - 1 ∈ c_range n 1.
Proof.
  intros Hn. unfold c_range. apply list_elem_of_fmap.
  exists (Z.to_nat (n - 1)). split; [lia|].
  apply elem_of_seq. rewrite Z.div_1_r. lia.
Qed.

(** X21. The image of a writer the constructor made for [width] by
    [height] pixels takes any buffer that holds [3 * width * height] bytes
    from the pointer on: the conversion returns, with no access outside the
    buffer or the planes, and changes nothing of the writer but the
    image. *)
Theorem new_writer_update_image (limit : option nat) (wd ht : Z) w
    (p : pointer) :
  new_writer limit wd ht = Done w ->
  0 <= wd -> 0 <= ht ->
  3 * wd * ht < 2 ^ 31 ->
  0 <= offset p -> offset p + 3 * wd * ht <= block_size p ->
  exists w',
    update_image w p = Done w'
    /\ w' = set_img (img w') w
    /\ length <$> planes (img w') = length <$> planes (img w).
Proof.
  intros Hnew Hw Hh Hmax Ho Hsize.
  apply new_writer_done in Hnew as (_ & Hwd & Hht & _ & _ & _ & Himg).
  assert (Hcw : 0 <= (wd + 1) / 2) by (apply Z.div_pos; lia).
  assert (Hch : 0 <= (ht + 1) / 2) by (apply Z.div_pos; lia).
  pose proof (update_image_planes w p
                (replicate (Z.to_nat (wd * ht)) 0)
                (replicate (Z.to_nat ((wd + 1) / 2 * ((ht + 1) / 2))) 0)
                (replicate (Z.to_nat ((wd + 1) / 2 * ((ht + 1) / 2))) 0) [])
    as Hupd.
  rewrite Hwd, Hht, Himg in Hupd.
  rewrite !c_range_1_length, !c_range_2_length, !length_replicate in Hupd
    by done.
  eexists. split; [apply Hupd; (done || nia)|].
  cbn [img set_img planes]. split; [by destruct w|].
  rewrite Himg. cbn [vpx_img_alloc planes fmap list_fmap].
  unfold filled.
  rewrite !length_app, !length_drop, !samples_length, !length_replicate.
  rewrite !c_range_1_length, !c_range_2_length by done.
  repeat f_equal; nia.
Qed.

(** The last pixel is outside a buffer that is too short. *)
Lemma luma_pass_not_done w (p : pointer) (s s' : nat * list Z) :
  0 < width w -> 0 < height w ->
  3 * width w * height w < 2 ^ 31 ->
  0 <= offset p ->
  block_size p < offset p + 3 * width w * height w ->
  for_each (c_range (height w) 1)
    (fun y => for_each (c_range (width w) 1)
                (fun x => luma_sample (width w) p y x)) s
  <> Done s'.
Proof.
  intros Hw Hh Hmax Ho Hsize. rewrite luma_sample_rgb.
  revert s s'.
  apply (for_each_not_done _ _ (height w - 1)); [by apply c_range_last|].
  intros s s'.
  apply (for_each_not_done _ _ (width w - 1)); [by apply c_range_last|].
  intros [k dest] s''. unfold rgb_sample.
  assert (Hint : to_int (((height w - 1) * width w + (width w - 1)) * 3)
                 = 3 * width w * height w - 3).
  { unfold to_int. rewrite Z.mod_small by nia. lia. }
  rewrite Hint.
  destruct (load p (3 * width w * height w - 3)) as [r| | |]; cbn [obind];
    try done.
  destruct (load p (3 * width w * height w - 3 + 1)) as [g| | |]; cbn [obind];
    try done.
  unfold load.
  replace (offset p + (3 * width w * height w - 3 + 2) <? block_size p)
    with false by lia.
  by rewrite andb_false_r.
Qed.

(** One pixel, with room for its sample. *)
Lemma rgb_sample_reads_only (f : Z -> Z -> Z -> Z) (wd : Z) (p : pointer)
    (y x : Z) (k : nat) (dest : list Z) :
  (k < length dest)%nat ->
  reads_only 1 k dest (rgb_sample f wd p y x (k, dest)).
Proof.
  intros Hk. unfold rgb_sample, load.
  repeat (destruct (_ && _); cbn [obind reads_only]; [|done]).
  unfold store. rewrite decide_True by done. cbn [obind reads_only].
  rewrite length_insert. split; [lia|done].
Qed.

Lemma row_reads_only (f : Z -> Z -> Z -> Z) (wd : Z) (p : pointer) (y : Z)
    (xs : list Z) (k : nat) (dest : list Z) :
  (k + length xs <= length dest)%nat ->
  reads_only (length xs) k dest
    (for_each xs (fun x => rgb_sample f wd p y x) (k, dest)).
Proof.
  revert k dest. induction xs as [|x xs IH]; intros k dest Hlen.
  - cbn. split; [lia|done].
  - cbn [for_each length] in *.
    pose proof (rgb_sample_reads_only f wd p y x k dest ltac:(lia)) as H1.
    destruct (rgb_sample f wd p y x (k, dest)) as [[k1 dest1]| | |];
      cbn [obind reads_only] in *; try done.
    destruct H1 as [-> Hl1].
    specialize (IH (k + 1)%nat dest1 ltac:(lia)).
    destruct (for_each xs _ (_, dest1)) as [[k2 dest2]| | |];
      cbn [reads_only] in *; try done.
    destruct IH as [-> Hl2]. split; [lia|congruence].
Qed.

Lemma plane_reads_only (f : Z -> Z -> Z -> Z) (wd : Z) (p : pointer)
    (ys xs : list Z) (k : nat) (dest : list Z) :
  (k + length ys * length xs <= length dest)%nat ->
  reads_only (length ys * length xs) k dest
    (for_each ys (fun y => for_each xs (fun x => rgb_sample f wd p y x))
       (k, dest)).
Proof.
  revert k dest. induction ys as [|y ys IH]; intros k dest Hlen.
  - cbn. split; [lia|done].
  - cbn [for_each length] in *.
    pose proof (row_reads_only f wd p y xs k dest ltac:(lia)) as H1.
    destruct (for_each xs _ (k, dest)) as [[k1 dest1]| | |];
      cbn [obind reads_only] in *; try done.
    destruct H1 as [-> Hl1].
    specialize (IH (k + length xs)%nat dest1 ltac:(lia)).
    destruct (for_each ys _ (_, dest1)) as [[k2 dest2]| | |];
      cbn [reads_only] in *; try done.
    destruct IH as [-> Hl2]. split; [lia|congruence].
Qed.

(** The luma pass of a conversion whose buffer is too short ends at a
    read, when the luma plane has room for the image. *)
Lemma update_image_reads_outside w (p : pointer) (py : list Z)
    (rest : list (list Z)) :
  planes (img w) = py :: rest ->
  width w * height w <= Z.of_nat (length py) ->
  0 < width w -> 0 < height w ->
  3 * width w * height w < 2 ^ 31 ->
  0 <= offset p ->
  block_size p < offset p + 3 * width w * height w ->
  update_image w p = Trap "read outside the buffer".
Proof.
  intros Hpl Hy Hw Hh Hmax Ho Hsize.
  pose proof (luma_pass_not_done w p (0%nat, py) ) as Hnot.
  unfold update_image. cbv zeta.
  rewrite Hpl. cbn [lookup_total list_lookup_total].
  pose proof (plane_reads_only
                (fun r g b => Z.quot (66 * r + 129 * g + 25 * b + 128) 256 + 16)
                (width w) p (c_range (height w) 1) (c_range (width w) 1)
                0 py) as Hro.
  rewrite <- luma_sample_rgb in Hro.
  rewrite !c_range_1_length in Hro by lia.
  specialize (Hro ltac:(nia)).
  destruct (for_each (c_range (height w) 1) _ (0%nat, py))
    as [s1|d|t|] eqn:E; cbn [obind reads_only] in *.
  - exfalso. by apply (Hnot s1).
  - done.
  - by rewrite Hro.
  - done.
Qed.

(** X22. A buffer that ends before the [3 * width * height] bytes the
    conversion reads, with a luma plane that has room for the image: the
    luma pass reads outside the buffer, at the last pixel if not before,
    and no write outside the plane comes before that read.  The run of
    the model ends at this read, whose result C++ does not define. *)
Theorem update_image_past_buffer w (p : pointer) (py : list Z)
    (rest : list (list Z)) :
  planes (img w) = py :: rest ->
  width w * height w <= Z.of_nat (length py) ->
  0 < width w -> 0 < height w ->
  3 * width w * height w < 2 ^ 31 ->
  0 <= offset p ->
  block_size p < offset p + 3 * width w * height w ->
  update_image w p = Trap "read outside the buffer".
Proof. apply update_image_reads_outside. Qed.

End BufferSize.
(** ** More on the writer: the packets of a call *)

Section Forwarding.

Context {codec_t : Type} `{!VpxCodec codec_t}.

Implicit Types w : IVFVPX9Writer codec_t.

(** The loop over the packets is a sequence of appends of the frame
    packets; the other packets only set [got_pkts]. *)
Lemma take_packets_append (pkts : list vpx_codec_cx_pkt_t) (g : Z) w :
  for_each pkts take_packet (g, w)
  = (w' <-- append_all (frames_of pkts) w ;;
     Done (if decide (pkts = []) then g else 1, w')).
Proof.
  revert g w. induction pkts as [|pkt pkts IH]; intros g w; [done|].
  cbn [for_each]. unfold take_packet at 1, frames_of.
  rewrite filter_cons.
  destruct (decide (kind pkt = VPX_CODEC_CX_FRAME_PKT)) as [Hk|Hk].
  - rewrite fmap_cons. unfold append_all. cbn [for_each].
    unfold append at 1. cbn [fst snd].
    destruct (vpx_video_writer_write_frame w (frame_buf pkt) (frame_pts pkt))
      as [ok w1].
    destruct (ok =? 0); [done|]. cbn [obind].
    rewrite IH. unfold append_all, frames_of.
    destruct (for_each _ append w1); cbn [obind]; try done.
    by destruct (decide (pkts = [])).
  - cbn [obind]. rewrite IH. unfold frames_of.
    destruct (append_all _ w); cbn [obind]; try done.
    by destruct (decide (pkts = [])).
Qed.

(** X8. A call of [encode_frame] the encoder accepts, on a writer at the
    end of its file and a device with room: the records of the frame
    packets the encoder gives are appended in the order given, one per
    packet; packets of any other kind are passed over, but count for the
    value returned, which is 1 as soon as there was a packet. *)
Theorem encode_frame_forwards w (flush : bool) :
  let sub := encode_args w flush in
  let step :=
    vpx_codec_encode_step (priv (codec w)) (sub_img sub) (sub_pts sub) 1
      (sub_flags sub) VPX_DL_GOOD_QUALITY in
  let pkts := vpx_codec_get_cx_data_all (snd step) in
  fst step = VPX_CODEC_OK ->
  framed w ->
  allows (f_limit (outfile w))
         (length (f_data (outfile w)) + records_size (frames_of pkts)) ->
  0 <= frames_written w ->
  frames_written w + Z.of_nat (frame_packets pkts) < 2 ^ 31 ->
  exists w',
    encode_frame w flush = Done (if decide (pkts = []) then 0 else 1, w')
    /\ f_data (outfile w')
       = f_data (outfile w) ++ concat (frame_record <$> frames_of pkts)
    /\ frames_written w' = frames_written w + Z.of_nat (frame_packets pkts)
    /\ framed w'.
Proof.
  cbv zeta. unfold encode_frame, vpx_codec_encode, encode_args.
  cbn [sub_img sub_pts sub_flags].
  set (w1 := if negb flush then _ else w).
  assert (Hw1 : codec w1 = codec w /\ outfile w1 = outfile w
                /\ frames_written w1 = frames_written w).
  { subst w1. by destruct flush. }
  destruct Hw1 as (Hc & Ho & Hfw).
  rewrite Hc.
  destruct (vpx_codec_encode_step _ _ _ _ _ _) as [res c].
  cbn [fst snd]. intros -> Hfr Hroom H0 Hmax.
  destruct (decide (VPX_CODEC_OK ≠ VPX_CODEC_OK)) as [|_]; [done|].
  unfold vpx_codec_get_cx_data. cbn [priv].
  set (pkts := vpx_codec_get_cx_data_all c) in *.
  set (w2 := set_codec _ w1).
  assert (Hlen : length (frames_of pkts) = frame_packets pkts)
    by (unfold frames_of, frame_packets; by rewrite length_fmap).
  destruct (append_all_framed (frames_of pkts) w2)
    as (w' & Hrun & Hfr' & Hdata & _ & Hcnt & _).
  - destruct Hfr as [He Hh]. split; cbn [w2 set_codec outfile]; by rewrite Ho.
  - cbn [w2 set_codec outfile]. by rewrite Ho.
  - cbn [w2 set_codec frames_written]. lia.
  - cbn [w2 set_codec frames_written]. lia.
  - exists w'. rewrite take_packets_append, Hrun. cbn [obind].
    split_and!; [done| | |done].
    + rewrite Hdata. cbn [w2 set_codec outfile]. by rewrite Ho.
    + rewrite Hcnt, Hlen. cbn [w2 set_codec frames_written]. lia.
Qed.

End Forwarding.
(** ** More on [flush] *)

Section FlushOrder.

Context {codec_t : Type} `{!VpxCodec codec_t}.
Variable pending : codec_t -> nat.
Hypothesis lookahead : Lookahead pending.

Implicit Types w : IVFVPX9Writer codec_t.

Local Abbreviation inside := (inside pending).
Local Abbreviation balanced := (balanced pending).

Lemma header_count_of_take (data : list Z) (wd ht n : Z) :
  take 32 data = header_layout wd ht n ->
  0 <= n < 2 ^ 32 ->
  header_frame_count data = n.
Proof.
  intros Ht Hn. unfold header_frame_count, sub_bytes.
  assert (Hsub : take 4 (drop 24 data) = take 4 (drop 24 (take 32 data))).
  { rewrite skipn_firstn_comm. rewrite take_take. f_equal. }
  rewrite Hsub, Ht.
  etrans; [apply (header_layout_count wd ht)|].
  by apply Z.mod_small.
Qed.

(** X9. [flush()] writes the stream header before it drains the encoder:
    with frames still inside the encoder, the call returns (given one turn
    of the loop more than there are frames inside), every frame is written
    by then, and the count in the header on disk is the one of before the
    call, short by the number of frames that were inside. *)
Theorem flush_header_lags (fuel : nat) w :
  balanced w ->
  frames_encoded w < 2 ^ 31 ->
  (inside w < fuel)%nat ->
  (f_limit (outfile w) = None -> exists w', flush fuel w = Done w')
  /\ (forall w', flush fuel w = Done w' ->
        frames_written w' = frames_encoded w
        /\ header_frame_count (f_data (outfile w'))
           = frames_written w' - Z.of_nat (inside w)).
Proof.
  intros Hb Hmax Hfuel.
  pose proof (flush_post pending lookahead fuel w Hb Hmax Hfuel) as Hpost.
  split.
  - intros Hl. destruct (post_returns _ _ _ Hpost) as (w' & Hrun & _);
      [by intros H|]. by exists w'.
  - intros w' Hrun. rewrite Hrun in Hpost.
    destruct Hpost as (Hb' & _ & _ & _ & Hfe & Hin & Ht & _).
    destruct Hb as [Hc H0 _ _], Hb' as [Hc' _ _ _].
    split; [lia|].
    rewrite (header_count_of_take _ _ _ _ Ht) by lia. lia.
Qed.

(** X10. [flush()] on a writer whose encoder holds no frame, as the
    destructor finds it after the explicit [flush()] of [main]: the call
    returns at the first turn of the loop, after one flush submission to
    the encoder; no frame is written, and the file is the one
    [write_file_header] left, that is the old one with the current count
    in its header. *)
Theorem flush_drained (fuel : nat) w :
  balanced w ->
  inside w = 0%nat ->
  exists w',
    flush (S fuel) w = Done w'
    /\ outfile w' = outfile (write_file_header w)
    /\ f_data (outfile w')
       = header_layout (width w) (height w) (frames_written w)
         ++ drop 32 (f_data (outfile w))
    /\ frames_written w' = frames_written w
    /\ submitted (codec w')
       = submitted (codec w) ++ [mkSubmission None (-1) 1 0 VPX_DL_GOOD_QUALITY].
Proof.
  intros Hb Hin.
  pose proof (write_file_header_fits w (bal_room _ _ Hb)) as Hfit.
  unfold flush. cbn [flush_encoder].
  set (w1 := write_file_header w) in *.
  unfold encode_frame, vpx_codec_encode. cbn [negb].
  change (codec w1) with (codec w).
  pose proof (la_encode_ok pending lookahead (priv (codec w)) None (-1) 1
                (if Z.rem (-1) KEYFRAME_INTERVAL =? 0
                 then VPX_EFLAG_FORCE_KF else 0) VPX_DL_GOOD_QUALITY) as Hok.
  pose proof (la_flush pending lookahead (priv (codec w)) (-1) 1
                (if Z.rem (-1) KEYFRAME_INTERVAL =? 0
                 then VPX_EFLAG_FORCE_KF else 0) VPX_DL_GOOD_QUALITY)
    as (_ & Hless & _).
  destruct (vpx_codec_encode_step _ _ _ _ _ _) as [res c].
  cbn [fst snd] in *. subst res.
  destruct (decide (VPX_CODEC_OK ≠ VPX_CODEC_OK)) as [|_]; [done|].
  unfold vpx_codec_get_cx_data. cbn [priv].
  assert (Hnone : vpx_codec_get_cx_data_all c = []).
  { destruct (vpx_codec_get_cx_data_all c) as [|p l] eqn:E; [done|].
    exfalso. unfold inside in Hin. specialize (Hless ltac:(done)). lia. }
  rewrite Hnone. cbn [for_each obind fst snd Z.eqb].
  eexists. split; [reflexivity|].
  cbn [set_codec outfile frames_written codec submitted].
  split_and!; [done|by rewrite Hfit|done|done].
Qed.

End FlushOrder.

Section FlushLoop.

Context {codec_t : Type} `{!VpxCodec codec_t}.

Implicit Types w : IVFVPX9Writer codec_t.

(** X11. The loop [while (encode_frame(true))] ends only at a flush
    submission for which the encoder has no packet of any kind.  With an
    encoder that has a packet at every flush submission, [flush()] does
    not return, whatever the number of turns: on a device without limit
    and an encoder that accepts the calls, the loop is still running after
    any number of them. *)
Theorem flush_needs_a_silent_call (fuel : nat) w :
  (forall c pts d fl dl,
     vpx_codec_get_cx_data_all (snd (vpx_codec_encode_step c None pts d fl dl))
     <> []) ->
  (forall w', flush fuel w <> Done w')
  /\ (f_limit (outfile w) = None ->
      (forall c pts d fl dl,
         fst (vpx_codec_encode_step c None pts d fl dl) = VPX_CODEC_OK) ->
      flush fuel w = OutOfFuel).
Proof.
  intros Hchat. unfold flush.
  assert (Hl0 : f_limit (outfile (write_file_header w)) = f_limit (outfile w)).
  { rewrite write_file_header_outfile. done. }
  rewrite <- Hl0. generalize (write_file_header w). clear w Hl0.
  induction fuel as [|fuel IH]; intros w; [done|].
  cbn [flush_encoder].
  pose proof (encode_frame_post w true) as Hpost. cbv zeta in Hpost.
  unfold encode_args in Hpost. cbn [negb sub_img sub_pts sub_flags] in Hpost.
  specialize (Hchat (priv (codec w)) (-1) 1
                (if Z.rem (-1) KEYFRAME_INTERVAL =? 0
                 then VPX_EFLAG_FORCE_KF else 0) VPX_DL_GOOD_QUALITY) as Hne.
  split.
  - intros w'.
    destruct (encode_frame w true) as [[g w1]| | |]; cbn [obind fst snd];
      try done.
    destruct Hpost as (_ & _ & _ & _ & _ & _ & Hg & _). cbn [fst] in Hg.
    rewrite decide_False in Hg by done. subst g. cbn [Z.eqb].
    apply IH.
  - intros Hl Hok.
    destruct (post_returns _ _ _ Hpost) as ([g w1] & Hrun & Hq).
    { intros [?|Hbad]; [done|]. by rewrite Hok in Hbad. }
    rewrite Hrun. cbn [obind fst snd].
    destruct Hq as (_ & _ & _ & _ & _ & Hl1 & Hg & _). cbn [fst snd] in *.
    rewrite decide_False in Hg by done. subst g. cbn [Z.eqb].
    apply IH; [congruence|done].
Qed.

End FlushLoop.
(** ** The end of [main]: what is run, and in which order *)

Section MainEvents.

Context {codec_t : Type} `{!VpxCodec codec_t}.

Implicit Types st : world (codec_t := codec_t).

(** The loop logs nothing and closes nothing, however a turn ends. *)
Lemma capture_trace (limit : option nat) (it : iteration) st st'
    (r : outcome unit) :
  capture limit it st = (st', r) ->
  trace st' = trace st /\ closed st' = closed st.
Proof.
  unfold capture.
  destruct (take_screenshot (shot it) (buffer st)) as [res b].
  destruct (res <? 0); [by intros [= <- <-]|].
  cbn [set_buffer buffer video_stream].
  unfold pbind, on_stream.
  repeat case_match; intros; simplify_eq; done.
Qed.

Lemma capture_loop_trace (limit : option nat) (its : list iteration) st st'
    (r : outcome unit) :
  capture_loop limit its st = (st', r) ->
  trace st' = trace st /\ closed st' = closed st.
Proof.
  revert st. induction its as [|it its IH]; intros st.
  - by intros [= <- <-].
  - cbn [capture_loop].
    destruct (capture limit it st) as [st1 r1] eqn:E.
    apply capture_trace in E as [Ht Hc].
    destruct r1; cbn [pbind].
    + intros [Ht' Hc']%IH. split; congruence.
    + by intros [= <- <-].
    + by intros [= <- <-].
    + by intros [= <- <-].
Qed.

(** The steps of a run of [main] that returns. *)
Lemma main_done (limit : option nat) (fuel : nat)
    (merge_status unlink_status : Z) (its : list iteration) st (z : Z) :
  main limit fuel merge_status unlink_status its = (st, Done z) ->
  z = 0 /\ merge_status = 0
  /\ exists st1 vs w f,
       capture_loop limit its (mkWorld [] None None []) = (st1, Done tt)
       /\ video_stream st1 = Some vs
       /\ flush fuel vs = Done w
       /\ destroy fuel w = Done f
       /\ trace st = [EvFlush; EvSystem (Some (f_data (outfile w)));
                      EvUnlink unlink_status]
       /\ closed st = Some f
       /\ video_stream st = None.
Proof.
  unfold main. intros Hrun.
  apply pbind_done in Hrun as (st1 & [] & Hloop & Hrun).
  pose proof (capture_loop_trace _ _ _ _ _ Hloop) as [Ht Hc].
  cbn [trace closed] in Ht, Hc.
  unfold finish in Hrun.
  apply pbind_done in Hrun as (st2 & fe & Hderef & Hrun).
  apply on_stream_done in Hderef as (vs & vs' & Hs & Heq & ->).
  injection Heq as _ <-.
  apply pbind_done in Hrun as (st3 & [] & Hflush & Hrun).
  cbn [video_stream set_video_stream] in Hflush.
  apply pbind_done in Hflush as (st4 & [] & Hflush & Heq).
  injection Heq as <-.
  apply on_stream_done in Hflush as (vs0 & w & Hs0 & Hflush & ->).
  cbn [video_stream set_video_stream] in Hs0. injection Hs0 as <-.
  apply bind_done in Hflush as (w' & Hflush & Heq). injection Heq as ->.
  destruct (decide (merge_status ≠ 0)) as [|Hms]; [done|].
  apply dec_stable in Hms.
  cbn [log video_stream set_video_stream closed buffer trace] in Hrun.
  destruct (destroy fuel w) as [f| | |] eqn:Ed; try done.
  injection Hrun as <- <-. cbn [closed video_stream trace].
  split_and!; [done|done|].
  exists st1, vs, w, f. rewrite Ht. by split_and!.
Qed.


(** X13. When [mkvmerge] fails, [main] does not return: the run ends in
    [fatal], after the explicit [flush()] and the command, or it ended
    before either.  [unlink] is not called, and the destructor of the
    writer does not run, so the header rewrite it would make is not made
    and the temporary file stays. *)
Theorem remux_failure (limit : option nat) (fuel : nat)
    (merge_status unlink_status : Z) (its : list iteration) st
    (r : outcome Z) :
  merge_status <> 0 ->
  main limit fuel merge_status unlink_status its = (st, r) ->
  (forall z, r <> Done z)
  /\ closed st = None
  /\ (trace st = []
      \/ exists w,
           video_stream st = Some w
           /\ trace st = [EvFlush; EvSystem (Some (f_data (outfile w)))]
           /\ r = Fatal "Failed to launch mkvmerge").
Proof.
  intros Hms. unfold main.
  destruct (capture_loop limit its (mkWorld [] None None [])) as [st1 r1] eqn:E.
  apply capture_loop_trace in E as [Ht Hc]. cbn [trace closed] in Ht, Hc.
  destruct r1 as [[]|d|t|]; cbn [pbind];
    [|intros [= <- <-]; split_and!; [done|done|by left]..].
  unfold finish, on_stream.
  destruct (video_stream st1) as [vs|] eqn:Evs; cbn [pbind];
    [|intros [= <- <-]; split_and!; [done|done|by left]].
  cbn [video_stream set_video_stream].
  destruct (flush fuel vs) as [w| | |]; cbn [obind pbind];
    [|intros [= <- <-]; split_and!; [done|done|by left]..].
  destruct (decide (merge_status ≠ 0)) as [_|]; [|done].
  intros [= <- <-].
  cbn [log closed trace video_stream set_video_stream buffer].
  split_and!; [done|done|]. right. exists w. rewrite Ht.
  split_and!; done.
Qed.

End MainEvents.
(** ** The stream header while the capture runs *)

Section HeaderDuringCapture.

Context {codec_t : Type} `{!VpxCodec codec_t}.
Variable pending : codec_t -> nat.
Hypothesis lookahead : Lookahead pending.
Variable limit : option nat.
Hypothesis header_room : allows limit 32.

Implicit Types st : world (codec_t := codec_t).

Local Abbreviation running := (running pending limit).
Local Abbreviation inside := (inside pending).

(** A turn of the loop leaves the header of the stream as the constructor wrote
    it. *)
Lemma capture_header (it : iteration) st st' (n : Z) :
  running n st ->
  n + (if finished (shot it) then 1 else 0) < 2 ^ 31 ->
  (forall vs, video_stream st = Some vs ->
     take 32 (f_data (outfile vs)) = header_layout (width vs) (height vs) 0) ->
  capture limit it st = (st', Done tt) ->
  forall vs, video_stream st' = Some vs ->
    take 32 (f_data (outfile vs)) = header_layout (width vs) (height vs) 0.
Proof.
  intros [Hcl Hvs] Hmax Hhdr.
  destruct (shot it) as [|received|received] eqn:Eshot.
  - rewrite capture_no_screenshot by (by rewrite Eshot). by intros [= <-].
  - rewrite capture_no_screenshot by (by rewrite Eshot). by intros [= <-].
  - unfold capture. rewrite Eshot. cbn [take_screenshot].
    assert (Hres : (Z.of_nat (length (take_upto SIZE received)) <? 0) = false)
      by (apply Z.ltb_ge, Nat2Z.is_nonneg).
    rewrite Hres.
    cbn [set_buffer buffer video_stream closed trace].
    intros Hrun.
    apply pbind_done in Hrun as (st1 & [] & Hnew & Hrun).
    apply pbind_done in Hrun as (st2 & [] & Hupd & Hrun).
    apply pbind_done in Hrun as (st3 & g & Henc & Hrun).
    injection Hrun as <-.
    apply on_stream_done in Hupd as (vs1 & vs2 & Hs1 & Hupd & ->).
    apply on_stream_done in Henc as (vs2' & vs3 & Hs2 & Henc & ->).
    cbn [video_stream set_video_stream] in Hs2. injection Hs2 as <-.
    apply bind_done in Hupd as (vs2' & Hupd & Heq). injection Heq as ->.
    assert (H1 : past_header (outfile vs1)
                 /\ take 32 (f_data (outfile vs1))
                    = header_layout (width vs1) (height vs1) 0).
    { destruct (video_stream st) as [vs0|] eqn:Evs.
      - injection Hnew as <-. cbn [video_stream closed set_buffer] in *.
        rewrite Evs in Hs1. injection Hs1 as <-.
        destruct Hvs as ([_ _ Hp _] & _). split; [done|]. by apply Hhdr.
      - destruct (new_writer limit _ _) as [vs| | |] eqn:En; try done.
        injection Hnew as <-.
        cbn [video_stream set_video_stream closed set_buffer] in *.
        injection Hs1 as <-.
        pose proof (new_writer_done _ _ _ _ En) as (_ & Hw & Hh & _).
        apply new_writer_framed in En as ([He H32] & Hdata & _); [|done].
        split; [unfold past_header; lia|].
        rewrite Hdata, Hw, Hh.
        by rewrite take_ge by (rewrite header_layout_length; lia). }
    destruct H1 as (Hp1 & Ht1).
    apply update_image_done in Hupd as (Hw2 & Hh2 & Ho2 & _).
    pose proof (encode_frame_post vs2 false) as Hpost. cbv zeta in Hpost.
    apply (post_done _ _ _ _ Hpost) in Henc
      as (_ & _ & _ & Hw3 & Hh3 & _ & _ & Hp3 & _).
    cbn [snd] in *. rewrite Ho2 in Hp3. destruct (Hp3 Hp1) as [_ Ht3].
    cbn [video_stream set_video_stream]. intros vs [= <-].
    rewrite Ht3, Ht1. congruence.
Qed.

Lemma capture_loop_header (its : list iteration) st st' (n : Z) :
  running n st ->
  n + Z.of_nat (captured its) < 2 ^ 31 ->
  (forall vs, video_stream st = Some vs ->
     take 32 (f_data (outfile vs)) = header_layout (width vs) (height vs) 0) ->
  capture_loop limit its st = (st', Done tt) ->
  forall vs, video_stream st' = Some vs ->
    take 32 (f_data (outfile vs)) = header_layout (width vs) (height vs) 0.
Proof.
  revert st n. induction its as [|it its IH]; intros st n Hr Hmax Hhdr.
  - cbn. by intros [= <-].
  - cbn [capture_loop]. intros Hrun.
    apply pbind_done in Hrun as (st1 & [] & Hcap & Hrun).
    assert (Hcount : Z.of_nat (captured (it :: its))
                     = (if finished (shot it) then 1 else 0)
                       + Z.of_nat (captured its)).
    { unfold captured. rewrite filter_cons.
      destruct (finished (shot it)); cbn [decide_rel]; [|done].
      rewrite decide_True by done. cbn [length]. lia. }
    rewrite Hcount in *.
    assert (0 <= Z.of_nat (captured its)) by lia.
    pose proof (capture_header it st st1 n Hr ltac:(lia) Hhdr Hcap) as Hhdr1.
    apply (capture_running pending lookahead limit header_room it st st1 n)
      in Hcap; [|done|lia].
    apply (IH st1 (n + (if finished (shot it) then 1 else 0))); try done.
    lia.
Qed.

(** X14.  No call of the capture loop rewrites the stream header.  At
    the end of a loop that took [n] images, what the writer has written to
    its stream begins with the 32 bytes the constructor wrote: the header
    with the dimensions of the writer and a frame count of 0, whatever the
    number of frames written after it.  The writer has counted the [n]
    images, and each of them is written or still inside the encoder.  (The
    statement is about the stream, that is the file as it is once the
    stream is flushed; the loop does not flush it.) *)
Theorem header_reads_zero_during_capture (its : list iteration) st :
  Z.of_nat (captured its) < 2 ^ 31 ->
  capture_loop limit its (mkWorld [] None None []) = (st, Done tt) ->
  forall vs, video_stream st = Some vs ->
    take 32 (f_data (outfile vs)) = header_layout (width vs) (height vs) 0
    /\ (32 <= length (f_data (outfile vs)))%nat
    /\ header_frame_count (f_data (outfile vs)) = 0
    /\ frames_encoded vs = Z.of_nat (captured its)
    /\ frames_written vs + Z.of_nat (inside vs) = Z.of_nat (captured its).
Proof.
  intros Hmax Hloop vs Hvs.
  assert (Hr0 : running 0 (mkWorld [] None None [])) by (by split).
  assert (Ht : take 32 (f_data (outfile vs))
               = header_layout (width vs) (height vs) 0).
  { apply (capture_loop_header its _ st 0 Hr0); (done || lia). }
  apply (capture_loop_running pending lookahead limit header_room its _ st 0)
    in Hloop; [|by split|lia].
  rewrite Z.add_0_l in Hloop. destruct Hloop as [_ Hrun].
  rewrite Hvs in Hrun. destruct Hrun as ([Hc H0 [Hp1 Hp2] _] & Hfe & _).
  split_and!; [done|lia| |done|unfold inside in *; lia].
  by rewrite (header_count_of_take _ _ _ _ Ht).
Qed.

(** X15. What [mkvmerge] finds: when [main] returns after [n] images, the
    command ran on a file that holds every frame, but whose header has the
    count of the end of the loop, [n] less the frames the encoder still
    held then. *)
Theorem remux_reads_count_before_drain (fuel : nat)
    (merge_status unlink_status : Z) (its : list iteration) st :
  Z.of_nat (captured its) < 2 ^ 31 ->
  (captured its < fuel)%nat ->
  main limit fuel merge_status unlink_status its = (st, Done 0) ->
  exists st1 vs data,
    capture_loop limit its (mkWorld [] None None []) = (st1, Done tt)
    /\ video_stream st1 = Some vs
    /\ trace st = [EvFlush; EvSystem (Some data); EvUnlink unlink_status]
    /\ header_frame_count data
       = Z.of_nat (captured its) - Z.of_nat (inside vs).
Proof.
  intros Hmax Hfuel Hmain.
  apply main_done in Hmain
    as (_ & _ & st1 & vs & w & f & Hloop & Hvs & Hflush & _ & Ht & _).
  exists st1, vs, (f_data (outfile w)). split_and!; try done.
  apply (capture_loop_running pending lookahead limit header_room its _ st1 0)
    in Hloop; [|by split|lia].
  rewrite Z.add_0_l in Hloop. destruct Hloop as [_ Hrun].
  rewrite Hvs in Hrun. destruct Hrun as (Hb & Hfe & _).
  assert (Hin : (inside vs <= captured its)%nat).
  { destruct Hb as [Hc H0 _ _]. unfold inside in *. lia. }
  pose proof (flush_post pending lookahead fuel vs Hb ltac:(lia) ltac:(lia))
    as Hpost.
  rewrite Hflush in Hpost.
  destruct Hpost as (_ & _ & _ & _ & _ & _ & Hhdr & _).
  destruct Hb as [Hc H0 _ _].
  rewrite (header_count_of_take _ _ _ _ Hhdr) by lia.
  unfold inside in *. lia.
Qed.

End HeaderDuringCapture.
(** ** The screenshot call *)

Section Receive.

Lemma take_upto_all (l : list Z) (n : Z) :
  Z.of_nat (length l) <= n -> take_upto n l = l.
Proof.
  revert n. induction l as [|x l IH]; intros n Hn; [done|].
  cbn [take_upto length] in *. replace (0 <? n) with true by lia.
  f_equal. apply IH. lia.
Qed.

Lemma store_bytes_app (buffer : list Z) (base : Z) (b1 b2 : list Z) :
  0 <= base -> (Z.to_nat base <= length buffer)%nat ->
  store_bytes (store_bytes buffer base b1) (base + Z.of_nat (length b1)) b2
  = store_bytes buffer base (b1 ++ b2).
Proof.
  intros H0 Hlen. unfold store_bytes.
  replace (Z.to_nat (base + Z.of_nat (length b1)))
    with (Z.to_nat base + length b1)%nat by lia.
  set (n := Z.to_nat base) in *.
  assert (Hn : length (take n buffer) = n) by (rewrite length_take; lia).
  rewrite (app_assoc (take n buffer) b1).
  rewrite take_app_length' by (rewrite length_app; lia).
  rewrite drop_app_ge by (rewrite length_app; lia).
  rewrite length_app, Hn, drop_drop, length_app, <- !app_assoc.
  do 4 f_equal. lia.
Qed.

(** The loop on calls that give the chunks [chunks] one after the other. *)
Lemma recv_loop_chunks (chunks : list (list Z)) (calls : list recv)
    (buffer : list Z) (base remaining_size : Z) :
  Forall (fun c => c <> []) chunks ->
  0 <= base -> (Z.to_nat base <= length buffer)%nat ->
  Z.of_nat (length (concat chunks)) <= remaining_size < 2 ^ 31 ->
  recv_loop ((RecvBytes <$> chunks) ++ calls) buffer base remaining_size
  = recv_loop calls (store_bytes buffer base (concat chunks))
      (base + Z.of_nat (length (concat chunks)))
      (remaining_size - Z.of_nat (length (concat chunks))).
Proof.
  intros Hne. revert buffer base remaining_size.
  induction Hne as [|c chunks Hc _ IH]; intros buffer base rem H0 Hlen Hrem.
  - cbn [fmap list_fmap concat app length]. unfold store_bytes.
    cbn [app length]. rewrite Nat.add_0_r, take_drop, Z.add_0_r, Z.sub_0_r.
    done.
  - cbn [fmap list_fmap concat app recv_loop] in *.
    rewrite length_app in Hrem.
    assert (Hpos : 0 < Z.of_nat (length c)) by (destruct c; [done|cbn; lia]).
    replace (Z.of_nat (length c) =? 0) with false by lia.
    replace (rem <? Z.of_nat (length c)) with false by lia.
    change (list_fmap _ _ RecvBytes chunks) with (RecvBytes <$> chunks).
    assert (Hint : to_int (rem - Z.of_nat (length c))
                   = rem - Z.of_nat (length c)).
    { unfold to_int. rewrite Z.mod_small by lia. lia. }
    rewrite Hint, IH; [|lia| |lia].
    + rewrite store_bytes_app by done. rewrite length_app. f_equal; lia.
    + unfold store_bytes. rewrite !length_app, length_take, length_drop. lia.
Qed.

(** X16. The lambda [take_screenshot], on calls of [virStreamRecv] that
    deliver chunks of at most [SIZE] bytes in all: when the stream ends,
    the result is the total number of bytes, which are at the start of the
    buffer in the order received; when a call fails, the result is -1 and
    the chunks received before are in the buffer all the same.  Either
    way the bytes of the buffer past the ones received are what they were
    before the call.  This is what [RecvFinished] and [RecvAborted] stand
    for in the loop of [main]. *)
Theorem take_screenshot_receives (chunks : list (list Z)) (later : list recv)
    (buffer : list Z) :
  Forall (fun c => c <> []) chunks ->
  Z.of_nat (length (concat chunks)) <= SIZE ->
  let received := concat chunks in
  take_screenshot_calls true ((RecvBytes <$> chunks) ++ RecvBytes [] :: later)
    buffer
  = Done (Z.of_nat (length received),
          received ++ drop (length received) buffer)
  /\ take_screenshot_calls true ((RecvBytes <$> chunks) ++ RecvError :: later)
       buffer
     = Done (-1, received ++ drop (length received) buffer)
  /\ Done (take_screenshot (RecvFinished received) buffer)
     = take_screenshot_calls true
         ((RecvBytes <$> chunks) ++ RecvBytes [] :: later) buffer
  /\ Done (take_screenshot (RecvAborted received) buffer)
     = take_screenshot_calls true
         ((RecvBytes <$> chunks) ++ RecvError :: later) buffer.
Proof.
  intros Hne Hsize. cbv zeta.
  unfold take_screenshot_calls, take_screenshot, receive. cbn [negb].
  assert (Hmax : SIZE < 2 ^ 31) by (by vm_compute).
  rewrite !recv_loop_chunks by (done || cbn; lia).
  rewrite take_upto_all by done.
  cbn [recv_loop length Z.of_nat Z.eqb]. unfold store_bytes.
  cbn [Z.to_nat take app Nat.add]. done.
Qed.

End Receive.
(** ** Argument processing *)

Section Arguments.

Local Open Scope string_scope.

(** [arg.substr(0, option.size()) == option] says that [arg] begins with
    [option]. *)
Lemma substring_prefix (p arg : string) :
  substring 0 (String.length p) arg = p <-> exists s, arg = p ++ s.
Proof.
  revert arg. induction p as [|c p IH]; intros arg.
  - split; [intros _; by exists arg|]. intros _. by destruct arg.
  - destruct arg as [|c' arg]; cbn [String.length substring append].
    + split; [done|]. by intros [s Hs].
    + split.
      * intros [= -> [s ->]%IH]. by exists s.
      * intros [s [= -> ->]]. f_equal. apply IH. by exists s.
Qed.

Lemma has_option_prefix (option arg : string) :
  has_option option arg = true <-> exists s, arg = option ++ s.
Proof.
  unfold has_option. rewrite String.eqb_eq. apply substring_prefix.
Qed.

(** Induction for a loop that takes one argument or two at a turn. *)
Lemma args_ind (P : list string -> Prop) :
  P [] ->
  (forall a l, P l -> P (tail l) -> P (a :: l)) ->
  forall l, P l.
Proof.
  intros Hnil Hcons l.
  enough (P l /\ P (tail l)) by tauto.
  induction l as [|a l [IH1 IH2]]; [done|].
  split; [by apply Hcons|done].
Qed.

(** Arguments the loop has gone through without an exit are behind it. *)
Lemma parse_args_app (name : string) (pre post : list string) (o o' : options) :
  parse_args name pre o = Done o' ->
  parse_args name (pre ++ post) o = parse_args name post o'.
Proof.
  revert o. induction pre as [|arg pre IH1 IH2] using args_ind; intros o.
  - by intros [= ->].
  - cbn [parse_args app].
    destruct (has_option connection_option arg).
    { destruct pre as [|uri pre]; [done|]. cbn [tail app] in *. apply IH2. }
    destruct (has_option debug_option arg); [apply IH1|].
    destruct (empty (domain_name o)); [apply IH1|].
    destruct (empty (output_file o)); [apply IH1|done].
Qed.

(** [DEBUG] does not bear on the rest of the loop. *)
Lemma parse_args_debug (name : string) (args : list string) (o : options) :
  parse_args name args
    (mkOptions (domain_name o) (output_file o) (connection_uri o) true)
  = (o' <-- parse_args name args o ;;
     Done (mkOptions (domain_name o') (output_file o') (connection_uri o') true)).
Proof.
  revert o. induction args as [|arg args IH1 IH2] using args_ind; intros o.
  - done.
  - cbn [parse_args domain_name output_file connection_uri DEBUG].
    destruct (has_option connection_option arg).
    { destruct args as [|uri args]; [done|]. cbn [tail] in IH2.
      apply (IH2 (mkOptions (domain_name o) (output_file o) uri (DEBUG o))). }
    destruct (has_option debug_option arg).
    { rewrite <- IH1. done. }
    destruct (empty (domain_name o)).
    { apply (IH1 (mkOptions arg (output_file o) (connection_uri o) (DEBUG o))). }
    destruct (empty (output_file o)); [|done].
    apply (IH1 (mkOptions (domain_name o) arg (connection_uri o) (DEBUG o))).
Qed.

(** X17. An argument counts as the connection option, or as the debug
    option, when it begins with the name of the option, whatever follows:
    an argument such as [--connection=URI] is the connection option too,
    and the argument after it, whatever it is, becomes the URI. *)
Theorem option_is_a_prefix (option arg : string) :
  (has_option option arg = true <-> exists s, arg = option ++ s)
  /\ forall name s uri rest o,
       parse_args name ((connection_option ++ s) :: uri :: rest) o
       = parse_args name rest
           (mkOptions (domain_name o) (output_file o) uri (DEBUG o)).
Proof.
  split; [apply has_option_prefix|].
  intros name s uri rest o. cbn [parse_args].
  assert (H : has_option connection_option (connection_option ++ s) = true)
    by (apply has_option_prefix; by exists s).
  by rewrite H.
Qed.

(** X18. Two plain arguments are the domain and the output file, with
    the default URI and no debug output.  The form the usage text gives
    for the URI, [--connect <connection_uri>], is not the option the loop
    looks for: after the two names, [--connect] is a third name, and the
    run ends with the usage text. *)
Theorem usage_text_form_is_rejected (name d f : string) (rest : list string) :
  d <> EmptyString -> f <> EmptyString ->
  has_option connection_option d = false ->
  has_option debug_option d = false ->
  has_option connection_option f = false ->
  has_option debug_option f = false ->
  process_arguments [name; d; f] = Done (mkOptions d f "qemu:///system" false)
  /\ process_arguments (name :: d :: f :: "--connect" :: rest)
     = usage_exit name.
Proof.
  intros Hd Hf Hcd Hdd Hcf Hdf.
  assert (Hed : empty d = false) by (by apply String.eqb_neq).
  assert (Hef : empty f = false) by (by apply String.eqb_neq).
  unfold process_arguments.
  cbn [parse_args default_options domain_name output_file connection_uri DEBUG].
  rewrite Hcd, Hdd, Hcf, Hdf.
  change (empty EmptyString) with true. cbn match. rewrite Hed.
  change (has_option connection_option "--connect") with false.
  change (has_option debug_option "--connect") with false.
  cbn match. rewrite Hef. cbn [obind domain_name output_file orb].
  by rewrite Hed, Hef.
Qed.

(** X19. The connection option as the last argument: the loop reads
    [argv[argc]], the null pointer, as the URI.  The run ends there
    whatever came before. *)
Theorem dangling_connection_option (name arg : string) (pre : list string)
    (o' : options) :
  parse_args name pre default_options = Done o' ->
  has_option connection_option arg = true ->
  exists t, process_arguments (name :: pre ++ [arg]) = Trap t.
Proof.
  intros Hpre Harg. unfold process_arguments.
  rewrite (parse_args_app _ _ _ _ _ Hpre). cbn [parse_args].
  rewrite Harg. by eexists.
Qed.

(** X20. The debug option may stand anywhere between the other
    arguments, after anything but a connection option waiting for its URI:
    it sets [DEBUG] and changes nothing else of what the loop does. *)
Theorem debug_option_anywhere (name dbg : string) (pre post : list string)
    (o o' : options) :
  parse_args name pre o = Done o' ->
  has_option connection_option dbg = false ->
  has_option debug_option dbg = true ->
  parse_args name (pre ++ dbg :: post) o
  = (r <-- parse_args name (pre ++ post) o ;;
     Done (mkOptions (domain_name r) (output_file r) (connection_uri r) true)).
Proof.
  intros Hpre Hc Hd.
  rewrite !(parse_args_app _ _ _ _ _ Hpre). cbn [parse_args].
  rewrite Hc, Hd. apply parse_args_debug.
Qed.

End Arguments.
(** ** A whole run on well-formed captures *)

Section WholeRun.

Context {codec_t : Type} `{!VpxCodec codec_t}.
Variable pending : codec_t -> nat.
Hypothesis lookahead : Lookahead pending.
Variables W H : Z.
Hypothesis W_pos : 0 < W.
Hypothesis H_pos : 0 < H.

Implicit Types st : world (codec_t := codec_t).
Implicit Types w : IVFVPX9Writer codec_t.

Local Abbreviation running := (running pending None).
Local Abbreviation balanced := (balanced pending).

Lemma to_int_small (x : Z) : - 2 ^ 31 <= x < 2 ^ 31 -> to_int x = x.
Proof. intros Hx. unfold to_int. rewrite Z.mod_small by lia. lia. Qed.

Lemma filled_length (new plane : list Z) :
  (length new <= length plane)%nat ->
  length (filled new plane) = length plane.
Proof.
  intros Hle. unfold filled. rewrite length_app, length_drop. lia.
Qed.

Lemma update_image_sized w (p : pointer) :
  sized W H w ->
  0 <= offset p -> offset p + 3 * W * H <= block_size p ->
  3 * W * H < 2 ^ 31 ->
  exists w', update_image w p = Done w' /\ sized W H w'.
Proof.
  intros (Hw & Hh & py & pu & pv & Hpl & Hy & Huv) Ho Hsize Hmax.
  subst W H.
  assert (Hcw : 0 <= (width w + 1) / 2) by (apply Z.div_pos; lia).
  assert (Hch : 0 <= (height w + 1) / 2) by (apply Z.div_pos; lia).
  assert (Hl1 : (length (c_range (height w) 1) * length (c_range (width w) 1)
                 <= length py)%nat)
    by (rewrite !c_range_1_length by lia; nia).
  assert (Hl2 : (length (c_range (height w) 2) * length (c_range (width w) 2)
                 <= Nat.min (length pu) (length pv))%nat)
    by (rewrite !c_range_2_length by lia; nia).
  eexists. split.
  - apply (update_image_planes w p py pu pv []); (done || lia).
  - split; [done|]. split; [done|].
    cbn [img set_img planes]. eexists _, _, _. split; [done|].
    rewrite !filled_length by (rewrite samples_length; lia).
    done.
Qed.

Lemma new_writer_sized (limit : option nat) w :
  new_writer limit W H = Done w -> sized W H w.
Proof.
  intros (_ & Hw & Hh & _ & _ & _ & Himg)%new_writer_done.
  split; [done|]. split; [done|]. rewrite Himg.
  eexists _, _, _. split; [done|]. rewrite !length_replicate.
  assert (0 <= (W + 1) / 2) by (apply Z.div_pos; lia).
  assert (0 <= (H + 1) / 2) by (apply Z.div_pos; lia).
  split; [nia|]. nia.
Qed.

(** A turn of the loop on a well-formed capture returns. *)
Lemma capture_good (it : iteration) st (n : Z) :
  running n st ->
  (forall vs, video_stream st = Some vs -> sized W H vs) ->
  good_turn W H it ->
  n + 1 < 2 ^ 31 ->
  exists st',
    capture None it st = (st', Done tt)
    /\ forall vs, video_stream st' = Some vs -> sized W H vs.
Proof.
  intros Hrun Hsz Hgood Hmax. unfold good_turn in Hgood.
  destruct (shot it) as [|received|received] eqn:Eshot.
  - eexists. rewrite capture_no_screenshot by (by rewrite Eshot).
    split; [done|]. apply Hsz.
  - eexists. rewrite capture_no_screenshot by (by rewrite Eshot).
    split; [done|]. apply Hsz.
  - destruct Hgood as (ws1 & dw & ws2 & dh & ws3 & dd & sep & body & Hrec
                       & Hws & Hds & Hdw & Hdh & Hdd & Hws2 & Hws3 & Hsep
                       & HW & HH & Hfit & Hlen).
    assert (HSIZE : SIZE < 2 ^ 31) by (by vm_compute).
    set (hl := length (ws1 ++ dw ++ ws2 ++ dh ++ ws3 ++ dd)) in *.
    assert (Hbuf : receive received (buffer st)
                   = [char_code "P"; char_code "6"]
                     ++ ws1 ++ dw ++ ws2 ++ dh ++ ws3 ++ dd
                     ++ (sep :: body ++ drop (length received) (buffer st))).
    { unfold receive. rewrite take_upto_all by done. rewrite Hrec at 1.
      by rewrite <- !app_assoc. }
    assert (Hscan : sscanf_P6 (receive received (buffer st)) (locals it)
                    = (3, mkVars W H (to_int (Z.min (decimal dd) LONG_MAX))
                            (Z.of_nat (2 + hl)))).
    { rewrite Hbuf, sscanf_P6_header by done.
      fold hl. rewrite HW, HH.
      rewrite (Z.min_l W), (Z.min_l H) by (unfold LONG_MAX; nia).
      rewrite (to_int_small W), (to_int_small H),
        (to_int_small (Z.of_nat (2 + hl))) by nia.
      done. }
    destruct Hrun as [Hcl Hvs].
    unfold capture. rewrite Eshot. cbn [take_screenshot].
    assert (Hres : (Z.of_nat (length (take_upto SIZE received)) <? 0) = false)
      by (apply Z.ltb_ge, Nat2Z.is_nonneg).
    rewrite Hres.
    cbn [set_buffer buffer video_stream closed trace].
    rewrite Hscan. cbn [snd chars pwidth pheight].
    rewrite to_int_small by lia.
    match goal with
    | |- exists st', pbind ?m _ = _ /\ _ =>
        assert (Hwriter : exists vs1,
                  m = (mkWorld (receive received (buffer st)) (Some vs1)
                         (closed st) (trace st), Done tt)
                  /\ balanced vs1 /\ frames_encoded vs1 = n
                  /\ f_limit (outfile vs1) = None /\ sized W H vs1)
    end.
    { unfold set_buffer. destruct (video_stream st) as [vs0|] eqn:Evs.
      - exists vs0. destruct Hvs as (Hb & Hfe & Hl).
        split_and!; try done. by apply Hsz.
      - pose proof (new_writer_post pending lookahead None W H I) as Hpost.
        destruct (post_returns _ _ _ Hpost) as (vs & Hnew & Hb & Hfe & Hl & _);
          [by intros []|].
        exists vs. rewrite Hnew. cbn [set_video_stream buffer closed trace].
        split_and!; try done; [lia|]. by apply new_writer_sized in Hnew. }
    destruct Hwriter as (vs1 & -> & Hb1 & Hfe1 & Hl1 & Hs1).
    cbn [pbind]. unfold on_stream at 1. cbn [video_stream buffer].
    set (p := ptr_add _ _).
    assert (Hp : 0 <= offset p /\ offset p + 3 * W * H <= block_size p).
    { cbn. lia. }
    destruct Hp as [Hp0 Hp1].
    destruct (update_image_sized vs1 p Hs1 Hp0 Hp1 ltac:(lia))
      as (vs2 & Hupd & Hs2).
    rewrite Hupd. cbn [obind pbind]. unfold on_stream.
    cbn [set_video_stream video_stream buffer closed trace].
    pose proof (update_image_done _ _ _ Hupd) as (_ & _ & Ho2 & Hfw2 & Hfe2 & Hc2).
    assert (Hb2 : balanced vs2).
    { destruct Hb1 as [Hc H0 Hp Hr].
      split; unfold inside in *; congruence. }
    pose proof (encode_frame_live_post pending lookahead vs2 Hb2 ltac:(lia))
      as Hpost.
    destruct (post_returns _ _ _ Hpost) as ([g vs3] & Henc & _ & Hk & _);
      [intros Hbad; apply Hbad; congruence|].
    rewrite Henc. cbn [pbind].
    eexists. split; [reflexivity|]. cbn [video_stream].
    intros vs [= <-].
    pose proof (encode_frame_post vs2 false) as Hpost'. cbv zeta in Hpost'.
    rewrite Henc in Hpost'.
    destruct Hpost' as (_ & _ & Hi3 & Hw3 & Hh3 & _). cbn [snd] in *.
    destruct Hs2 as (Hw2 & Hh2 & Hpl2).
    split; [congruence|]. split; [congruence|]. by rewrite Hi3.
Qed.

Lemma captured_cons (it : iteration) (its : list iteration) :
  Z.of_nat (captured (it :: its))
  = (if finished (shot it) then 1 else 0) + Z.of_nat (captured its).
Proof.
  unfold captured. rewrite filter_cons.
  destruct (finished (shot it)); cbn [decide_rel]; [|done].
  rewrite decide_True by done. cbn [length]. lia.
Qed.

Lemma capture_loop_good (its : list iteration) st (n : Z) :
  running n st ->
  (forall vs, video_stream st = Some vs -> sized W H vs) ->
  Forall (good_turn W H) its ->
  n + Z.of_nat (captured its) < 2 ^ 31 ->
  exists st', capture_loop None its st = (st', Done tt).
Proof.
  intros Hrun Hsz Hgood. revert st n Hrun Hsz.
  induction Hgood as [|it its Hit _ IH]; intros st n Hrun Hsz Hmax.
  - by exists st.
  - cbn [capture_loop]. rewrite captured_cons in Hmax.
    destruct (finished (shot it)) eqn:Efin.
    + destruct (capture_good it st n Hrun Hsz Hit ltac:(lia))
        as (st1 & Hcap & Hsz1).
      rewrite Hcap. cbn [pbind].
      apply (capture_running pending lookahead None I it st st1 n) in Hcap;
        [|done|rewrite Efin; lia].
      rewrite Efin in Hcap. apply (IH st1 (n + 1)); (done || lia).
    + assert (Hneg : fst (take_screenshot (shot it) (buffer st)) < 0)
        by (by destruct (shot it)).
      rewrite capture_no_screenshot by done. cbn [pbind].
      apply (IH _ n); [|done|lia].
      destruct Hrun as [Hcl Hvs]. by split.
Qed.

(** On well-formed captures [main] returns. *)
Lemma main_good (fuel : nat) (unlink_status : Z)
    (its : list iteration) :
  Forall (good_turn W H) its ->
  (0 < captured its)%nat ->
  Z.of_nat (captured its) < 2 ^ 31 ->
  (captured its < fuel)%nat ->
  exists st f,
    main None fuel 0 unlink_status its = (st, Done 0)
    /\ closed st = Some f
    /\ header_frame_count (f_data f) = Z.of_nat (captured its)
    /\ exists data,
         trace st = [EvFlush; EvSystem (Some data); EvUnlink unlink_status].
Proof.
  intros Hgood Hpos Hmax Hfuel.
  assert (Hr0 : running 0 (mkWorld [] None None [])) by (by split).
  destruct (capture_loop_good its _ 0 Hr0 ltac:(done) Hgood ltac:(lia))
    as (st1 & Hloop).
  pose proof (capture_loop_running pending lookahead None I its _ st1 0 Hr0
                ltac:(lia) Hloop) as [Hcl Hvs].
  rewrite Z.add_0_l in Hvs.
  destruct (video_stream st1) as [vs|] eqn:Evs; [|lia].
  destruct Hvs as (Hb & Hfe & Hl).
  assert (Hin : (inside pending vs <= captured its)%nat).
  { destruct Hb as [Hc H0 _ _]. lia. }
  pose proof (flush_post pending lookahead fuel vs Hb ltac:(lia) ltac:(lia))
    as Hpost.
  destruct (post_returns _ _ _ Hpost)
    as (w & Hflush & Hb' & _ & _ & Hl' & Hfe' & Hin' & _); [by intros ?|].
  pose proof (flush_post pending lookahead fuel w Hb' ltac:(lia) ltac:(lia))
    as Hpost'.
  destruct (post_returns _ _ _ Hpost') as (w' & Hflush' & _);
    [intros ?; congruence|].
  assert (Hmain : main None fuel 0 unlink_status its
                  = (mkWorld (buffer st1) None (Some (outfile w'))
                       [EvFlush; EvSystem (Some (f_data (outfile w)));
                        EvUnlink unlink_status],
                     Done 0)).
  { unfold main. rewrite Hloop. cbn [pbind]. unfold finish, on_stream.
    rewrite Evs. cbn [pbind video_stream set_video_stream].
    rewrite Hflush. cbn [obind pbind].
    destruct (decide (0 ≠ 0)) as [|_]; [done|].
    cbn [log video_stream set_video_stream buffer closed trace].
    unfold destroy. rewrite Hflush'. cbn [obind].
    pose proof (capture_loop_trace _ _ _ _ _ Hloop) as [Ht _].
    cbn [trace] in Ht. rewrite Ht. done. }
  eexists _, _. split; [exact Hmain|]. cbn [closed trace].
  split; [done|]. split; [|by eexists].
  destruct (main_returns pending lookahead None I fuel 0 unlink_status its _
              Hpos Hmax Hfuel Hmain) as (f & Hf & _ & Hcount).
  cbn [closed] in Hf. by injection Hf as <-.
Qed.

Lemma take_upto_app (l1 l2 : list Z) (n : Z) :
  Z.of_nat (length l1) <= n ->
  take_upto n (l1 ++ l2) = l1 ++ take_upto (n - Z.of_nat (length l1)) l2.
Proof.
  revert n. induction l1 as [|x l1 IH]; intros n Hn.
  - cbn. by rewrite Z.sub_0_r.
  - cbn [app take_upto length] in *. replace (0 <? n) with true by lia.
    rewrite IH by lia. do 3 f_equal. lia.
Qed.

(** A first capture that announces more pixels than the buffer holds. *)
Lemma oversize_main (ws1 dw ws2 dh ws3 dd : list Z) (sep : Z)
    (body : list Z) (vars : scan_vars) (its : list iteration) (fuel : nat)
    (merge_status unlink_status : Z) :
  let header :=
    [char_code "P"; char_code "6"] ++ ws1 ++ dw ++ ws2 ++ dh ++ ws3 ++ dd in
  Forall (fun c => isspace c = true) (ws1 ++ ws2 ++ ws3) ->
  Forall (fun c => isdigit c = true) (dw ++ dh ++ dd) ->
  dw <> [] -> dh <> [] -> dd <> [] -> ws2 <> [] -> ws3 <> [] ->
  isdigit sep = false ->
  decimal dw = W -> decimal dh = H ->
  3 * W * H < 2 ^ 31 ->
  Z.of_nat (length header) < SIZE ->
  SIZE < Z.of_nat (length header) + 1 + 3 * W * H ->
  exists st,
    main None fuel merge_status unlink_status
      (mkIteration (RecvFinished (header ++ sep :: body)) vars :: its)
    = (st, Trap "read outside the buffer")
    /\ trace st = [] /\ closed st = None.
Proof.
  intros header Hws Hds Hdw Hdh Hdd Hws2 Hws3 Hsep HW HH Hmax Hhl Hover.
  assert (HSIZE : SIZE < 2 ^ 31) by (by vm_compute).
  set (hl := length (ws1 ++ dw ++ ws2 ++ dh ++ ws3 ++ dd)).
  assert (Hlen : length header = (2 + hl)%nat) by done.
  set (tail := take_upto (SIZE - Z.of_nat (length header) - 1) body).
  assert (Hbuf : receive (header ++ sep :: body) []
                 = [char_code "P"; char_code "6"]
                   ++ ws1 ++ dw ++ ws2 ++ dh ++ ws3 ++ dd ++ (sep :: tail)).
  { unfold receive. rewrite take_upto_app by lia.
    cbn [take_upto]. replace (0 <? SIZE - Z.of_nat (length header)) with true
      by lia.
    rewrite drop_nil, app_nil_r. fold tail. unfold header.
    by rewrite <- !app_assoc. }
  assert (Hscan : sscanf_P6 (receive (header ++ sep :: body) []) vars
                  = (3, mkVars W H (to_int (Z.min (decimal dd) LONG_MAX))
                          (Z.of_nat (2 + hl)))).
  { rewrite Hbuf, sscanf_P6_header by done.
    fold hl. rewrite HW, HH.
    rewrite (Z.min_l W), (Z.min_l H) by (unfold LONG_MAX; nia).
    rewrite (to_int_small W), (to_int_small H),
      (to_int_small (Z.of_nat (2 + hl))) by nia.
    done. }
  pose proof (new_writer_post pending lookahead None W H I) as Hpost.
  destruct (post_returns _ _ _ Hpost) as (vs & Hnew & _);
    [by intros []|].
  pose proof (new_writer_done _ _ _ _ Hnew) as (_ & Hw & Hh & _).
  unfold main. cbn [capture_loop]. unfold capture.
  cbn [shot locals take_screenshot buffer].
  assert (Hres : (Z.of_nat (length (take_upto SIZE (header ++ sep :: body)))
                  <? 0) = false)
    by (apply Z.ltb_ge, Nat2Z.is_nonneg).
  rewrite Hres.
  cbn [set_buffer buffer video_stream closed trace].
  rewrite Hscan. cbn [snd chars pwidth pheight]. rewrite Hnew.
  rewrite to_int_small by lia.
  cbn [pbind]. unfold on_stream at 1.
  cbn [set_video_stream video_stream buffer closed trace].
  set (p := ptr_add _ _).
  destruct (new_writer_sized _ _ Hnew) as (_ & _ & py & pu & pv & Hpl & Hy & _).
  rewrite (update_image_reads_outside vs p py [pu; pv]).
  - cbn [obind pbind]. eexists. by split.
  - done.
  - by rewrite Hw, Hh.
  - lia.
  - lia.
  - rewrite Hw, Hh. lia.
  - cbn. lia.
  - rewrite Hw, Hh. cbn. lia.
Qed.

(** Where [fopen] and [vpx_img_alloc] succeed, the runs are those of
    [main]. *)
Lemma new_writer_on_sound (pf : platform) (limit : option nat) (wd ht : Z) :
  fopen_ok pf = true -> img_alloc_ok pf = true ->
  new_writer_on pf limit wd ht = new_writer limit wd ht.
Proof.
  intros Hf Ha. unfold new_writer_on, new_writer. rewrite Hf, Ha.
  destruct (decide (vpx_codec_enc_config_default ≠ 0)); [done|].
  destruct (vpx_codec_enc_init _) as [res c].
  destruct (decide (res ≠ 0)); [done|].
  destruct (vpx_codec_control_lossless c 1) as [res' c'].
  by destruct (decide (res' ≠ 0)).
Qed.

Lemma capture_on_sound (pf : platform) (limit : option nat) (it : iteration)
    st :
  fopen_ok pf = true -> img_alloc_ok pf = true ->
  capture_on pf limit it st = capture limit it st.
Proof.
  intros Hf Ha. unfold capture_on, capture.
  destruct (take_screenshot (shot it) (buffer st)) as [res b].
  destruct (res <? 0); [done|].
  by rewrite new_writer_on_sound.
Qed.

Lemma capture_loop_on_sound (pf : platform) (limit : option nat)
    (its : list iteration) st :
  fopen_ok pf = true -> img_alloc_ok pf = true ->
  capture_loop_on pf limit its st = capture_loop limit its st.
Proof.
  intros Hf Ha. revert st. induction its as [|it its IH]; intros st; [done|].
  cbn [capture_loop_on capture_loop]. rewrite capture_on_sound by done.
  by destruct (capture limit it st) as [st1 [[]| | |]]; cbn [pbind].
Qed.

Lemma main_on_sound (pf : platform) (limit : option nat) (fuel : nat)
    (merge_status unlink_status : Z) (its : list iteration) :
  fopen_ok pf = true -> img_alloc_ok pf = true ->
  main_on pf limit fuel merge_status unlink_status its
  = main limit fuel merge_status unlink_status its.
Proof.
  intros Hf Ha. unfold main_on, main.
  by rewrite capture_loop_on_sound.
Qed.

(** Where [fopen] gives the null pointer, the constructor comes to
    [ftell] on it. *)
Lemma new_writer_on_null (pf : platform) (limit : option nat) (wd ht : Z) :
  fopen_ok pf = false ->
  new_writer_on pf limit wd ht = Trap "outfile is null".
Proof.
  intros Hf. unfold new_writer_on. rewrite Hf.
  rewrite (la_config pending lookahead).
  destruct (decide (0 ≠ 0)) as [|_]; [done|].
  set (cfg := mkCfg _ _ _ _ _).
  destruct (la_init pending lookahead cfg) as [Hi _].
  destruct (vpx_codec_enc_init cfg) as [res c]. cbn [fst] in Hi. subst res.
  destruct (decide (0 ≠ 0)) as [|_]; [done|].
  destruct (la_control pending lookahead c 1) as [Hc _].
  destruct (vpx_codec_control_lossless c 1) as [res' c']. cbn [fst] in Hc.
  subst res'.
  by destruct (decide (0 ≠ 0)).
Qed.

Lemma capture_loop_on_null (pf : platform) (its : list iteration) st :
  fopen_ok pf = false ->
  video_stream st = None ->
  (0 < captured its)%nat ->
  exists st', capture_loop_on pf None its st = (st', Trap "outfile is null").
Proof.
  intros Hf. revert st. induction its as [|it its IH]; intros st Hvs Hpos.
  - cbn in Hpos. lia.
  - cbn [capture_loop_on]. unfold capture_on.
    destruct (shot it) as [|received|received] eqn:Eshot;
      cbn [take_screenshot].
    + cbn [Z.ltb Z.compare pbind]. apply IH; [done|].
      pose proof (captured_cons it its) as Hc. rewrite Eshot in Hc.
      cbn [finished] in Hc. lia.
    + cbn [Z.ltb Z.compare pbind]. apply IH; [done|].
      pose proof (captured_cons it its) as Hc. rewrite Eshot in Hc.
      cbn [finished] in Hc. lia.
    + assert (Hres : (Z.of_nat (length (take_upto SIZE received)) <? 0)
                     = false)
        by (apply Z.ltb_ge, Nat2Z.is_nonneg).
      rewrite Hres. cbn [set_buffer buffer video_stream]. rewrite Hvs.
      rewrite new_writer_on_null by done. cbn [pbind]. by eexists.
Qed.



End WholeRun.
(** ** The records read back *)

Section ReadRecords.

Context {codec_t : Type} `{!VpxCodec codec_t}.

Lemma le_value_app (a b : list Z) :
  le_value (a ++ b) = le_value a + 256 ^ Z.of_nat (length a) * le_value b.
Proof.
  induction a as [|x a IH]; [cbn; lia|].
  cbn [app le_value length]. rewrite IH, Nat2Z.inj_succ, Z.pow_succ_r by lia.
  lia.
Qed.

(** One record at the head of the data. *)
Lemma read_record (fr : frame) (rest : list Z) :
  Z.of_nat (length (fst fr)) < 2 ^ 32 ->
  - 2 ^ 63 <= snd fr < 2 ^ 63 ->
  let data := frame_record fr ++ rest in
  (12 <= length data)%nat
  /\ Z.to_nat (le_value (sub_bytes 0 4 data)) = length (fst fr)
  /\ to_int64 (le_value (sub_bytes 4 8 data)) = snd fr
  /\ sub_bytes 12 (length (fst fr)) data = fst fr
  /\ drop (12 + length (fst fr)) data = rest.
Proof.
  destruct fr as [buf pts]. cbn [fst snd]. intros Hsize Hpts. cbv zeta.
  unfold frame_record. cbn [fst snd].
  set (a := le_bytes 4 (Z.of_nat (length buf))).
  set (b := le_bytes 4 pts). set (c := le_bytes 4 (pts / 2 ^ 32)).
  assert (Ha : length a = 4%nat) by apply le_bytes_length.
  assert (Hb : length b = 4%nat) by apply le_bytes_length.
  assert (Hc : length c = 4%nat) by apply le_bytes_length.
  split_and!.
  - rewrite !length_app. lia.
  - replace ((a ++ b ++ c ++ buf) ++ rest)
      with ([] ++ a ++ (b ++ c ++ buf ++ rest))
      by (by rewrite <- !app_assoc).
    rewrite <- Ha at 1. change 0%nat with (length (@nil Z)).
    rewrite sub_bytes_middle. unfold a. rewrite le_value_le_bytes.
    change (256 ^ Z.of_nat 4) with (2 ^ 32).
    rewrite Z.mod_small by lia. lia.
  - replace ((a ++ b ++ c ++ buf) ++ rest)
      with (a ++ (b ++ c) ++ (buf ++ rest))
      by (by rewrite <- !app_assoc).
    replace 8%nat with (length (b ++ c)) by (rewrite length_app; lia).
    rewrite <- Ha at 1. rewrite sub_bytes_middle, le_value_app, Hb.
    unfold b, c. rewrite !le_value_le_bytes.
    change (256 ^ Z.of_nat 4) with (2 ^ 32).
    assert (Hmod : pts mod 2 ^ 32 + 2 ^ 32 * ((pts / 2 ^ 32) mod 2 ^ 32)
                   = pts mod 2 ^ 64).
    { change (2 ^ 64) with (2 ^ 32 * 2 ^ 32). by rewrite Z.rem_mul_r. }
    rewrite Hmod. unfold to_int64.
    assert (Hshift : (pts mod 2 ^ 64 + 2 ^ 63) mod 2 ^ 64
                     = (pts + 2 ^ 63) mod 2 ^ 64).
    { by rewrite Zplus_mod_idemp_l. }
    rewrite Hshift, Z.mod_small by lia. lia.
  - replace ((a ++ b ++ c ++ buf) ++ rest)
      with ((a ++ b ++ c) ++ buf ++ rest)
      by (by rewrite <- !app_assoc).
    replace 12%nat with (length (a ++ b ++ c))
      by (rewrite !length_app; lia).
    apply sub_bytes_middle.
  - replace ((a ++ b ++ c ++ buf) ++ rest)
      with ((a ++ b ++ c ++ buf) ++ rest) by done.
    apply drop_app_length'. rewrite !length_app. lia.
Qed.

Lemma read_records (frs : list frame) (fuel : nat) :
  Forall (fun fr => Z.of_nat (length (fst fr)) < 2 ^ 32
                    /\ - 2 ^ 63 <= snd fr < 2 ^ 63) frs ->
  (length frs <= fuel)%nat ->
  ivf_read_records fuel (concat (frame_record <$> frs)) = frs.
Proof.
  intros Hb. revert fuel. induction Hb as [|fr frs [Hs Hp] _ IH]; intros fuel Hf.
  - destruct fuel; [done|]. cbn. done.
  - destruct fuel as [|fuel]; [cbn in Hf; lia|].
    cbn [fmap list_fmap concat ivf_read_records].
    change (list_fmap _ _ frame_record frs) with (frame_record <$> frs).
    destruct (read_record fr (concat (frame_record <$> frs)) Hs Hp)
      as (Hlen & Hsize & Hpts & Hbuf & Hrest).
    destruct (decide (length (frame_record fr ++ concat (frame_record <$> frs))
                      < 12)%nat) as [|_]; [lia|].
    rewrite Hsize, Hpts, Hbuf, Hrest, IH by (cbn in Hf; lia).
    by destruct fr.
Qed.

(** X25. Round trip.  The frames appended to a new file can be read back
    from it: after the stream header, a reader of the format finds the
    payloads and the time stamps given to
    [vpx_video_writer_write_frame], in the order given, for payloads
    below 2^32 bytes and time stamps of 64 bits. *)
Theorem container_round_trip (limit : option nat) (width0 height0 : Z)
    (frs : list frame) (w0 : IVFVPX9Writer codec_t) :
  new_writer limit width0 height0 = Done w0 ->
  allows limit (32 + records_size frs) ->
  Z.of_nat (length frs) < 2 ^ 31 ->
  Forall (fun fr => Z.of_nat (length (fst fr)) < 2 ^ 32
                    /\ - 2 ^ 63 <= snd fr < 2 ^ 63) frs ->
  exists w,
    append_all frs w0 = Done w
    /\ ivf_read_records (length frs) (drop 32 (f_data (outfile w))) = frs
    /\ ivf_read_records (length frs)
         (drop 32 (f_data (outfile (write_file_header w)))) = frs.
Proof.
  intros Hnew Hroom Hmax Hb.
  assert (Ha32 : allows limit 32)
    by (unfold allows in *; destruct limit; [lia|done]).
  destruct (new_writer_framed _ _ _ _ Ha32 Hnew) as (Hfr & Hdata & Hlim).
  destruct (new_writer_done _ _ _ _ Hnew) as (_ & Hw & Hh & Hfw & _).
  destruct (append_all_framed frs w0)
    as (w & Hrun & Hfr' & Hd & Hl & Hc & Hw' & Hh').
  - done.
  - by rewrite Hlim, Hdata, header_layout_length.
  - lia.
  - lia.
  - exists w. split; [done|].
    assert (Hrec : drop 32 (f_data (outfile w))
                   = concat (frame_record <$> frs)).
    { rewrite Hd, Hdata.
      by rewrite drop_app_length' by (by rewrite header_layout_length). }
    split.
    + rewrite Hrec. by apply read_records.
    + destruct (write_file_header_data w) as (Hwd & _);
        [by rewrite Hl, Hlim|done|].
      rewrite Hwd, Hrec.
      rewrite drop_app_length' by (by rewrite header_layout_length).
      by apply read_records.
Qed.

End ReadRecords.

(** ** Concrete runs *)

(** [fresh_writer] is what the constructor returns. *)
Lemma fresh_writer_new :
  new_writer None 4 2 = Done fresh_writer.
Proof. reflexivity. Qed.

Lemma fresh_writer_framed : framed fresh_writer.
Proof. split; cbn; lia. Qed.

(** C1 as stated fails: after one append to a new file the frame count in
    memory is 1 and the frame count on disk is still 0. *)
Lemma append_leaves_header_stale :
  let r := vpx_video_writer_write_frame fresh_writer [1; 2; 3] 0 in
  fst r = 1
  /\ frames_written (snd r) = 1
  /\ header_frame_count (f_data (outfile (snd r))) = 0
  /\ header_frame_count (f_data (outfile (snd r))) <> frames_written (snd r).
Proof. vm_compute. repeat split. discriminate. Qed.

(** An append of three bytes with time stamp 7 to the new file. *)
Lemma append_writes_record_witness :
  framed fresh_writer
  /\ fits (outfile fresh_writer) (12 + length [1; 2; 3])
  /\ f_data (outfile (snd (vpx_video_writer_write_frame fresh_writer [1; 2; 3] 7)))
     = header_layout 4 2 0 ++ [3; 0; 0; 0; 7; 0; 0; 0; 0; 0; 0; 0; 1; 2; 3].
Proof.
  split; [exact fresh_writer_framed|]. split; [exact I|].
  exact (proj1 (proj2
    (append_writes_record fresh_writer [1; 2; 3] 7 fresh_writer_framed I))).
Defined.

(** The width field of the header of the new writer. *)
Lemma stream_header_layout_witness :
  allows (f_limit (outfile fresh_writer)) 32
  /\ sub_bytes 12 2 (f_data (outfile (write_file_header fresh_writer)))
     = le_bytes 2 4.
Proof.
  split; [exact I|].
  exact (proj1 (proj2 (proj2 (proj2 (proj2 (proj2 (proj2
    (stream_header_layout fresh_writer I)))))))).
Defined.

(** 25 live frames and two flushes: the flag goes with the indices 0, 10
    and 20. *)
Lemma keyframe_cadence_witness :
  exists w,
    for_each steps_25 submission_step fresh_writer = Done w
    /\ (sub_flags <$> submitted (codec w))
       = [1; 0; 0; 0; 0; 0; 0; 0; 0; 0; 1; 0; 0; 0; 0; 0; 0; 0; 0; 0;
          1; 0; 0; 0; 0; 0; 0]
    /\ submitted (codec w) = cadence steps_25 0.
Proof.
  destruct (for_each steps_25 submission_step fresh_writer) as [w| | |] eqn:E;
    try (exfalso; vm_compute in E; discriminate E).
  exists w. split; [reflexivity|].
  assert (Hc : submitted (codec w) = cadence steps_25 0).
  { refine (proj1 (keyframe_cadence None 4 2 steps_25 fresh_writer w
                     fresh_writer_new E _)).
    vm_compute. reflexivity. }
  split; [|exact Hc].
  rewrite Hc. vm_compute. reflexivity.
Defined.

(** Three frames of 3, 0 and 2 bytes: 32 + 15 + 12 + 14 = 73 bytes, and a
    count of 3. *)
Lemma container_length_and_count_witness :
  allows None (32 + records_size three_frames)
  /\ exists w,
       append_all three_frames fresh_writer = Done w
       /\ length (f_data (outfile (write_file_header w))) = 73%nat
       /\ header_frame_count (f_data (outfile (write_file_header w))) = 3.
Proof.
  split; [exact I|].
  destruct (container_length_and_count None 4 2 three_frames fresh_writer
              fresh_writer_new I ltac:(vm_compute; reflexivity))
    as (w & Hrun & Hlen & Hcount & _).
  exists w. split; [exact Hrun|]. split; [exact Hlen|exact Hcount].
Defined.

(** Ten frames on the encoder of lag 3, as a session on the writer and as
    a run of [main]. *)
Lemma ten_frame_session_witness :
  (exists f,
     session (VpxCodec0 := LagEncoder.codec 3) None 11 4 2
             (replicate 10 (vpx_img_alloc 4 2)) = Done f
     /\ header_frame_count (f_data f) = 10)
  /\ (exists st f,
        main (VpxCodec0 := LagEncoder.codec 3) None 11 0 0 ten_captures
        = (st, Done 0)
        /\ closed st = Some f /\ header_frame_count (f_data f) = 10).
Proof.
  pose proof (ten_frame_session (VpxCodec0 := LagEncoder.codec 3)
                LagEncoder.pending None 11 4 2
                (replicate 10 (vpx_img_alloc 4 2))
                (lag_encoder_lookahead 3) I eq_refl ltac:(lia))
    as (_ & _ & _ & Hrun & Hmain).
  split; [exact (Hrun eq_refl)|].
  destruct (main (VpxCodec0 := LagEncoder.codec 3) None 11 0 0 ten_captures)
    as [st out] eqn:E.
  assert (Hout : out = Done 0).
  { apply (f_equal snd) in E. cbn [snd] in E. rewrite <- E.
    vm_compute. reflexivity. }
  subst out.
  destruct (Hmain 0 0 ten_captures st eq_refl E) as (f & Hf & _ & Hcount).
  exists st, f. split; [reflexivity|]. split; [exact Hf|exact Hcount].
Defined.

(** On that run the command of line 439 is given a file whose header says
    7: the explicit [flush()] writes the header before it drains the three
    frames the encoder holds, and it is the destructor that brings the
    count to 10. *)
Lemma remux_input_count :
  let st := fst (main (VpxCodec0 := LagEncoder.codec 3) None 11 0 0
                      ten_captures) in
  (fun e => match e with
            | EvSystem (Some data) => Some (header_frame_count data)
            | _ => None
            end) <$> trace st
  = [None; Some 7; None].
Proof. vm_compute. reflexivity. Qed.



(** Two failed screenshot calls and then the signal. *)
Lemma no_frame_no_container_witness :
  exists st,
    main (VpxCodec0 := LagEncoder.codec 0) None 5 0 0
         [mkIteration NoScreenshot stale_locals;
          mkIteration (RecvAborted [80; 54]) stale_locals]
    = (st, Trap "video_stream is null")
    /\ video_stream st = None /\ tmp_file st = None
    /\ closed st = None /\ trace st = [].
Proof.
  refine (no_frame_no_container (VpxCodec0 := LagEncoder.codec 0) None 5 0 0
            [mkIteration NoScreenshot stale_locals;
             mkIteration (RecvAborted [80; 54]) stale_locals] _).
  repeat constructor.
Defined.

(** The header rewritten after one append: the record and the position
    are as before. *)
Lemma header_rewrite_frame_witness :
  let w := snd (vpx_video_writer_write_frame fresh_writer [1; 2; 3] 7) in
  take 32 (f_data (outfile w)) = header_layout (width w) (height w) 0
  /\ drop 32 (f_data (outfile (write_file_header w)))
     = [3; 0; 0; 0; 7; 0; 0; 0; 0; 0; 0; 0; 1; 2; 3]
  /\ f_pos (outfile (write_file_header w)) = 47%nat.
Proof.
  cbv zeta.
  set (w := snd (vpx_video_writer_write_frame fresh_writer [1; 2; 3] 7)).
  assert (Hold : take 32 (f_data (outfile w))
                 = header_layout (width w) (height w) 0) by reflexivity.
  split; [exact Hold|].
  destruct (header_rewrite_frame w 0 Hold) as (_ & Hdrop & _ & Hpos).
  split.
  - rewrite Hdrop. reflexivity.
  - rewrite Hpos; [reflexivity|]. vm_compute. lia.
Defined.

(** A flush on the new writer. *)
Lemma flush_never_forces_keyframe_witness :
  exists g w' s,
    encode_frame fresh_writer true = Done (g, w')
    /\ submitted (codec w') = [s]
    /\ sub_flags s = 0 /\ sub_pts s = -1.
Proof.
  destruct (encode_frame fresh_writer true) as [[g w']| | |] eqn:E;
    try (exfalso; vm_compute in E; discriminate E).
  destruct (flush_never_forces_keyframe fresh_writer true g w' E)
    as (s & Hs & Hflush & _).
  destruct (Hflush eq_refl) as (_ & Hpts & _ & Hflags & _).
  exists g, w', s. repeat split; assumption.
Defined.

(** ** More concrete runs *)

(** [0x12345678] stored at offset 1 of an array of eight bytes. *)
Lemma mem_put_read_back_witness :
  (1 + 4 <= length (replicate 8 255))%nat
  /\ le_value (sub_bytes 1 4 (mem_put_le32 (replicate 8 255) 1 0x12345678))
     = 0x12345678 mod 2 ^ 32.
Proof.
  assert (H : (1 + 4 <= length (replicate 8 255))%nat) by (cbn; lia).
  split; [exact H|].
  exact (proj1 (proj2 (proj2 (proj2 (proj2
    (mem_put_read_back (replicate 8 255) 1 0x12345678 H)))))).
Defined.

(** The record header of a payload of 3 bytes with time stamp 2^32 + 2. *)
Lemma frame_header_read_back_witness :
  let h := frame_header (local_array 12) (2 ^ 32 + 2) (to_uint32 (Z.of_nat 3)) in
  length (local_array 12) = 12%nat
  /\ le_value (sub_bytes 0 4 h) = Z.of_nat 3 mod 2 ^ 32
  /\ le_value (sub_bytes 4 4 h) + 2 ^ 32 * le_value (sub_bytes 8 4 h)
     = (2 ^ 32 + 2) mod 2 ^ 64.
Proof.
  cbv zeta. split; [reflexivity|].
  pose proof (frame_header_read_back (local_array 12) (2 ^ 32 + 2) 3 eq_refl)
    as (_ & Hsize & Hpts & _).
  split; [exact Hsize|exact Hpts].
Defined.

(** The stream header of a 4x2 stream of 3 frames. *)
Lemma file_header_read_back_witness :
  length (local_array 32) = 32%nat
  /\ le_value (sub_bytes 12 2 (file_header (local_array 32) 4 2 3))
     = 4 mod 2 ^ 16
  /\ le_value (sub_bytes 24 4 (file_header (local_array 32) 4 2 3))
     = 3 mod 2 ^ 32.
Proof.
  split; [reflexivity|].
  pose proof (file_header_read_back (local_array 32) 4 2 3 eq_refl)
    as (Hw & _ & Hn & _).
  split; [exact Hw|exact Hn].
Defined.

Lemma red_buffer_bytes : Forall (fun b => 0 <= b <= 255) (block red_buffer).
Proof.
  unfold red_buffer, red_4x2. cbn [block replicate concat app].
  repeat (constructor; [lia|]). constructor.
Qed.

(** The last pixel of the red image. *)
Lemma samples_in_studio_range_witness :
  readable red_buffer 4 1 3
  /\ exists vy vu vv,
       luma_sample 4 red_buffer 1 3 (0%nat, [0]) = Done (1%nat, [vy])
       /\ chroma_u_sample 4 red_buffer 1 3 (0%nat, [0]) = Done (1%nat, [vu])
       /\ chroma_v_sample 4 red_buffer 1 3 (0%nat, [0]) = Done (1%nat, [vv])
       /\ 16 <= vy <= 235 /\ 17 <= vu <= 240 /\ 17 <= vv <= 240.
Proof.
  assert (Hr : readable red_buffer 4 1 3) by (unfold readable; cbn; lia).
  split; [exact Hr|].
  exact (samples_in_studio_range red_buffer 4 1 3 0 [0] red_buffer_bytes Hr
           (Nat.lt_0_succ 0)).
Defined.

(** The red image converted: luma 82 at the last pixel. *)
Lemma update_image_luma_witness :
  exists w',
    update_image fresh_writer red_buffer = Done w'
    /\ (planes (img w') !!! 0%nat) !! 7%nat = Some 82.
Proof.
  destruct (update_image_luma fresh_writer red_buffer
              (replicate 8 0) (replicate 2 0) (replicate 2 0) [] eq_refl
              ltac:(by vm_compute) ltac:(by vm_compute) ltac:(by vm_compute)
              ltac:(by vm_compute) ltac:(by vm_compute) ltac:(by vm_compute)
              ltac:(by vm_compute))
    as (w' & Hrun & _ & _ & Hl).
  exists w'. split; [exact Hrun|].
  exact (Hl 1 3 ltac:(by vm_compute) ltac:(by vm_compute)).
Defined.

(** And its chroma: sample 1 of both planes is the pixel at column 2 of
    row 0. *)
Lemma update_image_chroma_witness :
  exists w',
    update_image fresh_writer red_buffer = Done w'
    /\ (planes (img w') !!! 1%nat) !! 1%nat = Some 91
    /\ (planes (img w') !!! 2%nat) !! 1%nat = Some 240.
Proof.
  destruct (update_image_chroma fresh_writer red_buffer
              (replicate 8 0) (replicate 2 0) (replicate 2 0) [] eq_refl
              ltac:(by vm_compute) ltac:(by vm_compute) ltac:(by vm_compute)
              ltac:(by vm_compute) ltac:(by vm_compute) ltac:(by vm_compute)
              ltac:(by vm_compute))
    as (w' & Hrun & Hc).
  exists w'. split; [exact Hrun|].
  exact (Hc 0 1 ltac:(by vm_compute) ltac:(by vm_compute)).
Defined.

Lemma prompt_writer_framed : framed prompt_writer.
Proof. split; cbn; lia. Qed.

(** A live frame on the encoder without lag: its packet is written at
    once. *)
Lemma encode_frame_forwards_witness :
  exists w',
    encode_frame prompt_writer false = Done (1, w')
    /\ length (f_data (outfile w')) = 47%nat
    /\ frames_written w' = 1.
Proof.
  destruct (encode_frame_forwards (VpxCodec0 := lag2) prompt_writer false
              ltac:(vm_compute; reflexivity)
              prompt_writer_framed I ltac:(by vm_compute) ltac:(by vm_compute))
    as (w' & Hrun & Hdata & Hcount & _).
  exists w'. split; [exact Hrun|]. split; [|exact Hcount].
  rewrite Hdata. reflexivity.
Defined.

Lemma holding_writer_balanced : balanced LagEncoder.pending holding_writer.
Proof. split; [reflexivity|by vm_compute|unfold past_header; vm_compute; lia|exact I]. Qed.

Lemma fresh_writer_balanced : balanced LagEncoder.pending fresh_writer.
Proof. split; [reflexivity|by vm_compute|unfold past_header; vm_compute; lia|exact I]. Qed.

(** [flush()] with two frames inside the encoder: both are written, and
    the header on disk says 0. *)
Lemma flush_header_lags_witness :
  exists w',
    flush 3 holding_writer = Done w'
    /\ frames_written w' = 2
    /\ header_frame_count (f_data (outfile w')) = 0.
Proof.
  pose proof (flush_header_lags LagEncoder.pending (lag_encoder_lookahead 2)
                3 holding_writer holding_writer_balanced
                ltac:(by vm_compute) ltac:(cbn; lia)) as [Hret Hdone].
  destruct (Hret eq_refl) as [w' Hrun].
  destruct (Hdone w' Hrun) as [Hfw Hhc].
  exists w'. split; [exact Hrun|]. split; [exact Hfw|].
  rewrite Hfw in Hhc. exact Hhc.
Defined.

(** [flush()] on the new writer. *)
Lemma flush_drained_witness :
  exists w',
    flush 1 fresh_writer = Done w'
    /\ frames_written w' = 0
    /\ length (submitted (codec w')) = 1%nat.
Proof.
  destruct (flush_drained LagEncoder.pending (lag_encoder_lookahead 2)
              0 fresh_writer fresh_writer_balanced eq_refl)
    as (w' & Hrun & _ & _ & Hfw & Hsub).
  exists w'. split; [exact Hrun|]. split; [exact Hfw|].
  rewrite Hsub. reflexivity.
Defined.

(** The encoder that reports statistics at every call: a thousand turns
    of the flush loop and no end. *)
Lemma flush_needs_a_silent_call_witness :
  flush (VpxCodec0 := StatsEncoder.codec) 1000 stats_writer = OutOfFuel.
Proof.
  exact (proj2 (flush_needs_a_silent_call (VpxCodec0 := StatsEncoder.codec)
                  1000 stats_writer
                  ltac:(intros; discriminate))
           eq_refl ltac:(intros; reflexivity)).
Defined.

(** The ten captures on the encoder of lag 3, as a whole run. *)
Lemma ten_captures_run :
  main (VpxCodec0 := LagEncoder.codec 3) None 11 0 0 ten_captures
  = (fst (main (VpxCodec0 := LagEncoder.codec 3) None 11 0 0 ten_captures),
     Done 0).
Proof.
  rewrite (surjective_pairing (main _ _ _ _ _)) at 1.
  f_equal; vm_compute; reflexivity.
Qed.


(** The same captures when [mkvmerge] returns 1. *)
Lemma remux_failure_witness :
  exists st r,
    main (VpxCodec0 := LagEncoder.codec 3) None 11 1 0 ten_captures = (st, r)
    /\ (forall z, r <> Done z)
    /\ closed st = None.
Proof.
  destruct (main (VpxCodec0 := LagEncoder.codec 3) None 11 1 0 ten_captures)
    as [st r] eqn:E.
  destruct (remux_failure (VpxCodec0 := LagEncoder.codec 3) None 11 1 0
              ten_captures st r ltac:(discriminate) E) as (Hr & Hc & _).
  exists st, r. split; [reflexivity|]. split; [exact Hr|exact Hc].
Defined.

Lemma ten_captures_loop :
  capture_loop (VpxCodec0 := LagEncoder.codec 3) None ten_captures
    initial_world
  = (fst (capture_loop (VpxCodec0 := LagEncoder.codec 3) None ten_captures
            initial_world),
     Done tt).
Proof.
  rewrite (surjective_pairing (capture_loop _ _ _)) at 1.
  f_equal; vm_compute; reflexivity.
Qed.

(** At the end of the loop over the ten captures the writer has counted
    ten images and its stream begins with the header of a 4x2 stream of 0
    frames. *)
Lemma header_reads_zero_during_capture_witness :
  exists vs,
    video_stream (fst (capture_loop (VpxCodec0 := LagEncoder.codec 3) None
                         ten_captures initial_world)) = Some vs
    /\ take 32 (f_data (outfile vs)) = header_layout (width vs) (height vs) 0
    /\ frames_encoded vs = 10.
Proof.
  destruct (video_stream (fst (capture_loop (VpxCodec0 := LagEncoder.codec 3)
                                 None ten_captures initial_world)))
    as [vs|] eqn:Evs; [|exfalso; vm_compute in Evs; discriminate Evs].
  destruct (header_reads_zero_during_capture (VpxCodec0 := LagEncoder.codec 3)
              LagEncoder.pending (lag_encoder_lookahead 3) None I
              ten_captures _ ltac:(by vm_compute) ten_captures_loop vs Evs)
    as (Hh & _ & _ & Hfe & _).
  exists vs. split; [reflexivity|]. split; [exact Hh|exact Hfe].
Defined.

(** On the same run [mkvmerge] is given a header that is short by the
    frames the encoder held when the loop ended. *)
Lemma remux_reads_count_before_drain_witness :
  exists st vs data,
    main (VpxCodec0 := LagEncoder.codec 3) None 11 0 0 ten_captures
    = (st, Done 0)
    /\ trace st = [EvFlush; EvSystem (Some data); EvUnlink 0]
    /\ header_frame_count data
       = 10 - Z.of_nat (LagEncoder.pending (priv (codec vs))).
Proof.
  destruct (remux_reads_count_before_drain (VpxCodec0 := LagEncoder.codec 3)
              LagEncoder.pending (lag_encoder_lookahead 3) None I 11 0 0
              ten_captures _ ltac:(by vm_compute) ltac:(vm_compute; lia)
              ten_captures_run)
    as (st1 & vs & data & _ & _ & Ht & Hc).
  eexists _, vs, data. split; [exact ten_captures_run|].
  split; [exact Ht|exact Hc].
Defined.

(** Six bytes in two chunks over a buffer of eight. *)
Lemma take_screenshot_receives_witness :
  Z.of_nat (length (concat two_chunks)) <= SIZE
  /\ take_screenshot_calls true ((RecvBytes <$> two_chunks) ++ [RecvBytes []])
       [1; 2; 3; 4; 5; 6; 7; 8]
     = Done (6, [80; 54; 10; 52; 32; 50; 7; 8]).
Proof.
  assert (H : Z.of_nat (length (concat two_chunks)) <= SIZE)
    by (by vm_compute).
  split; [exact H|].
  exact (proj1 (take_screenshot_receives two_chunks [] [1; 2; 3; 4; 5; 6; 7; 8]
                  ltac:(repeat (constructor; [discriminate|]); constructor)
                  H)).
Defined.

(** [--connection=qemu:///session] is taken for the connection option. *)
Lemma option_is_a_prefix_witness :
  has_option connection_option "--connection=qemu:///session" = true.
Proof.
  exact (proj2 (proj1 (option_is_a_prefix connection_option
                         "--connection=qemu:///session"))
           (ex_intro _ "=qemu:///session"%string eq_refl)).
Defined.

(** The command line the usage text describes. *)
Lemma usage_text_form_is_rejected_witness :
  process_arguments ["lvsc"; "vm"; "out.webm"]%string = Done plain_options
  /\ process_arguments
       ["lvsc"; "vm"; "out.webm"; "--connect"; "qemu:///session"]%string
     = usage_exit "lvsc".
Proof.
  exact (usage_text_form_is_rejected "lvsc" "vm" "out.webm"
           ["qemu:///session"%string]
           ltac:(discriminate) ltac:(discriminate)
           eq_refl eq_refl eq_refl eq_refl).
Defined.

(** [--connection] with nothing after it. *)
Lemma dangling_connection_option_witness :
  exists t,
    process_arguments ["lvsc"; "vm"; "out.webm"; "--connection"]%string
    = Trap t.
Proof.
  exact (dangling_connection_option "lvsc" "--connection"
           ["vm"; "out.webm"]%string plain_options eq_refl eq_refl).
Defined.

(** [--debug] between the two names. *)
Lemma debug_option_anywhere_witness :
  parse_args "lvsc" ["vm"; "--debug"; "out.webm"]%string default_options
  = Done (mkOptions "vm" "out.webm" "qemu:///system" true).
Proof.
  exact (debug_option_anywhere "lvsc" "--debug" ["vm"%string]
           ["out.webm"%string] default_options
           (mkOptions "vm" EmptyString "qemu:///system" false)
           eq_refl eq_refl eq_refl).
Defined.

(** The new 4x2 writer takes the 24 bytes of the red image. *)
Lemma new_writer_update_image_witness :
  exists w', update_image fresh_writer red_buffer = Done w'.
Proof.
  destruct (new_writer_update_image None 4 2 fresh_writer red_buffer
              fresh_writer_new
              ltac:(by vm_compute) ltac:(by vm_compute) ltac:(by vm_compute)
              ltac:(by vm_compute) ltac:(by vm_compute))
    as (w' & Hrun & _).
  exists w'. exact Hrun.
Defined.

(** One byte less in the buffer. *)
Lemma update_image_past_buffer_witness :
  update_image fresh_writer short_buffer = Trap "read outside the buffer".
Proof.
  exact (update_image_past_buffer fresh_writer short_buffer
           (replicate 8 0) [replicate 2 0; replicate 2 0] eq_refl
           ltac:(by vm_compute) ltac:(by vm_compute) ltac:(by vm_compute)
           ltac:(by vm_compute) ltac:(by vm_compute) ltac:(by vm_compute)).
Defined.

Lemma capture_4x2_netpbm : netpbm_capture 4 2 capture_4x2.
Proof.
  exists [10], [52], [32], [50], [10], [50; 53; 53], 10, red_4x2.
  split_and!; try done.
  - repeat constructor.
  - repeat constructor.
Qed.

Lemma ten_captures_good : Forall (good_turn 4 2) ten_captures.
Proof.
  unfold ten_captures. cbn [replicate app].
  repeat (constructor; [first [exact capture_4x2_netpbm|exact I]|]).
  constructor.
Qed.



(** The three frames read back from the file. *)
Lemma container_round_trip_witness :
  exists w,
    append_all three_frames fresh_writer = Done w
    /\ ivf_read_records 3 (drop 32 (f_data (outfile w))) = three_frames.
Proof.
  destruct (container_round_trip None 4 2 three_frames fresh_writer
              fresh_writer_new I ltac:(by vm_compute)
              ltac:(repeat (constructor; [cbn; lia|]); constructor))
    as (w & Hrun & Hread & _).
  exists w. split; [exact Hrun|exact Hread].
Defined.
